(** * Mavish: the first-person movement and collision core

    A shallow embedding of the player controller of [src/main.cpp]
    (look update, noclip flight, walking with gravity, jump, axis push-out
    against static boxes, ground detection) and the properties its
    specification states about it.

    Number model.  Two are used.  In the exact one every C++ [float] is
    a rational of [Q] and sums, products and comparisons are the
    mathematical ones: it fixes the control flow of the controller, its
    comparisons and its invariants, and the properties that do not rest
    on a cancellation are stated in it.  Equality of computed
    coordinates is [==] (equality of fractions); where the code stores a
    value without arithmetic the statement is a plain [=].  In the
    rounded one ([Rounded], near the end of the definitions) every
    [float] operation of the walking update is followed by a rounding,
    and [F32.binary32] is the rounding of single precision; the push-out
    and the approach to a face, which exact arithmetic settles by
    cancellation, are stated in it.  Infinities, NaN and subnormal
    numbers are outside both models.

    External calls.  [sqrtf], [cosf], [sinf] and raylib's [DEG2RAD] are
    not rational functions and are not part of the repository: they are
    parameters of the section that holds the two per-frame updates.  The
    vector helpers of raylib's [raymath.h] are written out as that header
    defines them.  The raylib input queries of one frame ([GetFrameTime],
    [GetMouseDelta], [IsKeyDown], [IsKeyPressed]) are the fields of a
    [Frame] record.

    Layout.  [UpdateWalkingMode] is one C++ function; here it is the
    composition of [WalkImpulses] (look, intent, gravity, jump) and
    [WalkMove] (candidate position, push-outs, vertical move, grounding),
    and its two loops over the obstacle list are the folds
    [HorizontalCollisions] and [FindGround]. *)

From Stdlib Require Import QArith Qabs Qround Qpower Lqa Lia ZArith Bool List.
Import ListNotations.
Open Scope Q_scope.

(** ** Comparisons, as the C++ operators *)

Module Cmp.
Definition lt (a b : Q) : bool := negb (Qle_bool b a).
Definition le (a b : Q) : bool := Qle_bool a b.
Definition gt (a b : Q) : bool := lt b a.
Definition ge (a b : Q) : bool := le b a.
Definition ne (a b : Q) : bool := negb (Qeq_bool a b).
End Cmp.

Declare Scope cmp_scope.
Delimit Scope cmp_scope with cmp.
Infix "<?" := Cmp.lt (at level 70, no associativity) : cmp_scope.
Infix "<=?" := Cmp.le (at level 70, no associativity) : cmp_scope.
Infix ">?" := Cmp.gt (at level 70, no associativity) : cmp_scope.
Infix ">=?" := Cmp.ge (at level 70, no associativity) : cmp_scope.
Infix "!=?" := Cmp.ne (at level 70, no associativity) : cmp_scope.
Open Scope cmp_scope.

(** [fabsf] *)
Definition fabsf (a : Q) : Q := Qabs a.

(** ** raylib value types *)

Record Vector2 := vec2 { x2 : Q; y2 : Q }.

Record Vector3 := vec3 { x : Q; y : Q; z : Q }.

Record BoundingBox := bbox { min : Vector3; max : Vector3 }.

Definition set_x (v : Vector3) (a : Q) : Vector3 := vec3 a v.(y) v.(z).
Definition set_y (v : Vector3) (a : Q) : Vector3 := vec3 v.(x) a v.(z).
Definition set_z (v : Vector3) (a : Q) : Vector3 := vec3 v.(x) v.(y) a.

(** ** raymath, the part that needs no square root *)

Definition Vector3Add (v1 v2 : Vector3) : Vector3 :=
  vec3 (v1.(x) + v2.(x)) (v1.(y) + v2.(y)) (v1.(z) + v2.(z)).

Definition Vector3Subtract (v1 v2 : Vector3) : Vector3 :=
  vec3 (v1.(x) - v2.(x)) (v1.(y) - v2.(y)) (v1.(z) - v2.(z)).

Definition Vector3Scale (v : Vector3) (scalar : Q) : Vector3 :=
  vec3 (v.(x) * scalar) (v.(y) * scalar) (v.(z) * scalar).

Definition Vector3CrossProduct (v1 v2 : Vector3) : Vector3 :=
  vec3 (v1.(y) * v2.(z) - v1.(z) * v2.(y))
       (v1.(z) * v2.(x) - v1.(x) * v2.(z))
       (v1.(x) * v2.(y) - v1.(y) * v2.(x)).

(** ** Player and obstacles ([struct Player], [struct CollisionBox]) *)

Record Player := mkPlayer {
  position : Vector3;
  velocity : Vector3;
  yaw : Q;
  pitch : Q;
  height : Q;          (* player eye height *)
  radius : Q;          (* collision radius *)
  isGrounded : bool;
  noclipMode : bool
}.

(** The colours of a [CollisionBox] only reach the renderer. *)
Record CollisionBox := mkBox {
  box_position : Vector3;   (* centre *)
  box_size : Vector3        (* full size: width, height, depth *)
}.

Definition set_position (p : Player) (v : Vector3) : Player :=
  mkPlayer v p.(velocity) p.(yaw) p.(pitch) p.(height) p.(radius)
           p.(isGrounded) p.(noclipMode).
Definition set_velocity (p : Player) (v : Vector3) : Player :=
  mkPlayer p.(position) v p.(yaw) p.(pitch) p.(height) p.(radius)
           p.(isGrounded) p.(noclipMode).
Definition set_yaw (p : Player) (a : Q) : Player :=
  mkPlayer p.(position) p.(velocity) a p.(pitch) p.(height) p.(radius)
           p.(isGrounded) p.(noclipMode).
Definition set_pitch (p : Player) (a : Q) : Player :=
  mkPlayer p.(position) p.(velocity) p.(yaw) a p.(height) p.(radius)
           p.(isGrounded) p.(noclipMode).
Definition set_isGrounded (p : Player) (b : bool) : Player :=
  mkPlayer p.(position) p.(velocity) p.(yaw) p.(pitch) p.(height) p.(radius)
           b p.(noclipMode).
Definition set_noclipMode (p : Player) (b : bool) : Player :=
  mkPlayer p.(position) p.(velocity) p.(yaw) p.(pitch) p.(height) p.(radius)
           p.(isGrounded) b.

(** ** One frame of input *)

Inductive KeyboardKey :=
  | KEY_W | KEY_S | KEY_A | KEY_D
  | KEY_SPACE | KEY_LEFT_SHIFT | KEY_LEFT_CONTROL | KEY_V.

Record Frame := mkFrame {
  GetFrameTime : Q;
  GetMouseDelta : Vector2;
  IsKeyDown : KeyboardKey -> bool;
  IsKeyPressed : KeyboardKey -> bool
}.

(** ** Physics constants *)

Definition GRAVITY : Q := 20.
Definition JUMP_FORCE : Q := 8.
Definition GROUND_LEVEL : Q := 0.

(** ** Collision against one box *)

Definition GetBoxBounds (box : CollisionBox) : BoundingBox :=
  bbox
    (vec3 (box.(box_position).(x) - box.(box_size).(x) / 2)
          (box.(box_position).(y) - box.(box_size).(y) / 2)
          (box.(box_position).(z) - box.(box_size).(z) / 2))
    (vec3 (box.(box_position).(x) + box.(box_size).(x) / 2)
          (box.(box_position).(y) + box.(box_size).(y) / 2)
          (box.(box_position).(z) + box.(box_size).(z) / 2)).

Definition ShouldApplyHorizontalCollision
    (playerPos : Vector3) (radius height : Q) (box : CollisionBox) : bool :=
  let boxBounds := GetBoxBounds box in
  (* first check if there is any horizontal overlap *)
  let horizontalOverlap :=
    (playerPos.(x) + radius >? boxBounds.(min).(x)) &&
    (playerPos.(x) - radius <? boxBounds.(max).(x)) &&
    (playerPos.(z) + radius >? boxBounds.(min).(z)) &&
    (playerPos.(z) - radius <? boxBounds.(max).(z)) in
  if negb horizontalOverlap then false else
  (* player's feet position *)
  let feetY := playerPos.(y) - height in
  (* feet at or above the box top: standing on it *)
  if feetY >=? boxBounds.(max).(y) - 0.1 then false else
  (* head below the box bottom *)
  if playerPos.(y) <? boxBounds.(min).(y) then false else
  true.

Definition ResolveCollision
    (playerPos : Vector3) (radius height : Q) (box : CollisionBox) : Vector3 :=
  let boxBounds := GetBoxBounds box in
  (* overlap on each axis *)
  let overlapX1 := (playerPos.(x) + radius) - boxBounds.(min).(x) in
  let overlapX2 := boxBounds.(max).(x) - (playerPos.(x) - radius) in
  let overlapZ1 := (playerPos.(z) + radius) - boxBounds.(min).(z) in
  let overlapZ2 := boxBounds.(max).(z) - (playerPos.(z) - radius) in
  (* minimum overlap *)
  let minOverlapX := if overlapX1 <? overlapX2 then - overlapX1 else overlapX2 in
  let minOverlapZ := if overlapZ1 <? overlapZ2 then - overlapZ1 else overlapZ2 in
  (* push out on the axis with the smallest overlap *)
  if fabsf minOverlapX <? fabsf minOverlapZ
  then set_x playerPos (playerPos.(x) + minOverlapX)
  else set_z playerPos (playerPos.(z) + minOverlapZ).

(** [CheckPlayerBoxCollision] (lines 186-192) wraps raylib's
    [CheckCollisionBoxes] around the player's box.  Neither per-frame
    update calls it: the push-out is decided by
    [ShouldApplyHorizontalCollision] alone. *)
Section Raylib.

Variable CheckCollisionBoxes : BoundingBox -> BoundingBox -> bool.

Definition CheckPlayerBoxCollision
    (playerPos : Vector3) (radius height : Q) (box : CollisionBox) : bool :=
  let playerBox :=
    bbox (vec3 (playerPos.(x) - radius) (playerPos.(y) - height)
               (playerPos.(z) - radius))
         (vec3 (playerPos.(x) + radius) playerPos.(y)
               (playerPos.(z) + radius)) in
  CheckCollisionBoxes playerBox (GetBoxBounds box).

End Raylib.

(** ** Look update, shared between the two modes *)

Definition UpdateCameraLook
    (player : Player) (mouseSensitivity : Q) (frame : Frame) : Player :=
  let mouseDelta := GetMouseDelta frame in
  let player := set_yaw player (player.(yaw) + mouseDelta.(x2) * mouseSensitivity) in
  let player := set_pitch player (player.(pitch) - mouseDelta.(y2) * mouseSensitivity) in
  (* clamp pitch to prevent camera flip *)
  let player := if player.(pitch) >? 89 then set_pitch player 89 else player in
  let player := if player.(pitch) <? -89 then set_pitch player (-89) else player in
  player.

(** ** The walking loops over the obstacle list *)

(** Lines 355-359: each box in list order may push the candidate once. *)
Definition HorizontalCollisions
    (colliders : list CollisionBox) (radius height : Q) (newPos : Vector3)
    : Vector3 :=
  fold_left
    (fun newPos box =>
       if ShouldApplyHorizontalCollision newPos radius height box
       then ResolveCollision newPos radius height box
       else newPos)
    colliders newPos.

(** Body of the loop of lines 375-392 on the pair [(foundGround, groundY)]. *)
Definition StandOnBox
    (newPos : Vector3) (radius height velocityY : Q)
    (ground : bool * Q) (box : CollisionBox) : bool * Q :=
  let '(foundGround, groundY) := ground in
  let bounds := GetBoxBounds box in
  (* player above the box horizontally *)
  if (newPos.(x) + radius >? bounds.(min).(x)) &&
     (newPos.(x) - radius <? bounds.(max).(x)) &&
     (newPos.(z) + radius >? bounds.(min).(z)) &&
     (newPos.(z) - radius <? bounds.(max).(z))
  then
    (* feet at or below the box top, with tolerance *)
    let feetY := newPos.(y) - height in
    if (feetY <=? bounds.(max).(y) + 0.05) && (feetY >=? bounds.(max).(y) - 0.5)
    then
      (* only when falling or stationary vertically *)
      if velocityY <=? 0.01
      then
        let groundY := if bounds.(max).(y) >? groundY then bounds.(max).(y) else groundY in
        (true, groundY)
      else (foundGround, groundY)
    else (foundGround, groundY)
  else (foundGround, groundY).

(** Lines 364-392: the plane first, then every box. *)
Definition FindGround
    (colliders : list CollisionBox) (newPos : Vector3)
    (radius height velocityY : Q) : bool * Q :=
  let foundGround := false in
  let groundY := GROUND_LEVEL in
  let ground :=
    if newPos.(y) - height <=? GROUND_LEVEL + 0.05
    then (true, GROUND_LEVEL)
    else (foundGround, groundY) in
  fold_left (StandOnBox newPos radius height velocityY) colliders ground.

(** The candidate position of the walking update after the push-outs and
    the vertical move of lines 350-362, before grounding. *)
Definition WalkCandidate
    (player : Player) (colliders : list CollisionBox) (deltaTime : Q)
    : Vector3 :=
  let newPos := player.(position) in
  let newPos := set_x newPos (newPos.(x) + player.(velocity).(x) * deltaTime) in
  let newPos := set_z newPos (newPos.(z) + player.(velocity).(z) * deltaTime) in
  let newPos := HorizontalCollisions colliders player.(radius) player.(height) newPos in
  set_y newPos (newPos.(y) + player.(velocity).(y) * deltaTime).

(** The two settings the controller reads ([struct GameSettings]). *)
Record GameSettings := mkSettings {
  mouseSensitivity : Q;
  moveSpeed : Q
}.

Module Controller.

Section Libm.

(** libm and raylib's degree-to-radian factor *)
Variables sqrtf cosf sinf : Q -> Q.
Variable DEG2RAD : Q.

(** *** raymath, the part that needs the square root *)

Definition Vector3Length (v : Vector3) : Q :=
  sqrtf (v.(x) * v.(x) + v.(y) * v.(y) + v.(z) * v.(z)).

Definition Vector3Normalize (v : Vector3) : Vector3 :=
  let length := sqrtf (v.(x) * v.(x) + v.(y) * v.(y) + v.(z) * v.(z)) in
  if length !=? 0
  then
    let ilength := 1 / length in
    vec3 (v.(x) * ilength) (v.(y) * ilength) (v.(z) * ilength)
  else v.

(** *** Directions from the player's angles *)

Definition GetForwardDirection (player : Player) : Vector3 :=
  Vector3Normalize
    (vec3 (cosf (DEG2RAD * player.(yaw)) * cosf (DEG2RAD * player.(pitch)))
          (sinf (DEG2RAD * player.(pitch)))
          (sinf (DEG2RAD * player.(yaw)) * cosf (DEG2RAD * player.(pitch)))).

Definition GetFlatForwardDirection (player : Player) : Vector3 :=
  Vector3Normalize
    (vec3 (cosf (DEG2RAD * player.(yaw))) 0 (sinf (DEG2RAD * player.(yaw)))).

(** *** Noclip controller (flying mode) *)

Definition UpdateNoclipMode
    (player : Player) (moveSpeed mouseSensitivity : Q) (frame : Frame)
    : Player :=
  let deltaTime := GetFrameTime frame in
  let player := UpdateCameraLook player mouseSensitivity frame in
  let forward := GetForwardDirection player in
  let right := Vector3Normalize (Vector3CrossProduct forward (vec3 0 1 0)) in
  let up := vec3 0 1 0 in
  let moveDir := vec3 0 0 0 in
  let moveDir := if IsKeyDown frame KEY_W then Vector3Add moveDir forward else moveDir in
  let moveDir := if IsKeyDown frame KEY_S then Vector3Subtract moveDir forward else moveDir in
  let moveDir := if IsKeyDown frame KEY_A then Vector3Subtract moveDir right else moveDir in
  let moveDir := if IsKeyDown frame KEY_D then Vector3Add moveDir right else moveDir in
  let moveDir := if IsKeyDown frame KEY_SPACE then Vector3Add moveDir up else moveDir in
  let moveDir := if IsKeyDown frame KEY_LEFT_SHIFT then Vector3Subtract moveDir up else moveDir in
  let currentSpeed := moveSpeed in
  let currentSpeed :=
    if IsKeyDown frame KEY_LEFT_CONTROL then currentSpeed * 2.5 else currentSpeed in
  let moveDir :=
    if Vector3Length moveDir >? 0
    then Vector3Scale (Vector3Normalize moveDir) (currentSpeed * deltaTime)
    else moveDir in
  let player := set_position player (Vector3Add player.(position) moveDir) in
  let player := set_velocity player (vec3 0 0 0) in
  let player := set_isGrounded player false in
  player.

(** *** Walking mode with gravity and collision *)

(** Lines 312-347: look, horizontal intent, gravity, jump. *)
Definition WalkImpulses
    (player : Player) (moveSpeed mouseSensitivity : Q) (frame : Frame)
    : Player :=
  let deltaTime := GetFrameTime frame in
  let player := UpdateCameraLook player mouseSensitivity frame in
  let forward := GetFlatForwardDirection player in
  let right := Vector3Normalize (Vector3CrossProduct forward (vec3 0 1 0)) in
  (* horizontal movement input *)
  let moveDir := vec3 0 0 0 in
  let moveDir := if IsKeyDown frame KEY_W then Vector3Add moveDir forward else moveDir in
  let moveDir := if IsKeyDown frame KEY_S then Vector3Subtract moveDir forward else moveDir in
  let moveDir := if IsKeyDown frame KEY_A then Vector3Subtract moveDir right else moveDir in
  let moveDir := if IsKeyDown frame KEY_D then Vector3Add moveDir right else moveDir in
  let currentSpeed := moveSpeed in
  let currentSpeed :=
    if IsKeyDown frame KEY_LEFT_CONTROL then currentSpeed * 2 else currentSpeed in
  let moveDir :=
    if Vector3Length moveDir >? 0 then Vector3Normalize moveDir else moveDir in
  (* apply horizontal velocity *)
  let player := set_velocity player (set_x player.(velocity) (moveDir.(x) * currentSpeed)) in
  let player := set_velocity player (set_z player.(velocity) (moveDir.(z) * currentSpeed)) in
  (* apply gravity *)
  let player :=
    if negb player.(isGrounded)
    then set_velocity player
           (set_y player.(velocity) (player.(velocity).(y) - GRAVITY * deltaTime))
    else player in
  (* jump *)
  let player :=
    if IsKeyPressed frame KEY_SPACE && player.(isGrounded)
    then set_isGrounded
           (set_velocity player (set_y player.(velocity) JUMP_FORCE)) false
    else player in
  player.

(** Lines 349-403: candidate position, push-out, vertical move, grounding. *)
Definition WalkMove
    (player : Player) (colliders : list CollisionBox) (deltaTime : Q)
    : Player :=
  (* calculate new position *)
  let newPos := player.(position) in
  let newPos := set_x newPos (newPos.(x) + player.(velocity).(x) * deltaTime) in
  let newPos := set_z newPos (newPos.(z) + player.(velocity).(z) * deltaTime) in
  (* horizontal collisions *)
  let newPos := HorizontalCollisions colliders player.(radius) player.(height) newPos in
  (* apply vertical movement *)
  let newPos := set_y newPos (newPos.(y) + player.(velocity).(y) * deltaTime) in
  (* ground below? *)
  let '(foundGround, groundY) :=
    FindGround colliders newPos player.(radius) player.(height)
               player.(velocity).(y) in
  (* apply ground detection *)
  if foundGround && (player.(velocity).(y) <=? 0.01)
  then
    let newPos := set_y newPos (groundY + player.(height)) in
    let player := set_velocity player (set_y player.(velocity) 0) in
    let player := set_isGrounded player true in
    set_position player newPos
  else
    let player := set_isGrounded player false in
    set_position player newPos.

Definition UpdateWalkingMode
    (player : Player) (moveSpeed mouseSensitivity : Q)
    (colliders : list CollisionBox) (frame : Frame) : Player :=
  WalkMove (WalkImpulses player moveSpeed mouseSensitivity frame)
           colliders (GetFrameTime frame).

(** *** The player part of the game loop (lines 538-553) *)


Definition UpdatePlayer
    (player : Player) (settings : GameSettings)
    (colliders : list CollisionBox) (frame : Frame) : Player :=
  (* toggle noclip with V *)
  let player :=
    if IsKeyPressed frame KEY_V
    then
      let player := set_noclipMode player (negb player.(noclipMode)) in
      if negb player.(noclipMode)
      then set_velocity player (set_y player.(velocity) 0)
      else player
    else player in
  (* update player based on mode *)
  if player.(noclipMode)
  then UpdateNoclipMode player (settings.(moveSpeed) * 1.5)
                        settings.(mouseSensitivity) frame
  else UpdateWalkingMode player settings.(moveSpeed)
                         settings.(mouseSensitivity) colliders frame.

(** Several frames in a row, walking. *)
Fixpoint WalkFrames
    (player : Player) (moveSpeed mouseSensitivity : Q)
    (colliders : list CollisionBox) (frames : list Frame) : Player :=
  match frames with
  | [] => player
  | frame :: rest =>
      WalkFrames
        (UpdateWalkingMode player moveSpeed mouseSensitivity colliders frame)
        moveSpeed mouseSensitivity colliders rest
  end.

End Libm.

End Controller.

(** ** Scene and start-up values of [main] *)

(** The main centre cube: centre (0,1,0), size (2,2,2). *)
Definition centerCube : CollisionBox := mkBox (vec3 0 1 0) (vec3 2 2 2).

(** The player as [main] creates it. *)
Definition initialPlayer : Player :=
  mkPlayer (vec3 0 1.8 10) (vec3 0 0 0) (-90) 0 1.8 0.3 false false.

Definition defaultSettings : GameSettings := mkSettings 0.1 7.

(** ** Stand-ins for libm in the worked examples

    The examples below run the controller on concrete frames.  They feed
    angles in degrees ([DEG2RAD] is 1) to a cosine and a sine that are
    exact at every multiple of 90 degrees, and use a square root that is
    exact on squares of fractions; no other argument occurs in them. *)

Module Exact.
Definition quarter (a : Q) : Z := ((Qfloor (a / 90)) mod 4)%Z.

Definition cosf (a : Q) : Q :=
  match quarter a with
  | 0%Z => 1
  | 2%Z => -1
  | _ => 0
  end.

Definition sinf (a : Q) : Q :=
  match quarter a with
  | 1%Z => 1
  | 3%Z => -1
  | _ => 0
  end.

Definition sqrtf (a : Q) : Q :=
  let a := Qred a in
  Z.sqrt (Qnum a) # Pos.sqrt (Qden a).

Definition DEG2RAD : Q := 1.

Definition UpdateWalkingMode := Controller.UpdateWalkingMode sqrtf cosf sinf DEG2RAD.
Definition UpdateNoclipMode := Controller.UpdateNoclipMode sqrtf cosf sinf DEG2RAD.
Definition WalkImpulses := Controller.WalkImpulses sqrtf cosf sinf DEG2RAD.
Definition WalkFrames := Controller.WalkFrames sqrtf cosf sinf DEG2RAD.

(** No key held, no mouse motion. *)
Definition idle (dt : Q) : Frame :=
  mkFrame dt (vec2 0 0) (fun _ => false) (fun _ => false).

(** [W] held. *)
Definition forwardKey (dt : Q) : Frame :=
  mkFrame dt (vec2 0 0)
          (fun k => match k with KEY_W => true | _ => false end)
          (fun _ => false).

(** Space pressed on this frame. *)
Definition jumpKey (dt : Q) : Frame :=
  mkFrame dt (vec2 0 0)
          (fun k => match k with KEY_SPACE => true | _ => false end)
          (fun k => match k with KEY_SPACE => true | _ => false end).

(** A walker at x = +5, y = 1, z = 0 that faces -x (yaw 180 degrees),
    with the height and radius of [main]. *)
Definition approaching : Player :=
  mkPlayer (vec3 5 1 0) (vec3 0 0 0) 180 0 1.8 0.3 false false.

(** A walker standing on the plane, just touching the +x face of the
    centre cube, facing -x. *)
Definition atFace : Player :=
  mkPlayer (vec3 1.3 1.8 0) (vec3 0 0 0) 180 0 1.8 0.3 true false.

(** A walker standing at rest on the plane where [main] starts. *)
Definition standing : Player :=
  mkPlayer (vec3 0 1.8 10) (vec3 0 0 0) (-90) 0 1.8 0.3 true false.

(** A player dropped from 1.2 above the plane. *)
Definition dropped : Player :=
  mkPlayer (vec3 0 3 10) (vec3 0 0 0) (-90) 0 1.8 0.3 false false.

End Exact.

(** ** The specification's wording of the collision rules *)

(** "The player's projected AABB overlaps the obstacle's bounds": half
    extent [radius] in X and Z around the candidate position. *)
Definition OverlapsHorizontally
    (pos : Vector3) (radius : Q) (box : CollisionBox) : Prop :=
  let b := GetBoxBounds box in
  b.(min).(x) < pos.(x) + radius /\ pos.(x) - radius < b.(max).(x) /\
  b.(min).(z) < pos.(z) + radius /\ pos.(z) - radius < b.(max).(z).

(** "Overlaps, and the feet are below the obstacle's top minus 0.1, and
    the head is not below the obstacle's bottom." *)
Definition HorizontalCollisionSpec
    (pos : Vector3) (radius height : Q) (box : CollisionBox) : Prop :=
  let b := GetBoxBounds box in
  OverlapsHorizontally pos radius box /\
  pos.(y) - height < b.(max).(y) - 0.1 /\
  ~ pos.(y) < b.(min).(y).

(** "The signed overlap on one axis": the push toward the low side is
    the negated near-side distance, the push toward the high side the
    far-side distance; the smaller distance wins, the far side on a tie. *)
Definition SignedOverlapSpec (lo hi c radius : Q) : Q :=
  let near := (c + radius) - lo in
  let far := hi - (c - radius) in
  if Qlt_le_dec near far then - near else far.

(** The player's AABB touches a vertical face of the box exactly. *)
Definition TouchesFace
    (pos : Vector3) (radius : Q) (box : CollisionBox) : Prop :=
  let b := GetBoxBounds box in
  pos.(x) - radius == b.(max).(x) \/ pos.(x) + radius == b.(min).(x) \/
  pos.(z) - radius == b.(max).(z) \/ pos.(z) + radius == b.(min).(z).

(** The standing exception for the centre cube with a given threshold on
    the height of the feet: at or above it, the cube does not push. *)
Definition StandingExceptionAt (threshold : Q) : Prop :=
  forall (pos : Vector3) (radius height : Q),
    threshold <= pos.(y) - height ->
    HorizontalCollisions [centerCube] radius height pos = pos.


(** ** The specification's wording of the grounding rule *)

(** "The player's feet lie within a band from (obstacle top - 0.5) to
    (obstacle top + 0.05)." *)
Definition FeetInBand (newPos : Vector3) (height : Q) (box : CollisionBox)
    : Prop :=
  let top := (GetBoxBounds box).(max).(y) in
  top - 0.5 <= newPos.(y) - height /\ newPos.(y) - height <= top + 0.05.

(** An obstacle is standable ground: its footprint, widened by the
    radius, contains the candidate position and the feet are in the band. *)
Definition Standable
    (newPos : Vector3) (radius height : Q) (box : CollisionBox) : Prop :=
  OverlapsHorizontally newPos radius box /\ FeetInBand newPos height box.

(** The plane at height 0 is ground when the feet are at most 0.05 above it. *)
Definition PlaneQualifies (newPos : Vector3) (height : Q) : Prop :=
  newPos.(y) - height <= GROUND_LEVEL + 0.05.

(** The heights of the qualifying surfaces: the plane and the tops of the
    standable obstacles of the list. *)
Definition QualifyingSurface
    (colliders : list CollisionBox) (newPos : Vector3) (radius height : Q)
    (s : Q) : Prop :=
  (PlaneQualifies newPos height /\ s = GROUND_LEVEL) \/
  (exists box, In box colliders /\ Standable newPos radius height box /\
               s = (GetBoxBounds box).(max).(y)).

(** "Among all qualifying surfaces the highest wins." *)
Definition HighestQualifying
    (colliders : list CollisionBox) (newPos : Vector3) (radius height : Q)
    (g : Q) : Prop :=
  QualifyingSurface colliders newPos radius height g /\
  forall s, QualifyingSurface colliders newPos radius height s -> s <= g.


(** The candidate position before the push-outs (lines 350-352). *)
Definition WalkStart (player : Player) (deltaTime : Q) : Vector3 :=
  vec3 (player.(position).(x) + player.(velocity).(x) * deltaTime)
       player.(position).(y)
       (player.(position).(z) + player.(velocity).(z) * deltaTime).

(** ** The specification's scenarios, frame by frame *)

Section Scenarios.

Variables sqrtf cosf sinf : Q -> Q.
Variable DEG2RAD : Q.
Variables moveSpeed mouseSensitivity : Q.

Local Abbreviation Impulses p f :=
  (Controller.WalkImpulses sqrtf cosf sinf DEG2RAD p moveSpeed mouseSensitivity f).
Local Abbreviation Walk p cs f :=
  (Controller.UpdateWalkingMode sqrtf cosf sinf DEG2RAD p moveSpeed
     mouseSensitivity cs f).

(** Free fall over the bare plane: every frame either stays airborne,
    with the vertical velocity lowered by exactly [GRAVITY * dt] and the
    position moved by that velocity, or is the landing frame, on which
    the feet have come within 0.05 of the plane and the player ends
    grounded, at rest vertically, with the feet on the plane. *)
Fixpoint FreeFallTrace (player : Player) (frames : list Frame) : Prop :=
  match frames with
  | [] => True
  | frame :: rest =>
      let dt := GetFrameTime frame in
      let vy := player.(velocity).(y) - GRAVITY * dt in
      let feet := player.(position).(y) + vy * dt - player.(height) in
      let next := Walk player [] frame in
      (GROUND_LEVEL + 0.05 < feet /\
       next.(isGrounded) = false /\
       next.(velocity).(y) = vy /\
       next.(position).(y) = player.(position).(y) + vy * dt /\
       FreeFallTrace next rest)
      \/
      (feet <= GROUND_LEVEL + 0.05 /\
       next.(isGrounded) = true /\
       next.(velocity).(y) = 0 /\
       next.(position).(y) == player.(height))
  end.

(** The +x face of the centre cube, widened by the player's radius. *)
Definition faceX (player : Player) : Q :=
  (GetBoxBounds centerCube).(max).(x) + player.(radius).

(** The player is at mid-height against the centre cube: feet below its
    top minus 0.1, head not below its bottom. *)
Definition AtMidHeight (player : Player) : Prop :=
  player.(position).(y) - player.(height)
    < (GetBoxBounds centerCube).(max).(y) - 0.1 /\
  (GetBoxBounds centerCube).(min).(y) <= player.(position).(y).

(** This frame the player moves toward -x only. *)
Definition MovesTowardMinusX (player : Player) (frame : Frame) : Prop :=
  (Impulses player frame).(velocity).(x) <= 0 /\
  (Impulses player frame).(velocity).(z) == 0.

(** Contact: the candidate position of this frame collides horizontally
    with the centre cube. *)
Definition Contact (player : Player) (frame : Frame) : Prop :=
  ShouldApplyHorizontalCollision
    (WalkStart (Impulses player frame) (GetFrameTime frame))
    player.(radius) player.(height) centerCube = true.

(** The clamp as a one-frame rule without further conditions: from the
    +x side, at mid-height, moving toward -x, a frame with contact ends
    at or beyond the widened face. *)
Definition ClampsOnContact : Prop :=
  forall (player : Player) (frame : Frame),
    AtMidHeight player ->
    faceX player <= player.(position).(x) ->
    MovesTowardMinusX player frame ->
    Contact player frame ->
    faceX player <= (Walk player [centerCube] frame).(position).(x).

End Scenarios.


(** ** The move intent of the walking update, and frames that differ in one key *)

(** The same frame with the jump key pressed or not pressed. *)
Definition WithJumpPressed (frame : Frame) (pressed : bool) : Frame :=
  mkFrame (GetFrameTime frame) (GetMouseDelta frame) (IsKeyDown frame)
          (fun k => match k with
                    | KEY_SPACE => pressed
                    | _ => IsKeyPressed frame k
                    end).

(** The player with another horizontal velocity. *)
Definition WithHorizontalVelocity (player : Player) (vx vz : Q) : Player :=
  set_velocity player (vec3 vx player.(velocity).(y) vz).

(** Opposite movement keys are both held or both released. *)
Definition KeysCancel (frame : Frame) : Prop :=
  IsKeyDown frame KEY_W = IsKeyDown frame KEY_S /\
  IsKeyDown frame KEY_A = IsKeyDown frame KEY_D.

Module Intent.

Section Libm.

Variables sqrtf cosf sinf : Q -> Q.
Variable DEG2RAD : Q.

(** Lines 314-325 of [UpdateWalkingMode]: the sum of the held
    directions, before it is normalized. *)
Definition WalkMoveDir
    (player : Player) (mouseSensitivity : Q) (frame : Frame) : Vector3 :=
  let player := UpdateCameraLook player mouseSensitivity frame in
  let forward := Controller.GetFlatForwardDirection sqrtf cosf sinf DEG2RAD player in
  let right :=
    Controller.Vector3Normalize sqrtf
      (Vector3CrossProduct forward (vec3 0 1 0)) in
  let moveDir := vec3 0 0 0 in
  let moveDir := if IsKeyDown frame KEY_W then Vector3Add moveDir forward else moveDir in
  let moveDir := if IsKeyDown frame KEY_S then Vector3Subtract moveDir forward else moveDir in
  let moveDir := if IsKeyDown frame KEY_A then Vector3Subtract moveDir right else moveDir in
  let moveDir := if IsKeyDown frame KEY_D then Vector3Add moveDir right else moveDir in
  moveDir.

(** Lines 327-328: the speed, doubled while Ctrl is held. *)
Definition WalkSpeed (moveSpeed : Q) (frame : Frame) : Q :=
  let currentSpeed := moveSpeed in
  if IsKeyDown frame KEY_LEFT_CONTROL then currentSpeed * 2 else currentSpeed.

(** Lines 330-332: the intent, normalized when its length is positive. *)
Definition WalkDirection
    (player : Player) (mouseSensitivity : Q) (frame : Frame) : Vector3 :=
  let moveDir := WalkMoveDir player mouseSensitivity frame in
  if Controller.Vector3Length sqrtf moveDir >? 0
  then Controller.Vector3Normalize sqrtf moveDir
  else moveDir.

End Libm.

End Intent.


(** Several frames of the player part of the game loop. *)
Fixpoint PlayFrames
    (sqrtf cosf sinf : Q -> Q) (DEG2RAD : Q)
    (player : Player) (settings : GameSettings)
    (colliders : list CollisionBox) (frames : list Frame) : Player :=
  match frames with
  | [] => player
  | frame :: rest =>
      PlayFrames sqrtf cosf sinf DEG2RAD
        (Controller.UpdatePlayer sqrtf cosf sinf DEG2RAD
           player settings colliders frame)
        settings colliders rest
  end.


(** ** Performance monitoring ([struct PerformanceStats], lines 31-89)

    The deque of frame times is a list, oldest first.  [frameCount] is a
    C++ [int]; the model counts in [Z] (an overflow would be undefined
    behaviour in the source). *)

Module Perf.

Definition HISTORY_SIZE : nat := 120.

Record PerformanceStats := mkStats {
  frameTimeHistory : list Q;
  currentFPS : Q;
  avgFPS : Q;
  minFPS : Q;
  maxFPS : Q;
  currentFrameTime : Q;   (* in ms *)
  avgFrameTime : Q;
  minFrameTime : Q;
  maxFrameTime : Q;
  frameCount : Z;
  totalTime : Q;
  drawCalls : Z;
  collisionChecks : Z
}.

(** Body of the loop of lines 67-71 on [(sum, minFrameTime, maxFrameTime)]. *)
Definition Accumulate (acc : Q * Q * Q) (ft : Q) : Q * Q * Q :=
  let '(sum, minFrameTime, maxFrameTime) := acc in
  let sum := sum + ft in
  let minFrameTime := if ft <? minFrameTime then ft else minFrameTime in
  let maxFrameTime := if ft >? maxFrameTime then ft else maxFrameTime in
  (sum, minFrameTime, maxFrameTime).

(** [Update], with the frame time that [GetFrameTime] returns. *)
Definition Update (stats : PerformanceStats) (dt : Q) : PerformanceStats :=
  let currentFrameTime := dt * 1000 in
  let currentFPS := if dt >? 0 then 1 / dt else 0 in
  (* push_back, then pop_front when over the size *)
  let history := stats.(frameTimeHistory) ++ [currentFrameTime] in
  let history :=
    if Nat.ltb HISTORY_SIZE (length history) then tl history else history in
  (* stats from the history *)
  let '(avgFrameTime, minFrameTime, maxFrameTime, avgFPS, minFPS, maxFPS) :=
    match history with
    | [] =>
        (stats.(avgFrameTime), stats.(minFrameTime), stats.(maxFrameTime),
         stats.(avgFPS), stats.(minFPS), stats.(maxFPS))
    | _ :: _ =>
        let '(sum, minFrameTime, maxFrameTime) :=
          fold_left Accumulate history (0, 9999, 0) in
        let avgFrameTime := sum / inject_Z (Z.of_nat (length history)) in
        let avgFPS := if avgFrameTime >? 0 then 1000 / avgFrameTime else 0 in
        let minFPS := if maxFrameTime >? 0 then 1000 / maxFrameTime else 0 in
        let maxFPS := if minFrameTime >? 0 then 1000 / minFrameTime else 0 in
        (avgFrameTime, minFrameTime, maxFrameTime, avgFPS, minFPS, maxFPS)
    end in
  mkStats history currentFPS avgFPS minFPS maxFPS
          currentFrameTime avgFrameTime minFrameTime maxFrameTime
          (stats.(frameCount) + 1) (stats.(totalTime) + dt)
          stats.(drawCalls) stats.(collisionChecks).

Definition Reset (stats : PerformanceStats) : PerformanceStats :=
  mkStats [] stats.(currentFPS) stats.(avgFPS) stats.(minFPS) stats.(maxFPS)
          stats.(currentFrameTime) stats.(avgFrameTime)
          stats.(minFrameTime) stats.(maxFrameTime)
          0 0 stats.(drawCalls) 0.

(** One [Update] per frame, in order. *)
Definition UpdateAll (stats : PerformanceStats) (dts : list Q)
    : PerformanceStats :=
  fold_left Update dts stats.

(** The last [n] elements of a list. *)
Definition lastn {A : Type} (n : nat) (l : list A) : list A :=
  skipn (length l - n) l.

(** [PerformanceStats perfStats = {}] of [main]. *)
Definition zero : PerformanceStats := mkStats [] 0 0 0 0 0 0 0 0 0 0 0 0.

End Perf.

(** ** The twin of [shader_test.cpp] ([struct PerfStats], lines 13-41) *)

Module ShaderPerf.

Definition SIZE : nat := 120.

Record PerfStats := mkStats {
  history : list Q;
  fps : Q;
  avgFps : Q;
  minFps : Q;
  maxFps : Q;
  ms : Q;
  avgMs : Q;
  minMs : Q;
  maxMs : Q;
  frames : Z
}.

(** Body of the loop of lines 29-33 on [(sum, minMs, maxMs)]. *)
Definition Accumulate (acc : Q * Q * Q) (f : Q) : Q * Q * Q :=
  let '(sum, minMs, maxMs) := acc in
  let sum := sum + f in
  let minMs := if f <? minMs then f else minMs in
  let maxMs := if f >? maxMs then f else maxMs in
  (sum, minMs, maxMs).

Definition Update (stats : PerfStats) (dt : Q) : PerfStats :=
  let ms := dt * 1000 in
  let fps := if dt >? 0 then 1 / dt else 0 in
  let history := stats.(history) ++ [ms] in
  let history := if Nat.ltb SIZE (length history) then tl history else history in
  let '(avgMs, minMs, maxMs, avgFps, minFps, maxFps) :=
    match history with
    | [] =>
        (stats.(avgMs), stats.(minMs), stats.(maxMs),
         stats.(avgFps), stats.(minFps), stats.(maxFps))
    | _ :: _ =>
        let '(sum, minMs, maxMs) :=
          fold_left Accumulate history (0, 9999, 0) in
        let avgMs := sum / inject_Z (Z.of_nat (length history)) in
        let avgFps := if avgMs >? 0 then 1000 / avgMs else 0 in
        let minFps := if maxMs >? 0 then 1000 / maxMs else 0 in
        let maxFps := if minMs >? 0 then 1000 / minMs else 0 in
        (avgMs, minMs, maxMs, avgFps, minFps, maxFps)
    end in
  mkStats history fps avgFps minFps maxFps ms avgMs minMs maxMs
          (stats.(frames) + 1).

(** The fields the two structures share. *)
Definition ofMain (s : Perf.PerformanceStats) : PerfStats :=
  mkStats s.(Perf.frameTimeHistory)
          s.(Perf.currentFPS) s.(Perf.avgFPS) s.(Perf.minFPS) s.(Perf.maxFPS)
          s.(Perf.currentFrameTime) s.(Perf.avgFrameTime)
          s.(Perf.minFrameTime) s.(Perf.maxFrameTime)
          s.(Perf.frameCount).

End ShaderPerf.


(** ** The frame-time graph of the debug overlay (lines 674-702)

    [(int)x] on a float truncates toward zero. *)

Module Graph.

Definition float_to_int (q : Q) : Z := Z.quot (Qnum q) (Zpos (Qden q)).

Inductive Color := GREEN | YELLOW | RED.

(** The arguments of one [DrawRectangle] call. *)
Record Rectangle := mkRectangle {
  posX : Z;
  posY : Z;
  width : Z;
  height : Z;
  color : Color
}.

Definition graphWidth : Z := 280.
Definition graphHeight : Z := 50.

(** Body of the loop of lines 685-701 for bar [i] with frame time [ft]. *)
Definition Bar (debugX debugY : Z) (i : Z) (ft : Q) : Rectangle :=
  let barWidth := inject_Z graphWidth / inject_Z (Z.of_nat Perf.HISTORY_SIZE) in
  let maxDisplayTime := 33.33 in
  let normalizedHeight := (ft / maxDisplayTime) * inject_Z graphHeight in
  let normalizedHeight :=
    if normalizedHeight >? inject_Z graphHeight
    then inject_Z graphHeight else normalizedHeight in
  let barColor := GREEN in
  let barColor := if ft >? 16.67 then YELLOW else barColor in
  let barColor := if ft >? 33.33 then RED else barColor in
  mkRectangle
    (debugX + float_to_int (inject_Z i * barWidth))
    (debugY + graphHeight - float_to_int normalizedHeight)
    (float_to_int barWidth + 1)
    (float_to_int normalizedHeight)
    barColor.

(** The loop from index [i] over the rest of the history. *)
Fixpoint BarsFrom (debugX debugY : Z) (i : Z) (history : list Q)
    : list Rectangle :=
  match history with
  | [] => []
  | ft :: rest => Bar debugX debugY i ft :: BarsFrom debugX debugY (i + 1) rest
  end.

(** Lines 680-702: nothing for an empty history, else one bar per entry. *)
Definition Bars (debugX debugY : Z) (history : list Q) : list Rectangle :=
  match history with
  | [] => []
  | _ :: _ => BarsFrom debugX debugY 0 history
  end.

(** A bar lies inside the graph rectangle drawn at [(debugX, debugY)]
    and stands on its lower edge. *)
Definition InsideGraph (debugX debugY : Z) (b : Rectangle) : Prop :=
  (debugX <= b.(posX) /\ b.(posX) + b.(width) <= debugX + graphWidth /\
   0 <= b.(height) <= graphHeight /\
   b.(posY) + b.(height) = debugY + graphHeight)%Z.

End Graph.

(** ** Window modes ([ApplyWindowMode], lines 92-150, and lines 507-523)

    raylib's window is not part of the repository.  It is modelled by
    the flags and the geometry that [ApplyWindowMode] reads and writes:
    [SetWindowState] sets a flag, [ClearWindowState] clears it,
    [ToggleFullscreen] flips the fullscreen flag that
    [IsWindowFullscreen] reads, [SetWindowSize] and [SetWindowPosition]
    store their arguments.  The monitor size is an input.  [int]
    division truncates toward zero. *)

Module Window.

Definition WINDOW_MODE_WINDOWED : Z := 0.
Definition WINDOW_MODE_BORDERLESS : Z := 1.
Definition WINDOW_MODE_EXCLUSIVE : Z := 2.

Inductive ConfigFlags :=
  | FLAG_WINDOW_UNDECORATED | FLAG_WINDOW_TOPMOST | FLAG_WINDOW_RESIZABLE.

Record State := mkState {
  fullscreen : bool;
  undecorated : bool;
  topmost : bool;
  resizable : bool;
  width : Z;
  height : Z;
  posX : Z;
  posY : Z
}.

Definition IsWindowFullscreen (w : State) : bool := w.(fullscreen).

Definition ToggleFullscreen (w : State) : State :=
  mkState (negb w.(fullscreen)) w.(undecorated) w.(topmost) w.(resizable)
          w.(width) w.(height) w.(posX) w.(posY).

Definition WriteFlag (w : State) (flag : ConfigFlags) (b : bool) : State :=
  match flag with
  | FLAG_WINDOW_UNDECORATED =>
      mkState w.(fullscreen) b w.(topmost) w.(resizable)
              w.(width) w.(height) w.(posX) w.(posY)
  | FLAG_WINDOW_TOPMOST =>
      mkState w.(fullscreen) w.(undecorated) b w.(resizable)
              w.(width) w.(height) w.(posX) w.(posY)
  | FLAG_WINDOW_RESIZABLE =>
      mkState w.(fullscreen) w.(undecorated) w.(topmost) b
              w.(width) w.(height) w.(posX) w.(posY)
  end.

Definition SetWindowState (w : State) (flag : ConfigFlags) : State :=
  WriteFlag w flag true.

Definition ClearWindowState (w : State) (flag : ConfigFlags) : State :=
  WriteFlag w flag false.

Definition SetWindowSize (w : State) (width height : Z) : State :=
  mkState w.(fullscreen) w.(undecorated) w.(topmost) w.(resizable)
          width height w.(posX) w.(posY).

Definition SetWindowPosition (w : State) (x y : Z) : State :=
  mkState w.(fullscreen) w.(undecorated) w.(topmost) w.(resizable)
          w.(width) w.(height) x y.

(** [ApplyWindowMode]; the log calls are left out. *)
Definition ApplyWindowMode
    (w : State) (monitorWidth monitorHeight : Z)
    (mode defaultWidth defaultHeight : Z) : State :=
  (* exit exclusive fullscreen if active *)
  let w := if IsWindowFullscreen w then ToggleFullscreen w else w in
  (* clear special window states *)
  let w := ClearWindowState w FLAG_WINDOW_UNDECORATED in
  let w := ClearWindowState w FLAG_WINDOW_TOPMOST in
  (* apply the requested mode *)
  if (mode =? WINDOW_MODE_WINDOWED)%Z then
    let w := SetWindowState w FLAG_WINDOW_RESIZABLE in
    let w := SetWindowSize w defaultWidth defaultHeight in
    SetWindowPosition w
      (Z.quot (monitorWidth - defaultWidth) 2)
      (Z.quot (monitorHeight - defaultHeight) 2)
  else if (mode =? WINDOW_MODE_BORDERLESS)%Z then
    let w := ClearWindowState w FLAG_WINDOW_RESIZABLE in
    let w := SetWindowSize w monitorWidth monitorHeight in
    let w := SetWindowPosition w 0 0 in
    let w := SetWindowState w FLAG_WINDOW_UNDECORATED in
    SetWindowState w FLAG_WINDOW_TOPMOST
  else if (mode =? WINDOW_MODE_EXCLUSIVE)%Z then
    let w := ClearWindowState w FLAG_WINDOW_RESIZABLE in
    ToggleFullscreen w
  else
    (* unknown mode: falling back to windowed *)
    let w := SetWindowState w FLAG_WINDOW_RESIZABLE in
    let w := SetWindowSize w defaultWidth defaultHeight in
    SetWindowPosition w
      (Z.quot (monitorWidth - defaultWidth) 2)
      (Z.quot (monitorHeight - defaultHeight) 2).

(** The window part of the game loop: the selected mode
    ([settings.windowMode]), the latch [appliedWindowMode], the window. *)
Record Loop := mkLoop {
  windowMode : Z;
  appliedWindowMode : Z;
  window : State
}.

(** Lines 510-523, with [IsKeyPressed(KEY_F11)] as [f11]. *)
Definition Step
    (st : Loop) (f11 : bool) (monitorWidth monitorHeight : Z)
    (defaultWidth defaultHeight : Z) : Loop :=
  (* F11 toggles between windowed and borderless *)
  let windowMode :=
    if f11
    then if (st.(windowMode) =? WINDOW_MODE_WINDOWED)%Z
         then WINDOW_MODE_BORDERLESS else WINDOW_MODE_WINDOWED
    else st.(windowMode) in
  (* apply window mode when it changes *)
  if negb (windowMode =? st.(appliedWindowMode))%Z
  then mkLoop windowMode windowMode
              (ApplyWindowMode st.(window) monitorWidth monitorHeight
                 windowMode defaultWidth defaultHeight)
  else mkLoop windowMode st.(appliedWindowMode) st.(window).

(** What a mode looks like: exclusive is fullscreen, borderless is
    undecorated and topmost, every other mode is a resizable window. *)
Definition Shows (w : State) (mode : Z) : Prop :=
  w.(fullscreen) = (mode =? WINDOW_MODE_EXCLUSIVE)%Z /\
  w.(undecorated) = (mode =? WINDOW_MODE_BORDERLESS)%Z /\
  w.(topmost) = (mode =? WINDOW_MODE_BORDERLESS)%Z /\
  w.(resizable) = negb ((mode =? WINDOW_MODE_BORDERLESS)
                        || (mode =? WINDOW_MODE_EXCLUSIVE))%Z.

End Window.


(** ** One iteration of the game loop: update (lines 525-566) and
    settings menu (lines 748-859)

    The cursor of raylib is modelled by one flag: [EnableCursor] shows
    the cursor, [DisableCursor] hides it, [IsCursorHidden] reads the
    flag.  Of the camera the position, the target and the field of view
    change in the loop.  The field of view is a parameter, since
    [GameSettings] above holds the two settings the controller reads.
    [Gui] holds what raygui reports while the menu is drawn; the sliders
    and the check box write to the settings only and are not part of
    the state. *)

Module Game.

Record Camera3D := mkCamera {
  cam_position : Vector3;
  cam_target : Vector3;
  cam_fovy : Q
}.

(** The keys the loop reads besides those of the controller. *)
Inductive UiKey := KEY_ESCAPE | KEY_TAB.

Record Input := mkInput {
  frame : Frame;
  IsUiKeyPressed : UiKey -> bool
}.

Record Gui := mkGui {
  GuiButtonResume : bool;    (* "Resume Game (ESC)" was clicked *)
  GuiButtonExit : bool;      (* "Exit Game" was clicked *)
  GuiDropdownBox : bool      (* the window-mode dropdown was clicked *)
}.

Record State := mkState {
  player : Player;
  camera : Camera3D;
  showSettingsMenu : bool;
  gameWasPaused : bool;
  cursorHidden : bool;
  windowModeDropdownOpen : bool
}.

Section Libm.

Variables sqrtf cosf sinf : Q -> Q.
Variable DEG2RAD : Q.

(** [UpdateCameraFromPlayer] (lines 407-411). *)
Definition UpdateCameraFromPlayer (camera : Camera3D) (player : Player)
    : Camera3D :=
  let forward := Controller.GetForwardDirection sqrtf cosf sinf DEG2RAD player in
  mkCamera player.(position) (Vector3Add player.(position) forward)
           camera.(cam_fovy).

Definition Update
    (st : State) (settings : GameSettings) (fov : Q)
    (colliders : list CollisionBox) (input : Input) : State :=
  (* toggle settings menu with Escape *)
  let st :=
    if IsUiKeyPressed input KEY_ESCAPE
    then
      let showSettingsMenu := negb st.(showSettingsMenu) in
      if showSettingsMenu
      then mkState st.(player) st.(camera) showSettingsMenu true false
                   st.(windowModeDropdownOpen)
      else mkState st.(player) st.(camera) showSettingsMenu false true
                   st.(windowModeDropdownOpen)
    else st in
  (* only update game if not in menu *)
  let st :=
    if negb st.(showSettingsMenu)
    then
      let player :=
        Controller.UpdatePlayer sqrtf cosf sinf DEG2RAD
          st.(player) settings colliders (frame input) in
      let camera := UpdateCameraFromPlayer st.(camera) player in
      (* toggle cursor lock with Tab *)
      let cursorHidden :=
        if IsUiKeyPressed input KEY_TAB
        then if st.(cursorHidden) then false else true
        else st.(cursorHidden) in
      mkState player camera st.(showSettingsMenu) st.(gameWasPaused)
              cursorHidden st.(windowModeDropdownOpen)
    else st in
  (* always update camera FOV *)
  let camera :=
    mkCamera st.(camera).(cam_position) st.(camera).(cam_target) fov in
  mkState st.(player) camera st.(showSettingsMenu) st.(gameWasPaused)
          st.(cursorHidden) st.(windowModeDropdownOpen).

End Libm.

(** The settings menu while it is drawn; [None] when "Exit Game" ends
    the program.  The two buttons take clicks only while the dropdown is
    closed. *)
Definition Menu (st : State) (gui : Gui) : option State :=
  if st.(showSettingsMenu)
  then
    let buttons :=
      if negb st.(windowModeDropdownOpen)
      then
        let st :=
          if GuiButtonResume gui
          then mkState st.(player) st.(camera) false false true
                       st.(windowModeDropdownOpen)
          else st in
        if GuiButtonExit gui then None else Some st
      else Some st in
    match buttons with
    | None => None
    | Some st =>
        Some (if GuiDropdownBox gui
              then mkState st.(player) st.(camera) st.(showSettingsMenu)
                           st.(gameWasPaused) st.(cursorHidden)
                           (negb st.(windowModeDropdownOpen))
              else st)
    end
  else Some st.

(** The state of [main] before the first iteration (lines 437-467). *)
Definition initial : State :=
  mkState initialPlayer
          (mkCamera initialPlayer.(position) (vec3 0 1.8 0) 70)
          false false true false.

(** The menu is open exactly while the game counts as paused, and an
    open menu has the cursor visible. *)
Definition MenuInvariant (st : State) : Prop :=
  st.(gameWasPaused) = st.(showSettingsMenu) /\
  (st.(showSettingsMenu) = true -> st.(cursorHidden) = false).

End Game.

(** ** The free camera of [shader_test.cpp] (lines 283-313) *)

Module ShaderTest.

Inductive KeyboardKey :=
  | KEY_W | KEY_S | KEY_A | KEY_D | KEY_E | KEY_Q | KEY_LEFT_SHIFT.

Record View := mkView {
  position : Vector3;
  yaw : Q;
  pitch : Q;
  camera_position : Vector3;
  camera_target : Vector3
}.

Section Libm.

Variables sqrtf cosf sinf : Q -> Q.
Variable DEG2RAD : Q.

Definition Move
    (v : View) (showMenu : bool) (moveSpeed mouseSens dt : Q)
    (mouse : Vector2) (IsKeyDown : KeyboardKey -> bool) : View :=
  if negb showMenu
  then
    let yaw := v.(yaw) + mouse.(x2) * mouseSens in
    let pitch := v.(pitch) - mouse.(y2) * mouseSens in
    let pitch := if pitch >? 89 then 89 else pitch in
    let pitch := if pitch <? -89 then -89 else pitch in
    let forward :=
      vec3 (cosf (DEG2RAD * yaw) * cosf (DEG2RAD * pitch))
           (sinf (DEG2RAD * pitch))
           (sinf (DEG2RAD * yaw) * cosf (DEG2RAD * pitch)) in
    let forward := Controller.Vector3Normalize sqrtf forward in
    let right :=
      Controller.Vector3Normalize sqrtf
        (Vector3CrossProduct forward (vec3 0 1 0)) in
    let up := vec3 0 1 0 in
    let move := vec3 0 0 0 in
    let move := if IsKeyDown KEY_W then Vector3Add move forward else move in
    let move := if IsKeyDown KEY_S then Vector3Subtract move forward else move in
    let move := if IsKeyDown KEY_A then Vector3Subtract move right else move in
    let move := if IsKeyDown KEY_D then Vector3Add move right else move in
    let move := if IsKeyDown KEY_E then Vector3Add move up else move in
    let move := if IsKeyDown KEY_Q then Vector3Subtract move up else move in
    let speed := moveSpeed in
    let speed := if IsKeyDown KEY_LEFT_SHIFT then speed * 2.5 else speed in
    let position :=
      if Controller.Vector3Length sqrtf move >? 0
      then Vector3Add v.(position)
             (Vector3Scale (Controller.Vector3Normalize sqrtf move) (speed * dt))
      else v.(position) in
    mkView position yaw pitch position (Vector3Add position forward)
  else v.

End Libm.

(** The player of [main.cpp] with the angles of a view. *)
Definition asPlayer (v : View) : Player :=
  mkPlayer v.(position) (vec3 0 0 0) v.(yaw) v.(pitch) 0 0 false true.

End ShaderTest.

(** ** A square root for the worked example of a diagonal

    The square root of a fraction to 24 binary digits after the point,
    rounded down. *)

Module Approx.

Definition sqrtf (a : Q) : Q :=
  Z.sqrt (Qnum a * Zpos (Qden a) * 2 ^ 48) # (Qden a * 2 ^ 24).

(** [W] and [D] held. *)
Definition diagonalKeys (dt : Q) : Frame :=
  mkFrame dt (vec2 0 0)
          (fun k => match k with KEY_W | KEY_D => true | _ => false end)
          (fun _ => false).

End Approx.

(** Componentwise equality of fractions. *)
Definition SamePoint (u v : Vector3) : Prop :=
  u.(x) == v.(x) /\ u.(y) == v.(y) /\ u.(z) == v.(z).


(** ** The scene (lines 469-492 of [main])

    [colliders] starts with the centre cube; two nested [for] loops over
    [int] push the pillars.  C's [abs] and [%] on [int] are [Z.abs] and
    [Z.rem], the cast [(float)] of an [int] is [inject_Z].  Each loop
    takes a turn while its condition holds; the bound on the number of
    turns only makes the recursion structural (a loop from -5 to 5 in
    steps of 2 leaves by its condition after six turns).  The colours
    of a box play no part in the physics and are left out, as in
    [CollisionBox]. *)

Module Scene.

Definition Pillar (i j : Z) : CollisionBox :=
  let height := 1 + inject_Z (Z.rem (Z.abs (i + j)) 3) in
  mkBox (vec3 (inject_Z i * 3) (height / 2) (inject_Z j * 3))
        (vec3 0.5 height 0.5).

Fixpoint ForJ (turns : nat) (i j : Z) (colliders : list CollisionBox)
    : list CollisionBox :=
  match turns with
  | O => colliders
  | S turns =>
    if (j <=? 5)%Z then
      ForJ turns i (j + 2)
        (if (i =? 0)%Z && (j =? 0)%Z then colliders
         else colliders ++ [Pillar i j])
    else colliders
  end.

Fixpoint ForI (turns : nat) (i : Z) (colliders : list CollisionBox)
    : list CollisionBox :=
  match turns with
  | O => colliders
  | S turns =>
    if (i <=? 5)%Z then ForI turns (i + 2) (ForJ 11 i (-5) colliders)
    else colliders
  end.

Definition Colliders : list CollisionBox := ForI 11 (-5) [centerCube].

(** The index pairs the two loops visit, in order. *)
Definition Grid : list (Z * Z) :=
  let odd := [-5; -3; -1; 1; 3; 5]%Z in list_prod odd odd.

(** Positive extents on every axis. *)
Definition WellFormed (box : CollisionBox) : Prop :=
  0 < box.(box_size).(x) /\ 0 < box.(box_size).(y) /\ 0 < box.(box_size).(z).

End Scene.

(** The player's AABB overlaps or touches the footprint of the box. *)
Definition Reaches (pos : Vector3) (radius : Q) (box : CollisionBox) : Prop :=
  let b := GetBoxBounds box in
  b.(min).(x) <= pos.(x) + radius /\ pos.(x) - radius <= b.(max).(x) /\
  b.(min).(z) <= pos.(z) + radius /\ pos.(z) - radius <= b.(max).(z).

(** No position within reach of [a] overlaps [b], and the other way
    round. *)
Definition Apart (radius : Q) (a b : CollisionBox) : Prop :=
  forall pos : Vector3,
    (Reaches pos radius a -> ~ OverlapsHorizontally pos radius b) /\
    (Reaches pos radius b -> ~ OverlapsHorizontally pos radius a).


(** * Rounded arithmetic

    The exact rationals above decide what the controller does when no
    rounding interferes.  The push-out and the approach to a face are
    sensitive to rounding: they are stated over the same code with every
    [float] operation followed by a rounding [fl].  With the identity
    for [fl] these definitions are the exact ones; with [F32.binary32]
    they are the single-precision operations of the program. *)

(** ** Rounding to binary32

    Round to nearest, ties to even, with a 24-bit significand.  The
    exponent is not bounded: overflow and subnormal numbers are outside
    the model, which agrees with binary32 on every result of magnitude
    between 2^-126 and 2^128. *)

Module F32.

(** Half an ulp of 1: 2^-24. *)
Definition unit_roundoff : Q := 1 # 16777216.

(** The nearest integer, ties to even. *)
Definition rne (q : Q) : Z :=
  let f := Qfloor q in
  let d := q - inject_Z f in
  match Qcompare d (1 # 2) with
  | Lt => f
  | Gt => (f + 1)%Z
  | Eq => if Z.even f then f else (f + 1)%Z
  end.

(** The binary exponent of a positive fraction: [2^e <= q < 2^(e+1)]. *)
Definition ilog2 (q : Q) : Z :=
  let k := (Z.log2 (Qnum q) - Z.log2 (Zpos (Qden q)))%Z in
  if Qle_bool (2 ^ k) q then k else (k - 1)%Z.

Definition binary32 (q : Q) : Q :=
  let q := Qred q in
  if Qeq_bool q 0 then 0
  else
    let ulp := 2 ^ (ilog2 (Qabs q) - 23) in
    Qred (inject_Z (rne (q / ulp)) * ulp).

End F32.

(** ** The walking controller with a rounding after every operation *)

Module Rounded.

Section Arithmetic.

Variable fl : Q -> Q.
Variables sqrtf cosf sinf : Q -> Q.
Variable DEG2RAD : Q.

Local Notation "a [+] b" := (fl (a + b)) (at level 50, left associativity).
Local Notation "a [-] b" := (fl (a - b)) (at level 50, left associativity).
Local Notation "a [*] b" := (fl (a * b)) (at level 40, left associativity).
Local Notation "a [/] b" := (fl (a / b)) (at level 40, left associativity).

Definition Vector3Add (v1 v2 : Vector3) : Vector3 :=
  vec3 (v1.(x) [+] v2.(x)) (v1.(y) [+] v2.(y)) (v1.(z) [+] v2.(z)).

Definition Vector3Subtract (v1 v2 : Vector3) : Vector3 :=
  vec3 (v1.(x) [-] v2.(x)) (v1.(y) [-] v2.(y)) (v1.(z) [-] v2.(z)).

Definition Vector3CrossProduct (v1 v2 : Vector3) : Vector3 :=
  vec3 (v1.(y) [*] v2.(z) [-] v1.(z) [*] v2.(y))
       (v1.(z) [*] v2.(x) [-] v1.(x) [*] v2.(z))
       (v1.(x) [*] v2.(y) [-] v1.(y) [*] v2.(x)).

Definition Vector3Length (v : Vector3) : Q :=
  sqrtf (v.(x) [*] v.(x) [+] v.(y) [*] v.(y) [+] v.(z) [*] v.(z)).

Definition Vector3Normalize (v : Vector3) : Vector3 :=
  let length := sqrtf (v.(x) [*] v.(x) [+] v.(y) [*] v.(y) [+] v.(z) [*] v.(z)) in
  if length !=? 0
  then
    let ilength := 1 [/] length in
    vec3 (v.(x) [*] ilength) (v.(y) [*] ilength) (v.(z) [*] ilength)
  else v.

Definition GetBoxBounds (box : CollisionBox) : BoundingBox :=
  bbox
    (vec3 (box.(box_position).(x) [-] box.(box_size).(x) [/] 2)
          (box.(box_position).(y) [-] box.(box_size).(y) [/] 2)
          (box.(box_position).(z) [-] box.(box_size).(z) [/] 2))
    (vec3 (box.(box_position).(x) [+] box.(box_size).(x) [/] 2)
          (box.(box_position).(y) [+] box.(box_size).(y) [/] 2)
          (box.(box_position).(z) [+] box.(box_size).(z) [/] 2)).

Definition ShouldApplyHorizontalCollision
    (playerPos : Vector3) (radius height : Q) (box : CollisionBox) : bool :=
  let boxBounds := GetBoxBounds box in
  let horizontalOverlap :=
    (playerPos.(x) [+] radius >? boxBounds.(min).(x)) &&
    (playerPos.(x) [-] radius <? boxBounds.(max).(x)) &&
    (playerPos.(z) [+] radius >? boxBounds.(min).(z)) &&
    (playerPos.(z) [-] radius <? boxBounds.(max).(z)) in
  if negb horizontalOverlap then false else
  let feetY := playerPos.(y) [-] height in
  if feetY >=? boxBounds.(max).(y) [-] fl 0.1 then false else
  if playerPos.(y) <? boxBounds.(min).(y) then false else
  true.

(** The four comparisons of the overlap test, on the values the code
    computes. *)
Definition OverlapsHorizontally
    (pos : Vector3) (radius : Q) (box : CollisionBox) : Prop :=
  let b := GetBoxBounds box in
  b.(min).(x) < pos.(x) [+] radius /\ pos.(x) [-] radius < b.(max).(x) /\
  b.(min).(z) < pos.(z) [+] radius /\ pos.(z) [-] radius < b.(max).(z).

(** Neither vertical test of [ShouldApplyHorizontalCollision] rules the
    box out: the feet are below its top minus 0.1 and the head is not
    below its bottom, as the code computes them. *)
Definition AtMidHeight
    (pos : Vector3) (height : Q) (box : CollisionBox) : Prop :=
  let b := GetBoxBounds box in
  (pos.(y) [-] height >=? b.(max).(y) [-] fl 0.1) = false /\
  (pos.(y) <? b.(min).(y)) = false.

Definition ResolveCollision
    (playerPos : Vector3) (radius height : Q) (box : CollisionBox) : Vector3 :=
  let boxBounds := GetBoxBounds box in
  let overlapX1 := (playerPos.(x) [+] radius) [-] boxBounds.(min).(x) in
  let overlapX2 := boxBounds.(max).(x) [-] (playerPos.(x) [-] radius) in
  let overlapZ1 := (playerPos.(z) [+] radius) [-] boxBounds.(min).(z) in
  let overlapZ2 := boxBounds.(max).(z) [-] (playerPos.(z) [-] radius) in
  let minOverlapX := if overlapX1 <? overlapX2 then - overlapX1 else overlapX2 in
  let minOverlapZ := if overlapZ1 <? overlapZ2 then - overlapZ1 else overlapZ2 in
  if fabsf minOverlapX <? fabsf minOverlapZ
  then set_x playerPos (playerPos.(x) [+] minOverlapX)
  else set_z playerPos (playerPos.(z) [+] minOverlapZ).

Definition UpdateCameraLook
    (player : Player) (mouseSensitivity : Q) (frame : Frame) : Player :=
  let mouseDelta := GetMouseDelta frame in
  let player := set_yaw player (player.(yaw) [+] mouseDelta.(x2) [*] mouseSensitivity) in
  let player := set_pitch player (player.(pitch) [-] mouseDelta.(y2) [*] mouseSensitivity) in
  let player := if player.(pitch) >? 89 then set_pitch player 89 else player in
  let player := if player.(pitch) <? -89 then set_pitch player (-89) else player in
  player.

Definition HorizontalCollisions
    (colliders : list CollisionBox) (radius height : Q) (newPos : Vector3)
    : Vector3 :=
  fold_left
    (fun newPos box =>
       if ShouldApplyHorizontalCollision newPos radius height box
       then ResolveCollision newPos radius height box
       else newPos)
    colliders newPos.

Definition StandOnBox
    (newPos : Vector3) (radius height velocityY : Q)
    (ground : bool * Q) (box : CollisionBox) : bool * Q :=
  let '(foundGround, groundY) := ground in
  let bounds := GetBoxBounds box in
  if (newPos.(x) [+] radius >? bounds.(min).(x)) &&
     (newPos.(x) [-] radius <? bounds.(max).(x)) &&
     (newPos.(z) [+] radius >? bounds.(min).(z)) &&
     (newPos.(z) [-] radius <? bounds.(max).(z))
  then
    let feetY := newPos.(y) [-] height in
    if (feetY <=? bounds.(max).(y) [+] fl 0.05) &&
       (feetY >=? bounds.(max).(y) [-] 0.5)
    then
      if velocityY <=? fl 0.01
      then
        let groundY := if bounds.(max).(y) >? groundY then bounds.(max).(y) else groundY in
        (true, groundY)
      else (foundGround, groundY)
    else (foundGround, groundY)
  else (foundGround, groundY).

Definition FindGround
    (colliders : list CollisionBox) (newPos : Vector3)
    (radius height velocityY : Q) : bool * Q :=
  let foundGround := false in
  let groundY := GROUND_LEVEL in
  let ground :=
    if newPos.(y) [-] height <=? GROUND_LEVEL [+] fl 0.05
    then (true, GROUND_LEVEL)
    else (foundGround, groundY) in
  fold_left (StandOnBox newPos radius height velocityY) colliders ground.

Definition GetFlatForwardDirection (player : Player) : Vector3 :=
  Vector3Normalize
    (vec3 (cosf (DEG2RAD [*] player.(yaw))) 0 (sinf (DEG2RAD [*] player.(yaw)))).

Definition WalkImpulses
    (player : Player) (moveSpeed mouseSensitivity : Q) (frame : Frame)
    : Player :=
  let deltaTime := GetFrameTime frame in
  let player := UpdateCameraLook player mouseSensitivity frame in
  let forward := GetFlatForwardDirection player in
  let right := Vector3Normalize (Vector3CrossProduct forward (vec3 0 1 0)) in
  let moveDir := vec3 0 0 0 in
  let moveDir := if IsKeyDown frame KEY_W then Vector3Add moveDir forward else moveDir in
  let moveDir := if IsKeyDown frame KEY_S then Vector3Subtract moveDir forward else moveDir in
  let moveDir := if IsKeyDown frame KEY_A then Vector3Subtract moveDir right else moveDir in
  let moveDir := if IsKeyDown frame KEY_D then Vector3Add moveDir right else moveDir in
  let currentSpeed := moveSpeed in
  let currentSpeed :=
    if IsKeyDown frame KEY_LEFT_CONTROL then currentSpeed [*] 2 else currentSpeed in
  let moveDir :=
    if Vector3Length moveDir >? 0 then Vector3Normalize moveDir else moveDir in
  let player := set_velocity player (set_x player.(velocity) (moveDir.(x) [*] currentSpeed)) in
  let player := set_velocity player (set_z player.(velocity) (moveDir.(z) [*] currentSpeed)) in
  let player :=
    if negb player.(isGrounded)
    then set_velocity player
           (set_y player.(velocity) (player.(velocity).(y) [-] GRAVITY [*] deltaTime))
    else player in
  let player :=
    if IsKeyPressed frame KEY_SPACE && player.(isGrounded)
    then set_isGrounded
           (set_velocity player (set_y player.(velocity) JUMP_FORCE)) false
    else player in
  player.

(** The candidate position before the push-outs (lines 350-352). *)
Definition WalkStart (player : Player) (deltaTime : Q) : Vector3 :=
  let newPos := player.(position) in
  let newPos := set_x newPos (newPos.(x) [+] player.(velocity).(x) [*] deltaTime) in
  let newPos := set_z newPos (newPos.(z) [+] player.(velocity).(z) [*] deltaTime) in
  newPos.

Definition WalkMove
    (player : Player) (colliders : list CollisionBox) (deltaTime : Q)
    : Player :=
  let newPos := player.(position) in
  let newPos := set_x newPos (newPos.(x) [+] player.(velocity).(x) [*] deltaTime) in
  let newPos := set_z newPos (newPos.(z) [+] player.(velocity).(z) [*] deltaTime) in
  let newPos := HorizontalCollisions colliders player.(radius) player.(height) newPos in
  let newPos := set_y newPos (newPos.(y) [+] player.(velocity).(y) [*] deltaTime) in
  let '(foundGround, groundY) :=
    FindGround colliders newPos player.(radius) player.(height)
               player.(velocity).(y) in
  if foundGround && (player.(velocity).(y) <=? fl 0.01)
  then
    let newPos := set_y newPos (groundY [+] player.(height)) in
    let player := set_velocity player (set_y player.(velocity) 0) in
    let player := set_isGrounded player true in
    set_position player newPos
  else
    let player := set_isGrounded player false in
    set_position player newPos.

Definition UpdateWalkingMode
    (player : Player) (moveSpeed mouseSensitivity : Q)
    (colliders : list CollisionBox) (frame : Frame) : Player :=
  WalkMove (WalkImpulses player moveSpeed mouseSensitivity frame)
           colliders (GetFrameTime frame).

End Arithmetic.

(** The rounding slack of the push-out on one axis: twelve times the
    unit roundoff [u] times the size of the numbers involved, the two
    bounds of the box and the radius. *)
Definition Slack (u lo hi radius : Q) : Q :=
  12 * u * (Qabs lo + Qabs hi + radius).

(** One side of the player's AABB is on a vertical face of the box, to
    within the slack of that axis. *)
Definition OnFace
    (fl : Q -> Q) (u : Q) (pos : Vector3) (radius : Q) (box : CollisionBox)
    : Prop :=
  let b := GetBoxBounds fl box in
  let sx := Slack u b.(min).(x) b.(max).(x) radius in
  let sz := Slack u b.(min).(z) b.(max).(z) radius in
  Qabs (pos.(x) + radius - b.(min).(x)) <= sx \/
  Qabs (pos.(x) - radius - b.(max).(x)) <= sx \/
  Qabs (pos.(z) + radius - b.(min).(z)) <= sz \/
  Qabs (pos.(z) - radius - b.(max).(z)) <= sz.

(** The horizontal bounds of the centre cube are computed without error. *)
Definition CubeIsExact (fl : Q -> Q) : Prop :=
  let b := GetBoxBounds fl centerCube in
  b.(min).(x) == -1 /\ b.(max).(x) == 1 /\
  b.(min).(z) == -1 /\ b.(max).(z) == 1.

End Rounded.

(** ** The approach to the +x face of the centre cube, in rounded arithmetic *)

Module Approach.

Section Run.

Variable fl : Q -> Q.
(** The unit roundoff of [fl]. *)
Variable u : Q.
Variables sqrtf cosf sinf : Q -> Q.
Variable DEG2RAD : Q.
Variables moveSpeed mouseSensitivity : Q.

Local Abbreviation Impulses p f :=
  (Rounded.WalkImpulses fl sqrtf cosf sinf DEG2RAD p moveSpeed
     mouseSensitivity f).
Local Abbreviation Walk p f :=
  (Rounded.UpdateWalkingMode fl sqrtf cosf sinf DEG2RAD p moveSpeed
     mouseSensitivity [centerCube] f).

(** The candidate position of the frame, as the code computes it before
    the push-outs. *)
Definition Candidate (player : Player) (frame : Frame) : Vector3 :=
  Rounded.WalkStart fl (Impulses player frame) (GetFrameTime frame).

(** The +x face of the cube, widened by the player's radius. *)
Definition FaceX (player : Player) : Q :=
  (Rounded.GetBoxBounds fl centerCube).(max).(x) + player.(radius).

(** The rounding slack at the face, [Rounded.Slack] for the bounds -1
    and 1 of the cube: twelve roundings of numbers of size at most
    [|boxMinX| + |boxMaxX| + radius = 2 + radius]. *)
Definition Slack (player : Player) : Q := 12 * u * (2 + player.(radius)).

(** The candidate is at mid-height: neither vertical test of
    [ShouldApplyHorizontalCollision] rules the cube out. *)
Definition MidHeight (player : Player) (frame : Frame) : Prop :=
  Rounded.AtMidHeight fl (Candidate player frame) player.(height) centerCube.

(** The candidate lies on the +x side and is nearer the +x face than
    either z face, by more than the slack. *)
Definition HeadsForFace (player : Player) (frame : Frame) : Prop :=
  let c := Candidate player frame in
  Qabs c.(z) + Slack player < c.(x).

(** Contact: the candidate collides horizontally with the cube. *)
Definition Contact (player : Player) (frame : Frame) : Prop :=
  Rounded.ShouldApplyHorizontalCollision fl (Candidate player frame)
    player.(radius) player.(height) centerCube = true.

Fixpoint Run (player : Player) (frames : list Frame) : Prop :=
  match frames with
  | [] => True
  | frame :: rest =>
      0 <= player.(radius) /\
      MidHeight player frame /\
      HeadsForFace player frame /\
      Run (Walk player frame) rest
  end.

(** After every frame the player is at or beyond the widened face up to
    the slack, and on it up to the slack after a frame with contact. *)
Fixpoint Clamped (player : Player) (frames : list Frame) : Prop :=
  match frames with
  | [] => True
  | frame :: rest =>
      let next := Walk player frame in
      FaceX player - Slack player <= next.(position).(x) /\
      (Contact player frame ->
       Qabs (next.(position).(x) - FaceX player) <= Slack player) /\
      Clamped next rest
  end.

End Run.

End Approach.

(** ** Values for the worked examples in single precision *)

Module Single.

(** The walker of the approach: at x = +5, y = 1, z = 0, facing -x, with
    the height and radius of [main] as the program holds them. *)
Definition approaching : Player :=
  mkPlayer (vec3 5 1 0) (vec3 0 0 0) 180 0
           (F32.binary32 1.8) (F32.binary32 0.3) false false.

(** [W] held for [n] frames of 0.1f seconds. *)
Definition forwardFrames (n : nat) : list Frame :=
  repeat (Exact.forwardKey (F32.binary32 0.1)) n.

(** A position inside the widened footprint of the centre cube. *)
Definition inside : Vector3 :=
  vec3 (F32.binary32 1.2) (F32.binary32 1.8) 0.

End Single.

(** * Properties *)

(** ** Comparisons as propositions *)

Lemma lt_true (a b : Q) : (a <? b) = true <-> a < b.
Proof.
  unfold Cmp.lt. rewrite negb_true_iff, <- not_true_iff_false, Qle_bool_iff.
  split; [apply Qnot_le_lt | apply Qlt_not_le].
Qed.

Lemma lt_false (a b : Q) : (a <? b) = false <-> b <= a.
Proof. unfold Cmp.lt. rewrite negb_false_iff. apply Qle_bool_iff. Qed.

Lemma le_true (a b : Q) : (a <=? b) = true <-> a <= b.
Proof. apply Qle_bool_iff. Qed.

Lemma le_false (a b : Q) : (a <=? b) = false <-> b < a.
Proof.
  unfold Cmp.le. rewrite <- not_true_iff_false, Qle_bool_iff.
  split; [apply Qnot_le_lt | apply Qlt_not_le].
Qed.

Lemma gt_true (a b : Q) : (a >? b) = true <-> b < a.
Proof. apply lt_true. Qed.

Lemma gt_false (a b : Q) : (a >? b) = false <-> a <= b.
Proof. apply lt_false. Qed.

Lemma ge_true (a b : Q) : (a >=? b) = true <-> b <= a.
Proof. apply le_true. Qed.

Lemma ge_false (a b : Q) : (a >=? b) = false <-> a < b.
Proof. apply le_false. Qed.

(** Turn every boolean comparison fact of the context into an inequality. *)
Ltac cmp_props :=
  repeat match goal with
  | H : (_ <? _) = true |- _ => apply lt_true in H
  | H : (_ <? _) = false |- _ => apply lt_false in H
  | H : (_ <=? _) = true |- _ => apply le_true in H
  | H : (_ <=? _) = false |- _ => apply le_false in H
  | H : (_ >? _) = true |- _ => apply gt_true in H
  | H : (_ >? _) = false |- _ => apply gt_false in H
  | H : (_ >=? _) = true |- _ => apply ge_true in H
  | H : (_ >=? _) = false |- _ => apply ge_false in H
  end.

(** Split on the first comparison the goal branches on. *)
Ltac cmp_split :=
  match goal with
  | |- context [Cmp.lt ?a ?b] => destruct (Cmp.lt a b) eqn:?
  | |- context [Cmp.le ?a ?b] => destruct (Cmp.le a b) eqn:?
  | |- context [Cmp.gt ?a ?b] => destruct (Cmp.gt a b) eqn:?
  | |- context [Cmp.ge ?a ?b] => destruct (Cmp.ge a b) eqn:?
  end.

(** Halves and decimal constants in a form linear arithmetic reads. *)
Ltac q_consts :=
  unfold Qdiv in *; change (/ 2) with (1 # 2) in *;
  unfold GRAVITY, JUMP_FORCE, GROUND_LEVEL in *.

Ltac q_arith := cmp_props; q_consts; lra.

(** A closed statement about fractions, by evaluation. *)
Ltac q_eval :=
  vm_compute;
  repeat match goal with
  | |- _ /\ _ => split
  | |- _ <-> _ => split
  | |- ~ _ => intro
  | |- _ -> _ => intro
  end;
  try reflexivity; try discriminate; try easy.

(** Split the conjunctions that are written in the goal, and no definition. *)
Ltac splits := repeat match goal with |- _ /\ _ => split end.

(** ** The look update *)

Lemma UpdateCameraLook_pitch (p : Player) (sens : Q) (f : Frame) :
  -89 <= (UpdateCameraLook p sens f).(pitch) <= 89.
Proof.
  unfold UpdateCameraLook. cbn [pitch set_pitch set_yaw].
  set (raw := p.(pitch) - y2 (GetMouseDelta f) * sens).
  destruct (raw >? 89) eqn:Hhi; cbn [pitch set_pitch set_yaw].
  - assert ((89 <? -89) = false) as -> by reflexivity.
    cbn [pitch set_pitch]. lra.
  - destruct (raw <? -89) eqn:Hlo; cbn [pitch set_pitch set_yaw]; q_arith.
Qed.

Lemma UpdateCameraLook_frame (p : Player) (sens : Q) (f : Frame) :
  let q := UpdateCameraLook p sens f in
  q.(position) = p.(position) /\ q.(velocity) = p.(velocity) /\
  q.(height) = p.(height) /\ q.(radius) = p.(radius) /\
  q.(isGrounded) = p.(isGrounded) /\ q.(noclipMode) = p.(noclipMode) /\
  q.(yaw) = p.(yaw) + x2 (GetMouseDelta f) * sens.
Proof.
  unfold UpdateCameraLook. cbn [pitch set_pitch set_yaw].
  repeat match goal with |- context [if ?c then _ else _] => destruct c end;
    cbn; repeat split.
Qed.

(** ** The horizontal collision test *)

Lemma overlap_test (pos : Vector3) (r : Q) (box : CollisionBox) :
  let b := GetBoxBounds box in
  (pos.(x) + r >? b.(min).(x)) && (pos.(x) - r <? b.(max).(x)) &&
  (pos.(z) + r >? b.(min).(z)) && (pos.(z) - r <? b.(max).(z)) = true
  <-> OverlapsHorizontally pos r box.
Proof.
  cbv zeta. unfold OverlapsHorizontally.
  rewrite !andb_true_iff, !gt_true, !lt_true. tauto.
Qed.

Lemma ShouldApply_spec (pos : Vector3) (r h : Q) (box : CollisionBox) :
  ShouldApplyHorizontalCollision pos r h box = true
  <-> HorizontalCollisionSpec pos r h box.
Proof.
  unfold ShouldApplyHorizontalCollision, HorizontalCollisionSpec. cbv zeta.
  rewrite <- overlap_test. cbv zeta.
  destruct (_ && _ && _ && _); cbn [negb].
  - destruct (_ >=? _) eqn:Hfeet.
    + split; [discriminate |]. intros (_ & Hf & _). q_arith.
    + destruct (_ <? _) eqn:Hhead.
      * split; [discriminate |]. intros (_ & _ & Hn). cmp_props. tauto.
      * split; [| reflexivity]. intros _. cmp_props.
        repeat split; trivial. apply Qle_not_lt. assumption.
  - split; [discriminate |]. intros (Ho & _). discriminate.
Qed.

Lemma HorizontalCollisions_one
    (pos : Vector3) (r h : Q) (box : CollisionBox) :
  HorizontalCollisions [box] r h pos =
  if ShouldApplyHorizontalCollision pos r h box
  then ResolveCollision pos r h box else pos.
Proof. reflexivity. Qed.

(** Feet at or above the top minus 0.1: the standing exception. *)
Lemma standing_on_top_is_no_collision
    (pos : Vector3) (r h : Q) (box : CollisionBox) :
  (GetBoxBounds box).(max).(y) - 0.1 <= pos.(y) - h ->
  ShouldApplyHorizontalCollision pos r h box = false /\
  HorizontalCollisions [box] r h pos = pos.
Proof.
  intros Hfeet.
  assert (ShouldApplyHorizontalCollision pos r h box = false) as Hno.
  { apply not_true_iff_false. rewrite ShouldApply_spec.
    intros (_ & Hf & _). lra. }
  rewrite HorizontalCollisions_one, Hno. auto.
Qed.

(** C6.  The horizontal collision test holds exactly when the projected
    AABB overlaps the box horizontally, the feet are below the top minus
    0.1 and the head is not below the bottom; with the feet at or above
    top minus 0.1 the box does not move the candidate position. *)
Theorem horizontal_collision_test_spec
    (pos : Vector3) (r h : Q) (box : CollisionBox) :
  (ShouldApplyHorizontalCollision pos r h box = true
   <-> HorizontalCollisionSpec pos r h box) /\
  ((GetBoxBounds box).(max).(y) - 0.1 <= pos.(y) - h ->
   ShouldApplyHorizontalCollision pos r h box = false /\
   HorizontalCollisions [box] r h pos = pos).
Proof.
  split; [apply ShouldApply_spec | apply standing_on_top_is_no_collision].
Qed.

(** ** The push-out *)

Lemma signed_overlap_code (lo hi c r : Q) :
  (if (c + r) - lo <? hi - (c - r) then - ((c + r) - lo) else hi - (c - r))
  = SignedOverlapSpec lo hi c r.
Proof.
  unfold SignedOverlapSpec. cbv zeta.
  destruct (Qlt_le_dec _ _) as [Hlt | Hle].
  - apply lt_true in Hlt. rewrite Hlt. reflexivity.
  - apply lt_false in Hle. rewrite Hle. reflexivity.
Qed.

(** C8.  The push-out takes the signed overlap of the X axis and of the
    Z axis separately.  When the X overlap is strictly smaller in
    absolute value only [x] moves, by that overlap; when the Z overlap
    is strictly smaller, or the two absolute values are equal, only [z]
    moves, by the Z overlap.  The [y] coordinate never moves. *)
Theorem push_out_on_axis_of_least_overlap
    (pos : Vector3) (r h : Q) (box : CollisionBox) :
  let b := GetBoxBounds box in
  let ox := SignedOverlapSpec b.(min).(x) b.(max).(x) pos.(x) r in
  let oz := SignedOverlapSpec b.(min).(z) b.(max).(z) pos.(z) r in
  let q := ResolveCollision pos r h box in
  (Qabs ox < Qabs oz -> q = vec3 (pos.(x) + ox) pos.(y) pos.(z)) /\
  (Qabs oz < Qabs ox -> q = vec3 pos.(x) pos.(y) (pos.(z) + oz)) /\
  (Qabs ox == Qabs oz -> q = vec3 pos.(x) pos.(y) (pos.(z) + oz)) /\
  q.(y) = pos.(y).
Proof.
  intros b ox oz q.
  assert (Hq : q = if fabsf ox <? fabsf oz
                   then set_x pos (pos.(x) + ox)
                   else set_z pos (pos.(z) + oz)).
  { subst q ox oz b. unfold ResolveCollision. cbv zeta.
    rewrite !signed_overlap_code. reflexivity. }
  unfold fabsf in Hq.
  destruct (Qabs ox <? Qabs oz) eqn:Hcmp; cmp_props; rewrite Hq;
    unfold set_x, set_z; cbn [x y z];
    (split; [| split; [| split]]); try intros H;
    try reflexivity; exfalso; lra.
Qed.

(** ** Exact contact *)

(** C10.  The overlap test is strict on all four bounds: a player whose
    AABB exactly touches a vertical face of the box does not overlap it,
    is not a horizontal collision and is not moved by that box. *)
Theorem touching_face_is_no_collision
    (pos : Vector3) (r h : Q) (box : CollisionBox) :
  TouchesFace pos r box ->
  ~ OverlapsHorizontally pos r box /\
  ShouldApplyHorizontalCollision pos r h box = false /\
  HorizontalCollisions [box] r h pos = pos.
Proof.
  intros Ht.
  assert (Hno : ~ OverlapsHorizontally pos r box).
  { unfold TouchesFace, OverlapsHorizontally in *. cbv zeta in *.
    intros (Hx1 & Hx2 & Hz1 & Hz2).
    destruct Ht as [Ht | [Ht | [Ht | Ht]]]; lra. }
  assert (Hs : ShouldApplyHorizontalCollision pos r h box = false).
  { apply not_true_iff_false. rewrite ShouldApply_spec.
    intros (Ho & _). contradiction. }
  repeat split; trivial.
  rewrite HorizontalCollisions_one, Hs. reflexivity.
Qed.

(** ** The standing exception on the centre cube *)

(** C7, as the code has it.  The top of the cube centred at (0,1,0) with
    size (2,2,2) is at height 2: a player whose feet are at or above
    [2 - 0.1] is not a horizontal collision with it and is not moved. *)
Theorem center_cube_standing_exception (pos : Vector3) (r h : Q) :
  2 - 0.1 <= pos.(y) - h ->
  ShouldApplyHorizontalCollision pos r h centerCube = false /\
  HorizontalCollisions [centerCube] r h pos = pos.
Proof.
  intros Hfeet. apply standing_on_top_is_no_collision.
  assert ((GetBoxBounds centerCube).(max).(y) == 2) by reflexivity. lra.
Qed.

(** ** Ground detection *)

Lemma StandOnBox_cases
    (newPos : Vector3) (r h vy : Q) (found : bool) (g : Q) (box : CollisionBox) :
  vy <= 0.01 ->
  let top := (GetBoxBounds box).(max).(y) in
  (Standable newPos r h box /\
   StandOnBox newPos r h vy (found, g) box =
     (true, if top >? g then top else g)) \/
  (~ Standable newPos r h box /\
   StandOnBox newPos r h vy (found, g) box = (found, g)).
Proof.
  intros Hv. cbv zeta. unfold StandOnBox, Standable, FeetInBand. cbv zeta.
  destruct (_ && _ && _ && _) eqn:Hover.
  - apply overlap_test in Hover.
    destruct (_ <=? _) eqn:Hhi; destruct (_ >=? _) eqn:Hlo; cbn [andb];
      cmp_props.
    + left. apply le_true in Hv. rewrite Hv.
      split; [split; [exact Hover | split; assumption] | reflexivity].
    + right. split; [intros (_ & H1 & H2); lra | reflexivity].
    + right. split; [intros (_ & H1 & H2); lra | reflexivity].
    + right. split; [intros (_ & H1 & H2); lra | reflexivity].
  - right. split; [| reflexivity].
    intros (Ho & _). apply overlap_test in Ho. cbv zeta in Ho. congruence.
Qed.

(** The loop over the boxes, from any starting pair. *)
Lemma StandOnBox_fold
    (newPos : Vector3) (r h vy : Q) (cs : list CollisionBox) :
  vy <= 0.01 ->
  forall (found : bool) (g : Q),
  let res := fold_left (StandOnBox newPos r h vy) cs (found, g) in
  (fst res = true <->
   found = true \/ exists box, In box cs /\ Standable newPos r h box) /\
  (snd res = g \/
   exists box, In box cs /\ Standable newPos r h box /\
               snd res = (GetBoxBounds box).(max).(y)) /\
  g <= snd res /\
  (forall box, In box cs -> Standable newPos r h box ->
               (GetBoxBounds box).(max).(y) <= snd res).
Proof.
  intros Hv. induction cs as [| box cs IH]; intros found g; cbn [fold_left].
  - cbn [fst snd]. splits.
    + split; [intros H; left; exact H | intros [H | (b & [] & _)]; exact H].
    + left; reflexivity.
    + lra.
    + intros b [].
  - destruct (StandOnBox_cases newPos r h vy found g box Hv)
      as [(Hs & ->) | (Hs & ->)].
    + set (g1 := if _ >? g then _ else g).
      assert (Hg1 : g <= g1 /\ (GetBoxBounds box).(max).(y) <= g1 /\
                    (g1 = g \/ g1 = (GetBoxBounds box).(max).(y))).
      { subst g1. destruct (_ >? g) eqn:Hc; cmp_props; splits;
          try lra; auto. }
      destruct Hg1 as (Hge & Htop & Hwhich).
      destruct (IH true g1) as (Hf & Hw & Hmono & Hall). splits.
      * split.
        -- intros _. right. exists box. split; [left; reflexivity | exact Hs].
        -- intros _. apply Hf. left; reflexivity.
      * destruct Hw as [Hw | (b & Hin & Hb & Hw)].
        -- rewrite Hw. destruct Hwhich as [-> | ->]; [left; reflexivity |].
           right. exists box. splits; trivial. left; reflexivity.
        -- right. exists b. splits; trivial. right; exact Hin.
      * lra.
      * intros b [<- | Hin] Hb; [lra | apply Hall; assumption].
    + destruct (IH found g) as (Hf & Hw & Hmono & Hall). splits.
      * split.
        -- intros H. apply Hf in H. destruct H as [H | (b & Hin & Hb)];
             [left; exact H
             | right; exists b; split; [right; exact Hin | exact Hb]].
        -- intros [H | (b & [<- | Hin] & Hb)]; apply Hf;
             [left; exact H | contradiction | right; exists b; auto].
      * destruct Hw as [Hw | (b & Hin & Hb & Hw)]; [left; exact Hw |].
        right. exists b. splits; trivial. right; exact Hin.
      * exact Hmono.
      * intros b [<- | Hin] Hb; [contradiction | apply Hall; assumption].
Qed.

(** While the player moves upward no box counts. *)
Lemma StandOnBox_fold_rising
    (newPos : Vector3) (r h vy : Q) (cs : list CollisionBox) (s : bool * Q) :
  0.01 < vy ->
  fold_left (StandOnBox newPos r h vy) cs s = s.
Proof.
  intros Hv. apply le_false in Hv.
  induction cs as [| box cs IH]; cbn [fold_left]; [reflexivity |].
  assert (StandOnBox newPos r h vy s box = s) as ->; [| exact IH].
  unfold StandOnBox. destruct s as [found g]. cbv zeta. rewrite Hv.
  destruct (_ && _ && _ && _); [destruct (_ && _) |]; reflexivity.
Qed.

(** What [FindGround] returns when the player is not moving upward. *)
Lemma FindGround_highest
    (cs : list CollisionBox) (newPos : Vector3) (r h vy : Q) :
  vy <= 0.01 ->
  let res := FindGround cs newPos r h vy in
  (fst res = true <-> exists s, QualifyingSurface cs newPos r h s) /\
  (fst res = true -> HighestQualifying cs newPos r h (snd res)).
Proof.
  intros Hv. cbv zeta. unfold FindGround. cbv zeta.
  set (plane := _ <=? _).
  assert (Hplane : plane = true <-> PlaneQualifies newPos h).
  { subst plane. unfold PlaneQualifies. apply le_true. }
  assert (Hstart : (if plane then (true, GROUND_LEVEL) else (false, GROUND_LEVEL))
                   = (plane, GROUND_LEVEL)) by (destruct plane; reflexivity).
  rewrite Hstart.
  destruct (StandOnBox_fold newPos r h vy cs Hv plane GROUND_LEVEL)
    as (Hf & Hw & Hmono & Hall).
  set (res := fold_left _ cs _) in *.
  assert (Hiff : fst res = true <-> exists s, QualifyingSurface cs newPos r h s).
  { rewrite Hf. split.
    - intros [Hp | (b & Hin & Hb)].
      + exists GROUND_LEVEL. left. split; [apply Hplane; exact Hp | reflexivity].
      + eexists. right. exists b. splits; eauto.
    - intros (s & [(Hp & _) | (b & Hin & Hb & _)]).
      + left. apply Hplane; exact Hp.
      + right. exists b. auto. }
  split; [exact Hiff |].
  intros Hfound. split.
  - destruct Hw as [Hw | (b & Hin & Hb & Hw)].
    + apply Hf in Hfound. destruct Hfound as [Hp | (b & Hin & Hb)].
      * left. split; [apply Hplane; exact Hp | exact Hw].
      * (* a standable box above a plane that does not qualify is higher than 0 *)
        destruct (plane) eqn:Hpl.
        -- left. split; [apply Hplane; reflexivity | exact Hw].
        -- exfalso. specialize (Hall b Hin Hb). rewrite Hw in Hall.
           assert (~ PlaneQualifies newPos h) as Hnp
             by (intros H; apply Hplane in H; discriminate).
           destruct Hb as (_ & Hlo & Hhi). unfold PlaneQualifies in Hnp.
           q_consts. lra.
    + right. exists b. auto.
  - intros s [(Hp & ->) | (b & Hin & Hb & ->)]; [exact Hmono | auto].
Qed.


(** ** Grounding applied to the candidate position *)

Lemma WalkCandidate_eq (p : Player) (cs : list CollisionBox) (dt : Q) :
  WalkCandidate p cs dt =
  let pushed := HorizontalCollisions cs p.(radius) p.(height) (WalkStart p dt) in
  set_y pushed (pushed.(y) + p.(velocity).(y) * dt).
Proof. reflexivity. Qed.

(** [WalkMove] is grounding applied to [WalkCandidate]. *)
Lemma WalkMove_eq (p : Player) (cs : list CollisionBox) (dt : Q) :
  Controller.WalkMove p cs dt =
  let newPos := WalkCandidate p cs dt in
  let '(foundGround, groundY) :=
    FindGround cs newPos p.(radius) p.(height) p.(velocity).(y) in
  if foundGround && (p.(velocity).(y) <=? 0.01)
  then set_position
         (set_isGrounded (set_velocity p (set_y p.(velocity) 0)) true)
         (set_y newPos (groundY + p.(height)))
  else set_position (set_isGrounded p false) newPos.
Proof. reflexivity. Qed.

Lemma WalkMove_frame (p : Player) (cs : list CollisionBox) (dt : Q) :
  let q := Controller.WalkMove p cs dt in
  q.(height) = p.(height) /\ q.(radius) = p.(radius) /\
  q.(yaw) = p.(yaw) /\ q.(pitch) = p.(pitch) /\
  q.(noclipMode) = p.(noclipMode) /\
  q.(position).(x) = (WalkCandidate p cs dt).(x) /\
  q.(position).(z) = (WalkCandidate p cs dt).(z).
Proof.
  rewrite WalkMove_eq. cbv zeta.
  destruct (FindGround _ _ _ _ _) as [found g].
  destruct (found && _); cbn; repeat split.
Qed.

Lemma WalkMove_landed (p : Player) (cs : list CollisionBox) (dt g : Q) :
  FindGround cs (WalkCandidate p cs dt) p.(radius) p.(height)
             p.(velocity).(y) = (true, g) ->
  p.(velocity).(y) <= 0.01 ->
  let q := Controller.WalkMove p cs dt in
  q.(position).(y) = g + p.(height) /\
  q.(velocity).(y) = 0 /\
  q.(isGrounded) = true.
Proof.
  intros Hg Hv. rewrite WalkMove_eq. cbv zeta. rewrite Hg.
  apply le_true in Hv. rewrite Hv. cbn. repeat split.
Qed.

Lemma WalkMove_airborne (p : Player) (cs : list CollisionBox) (dt : Q) :
  fst (FindGround cs (WalkCandidate p cs dt) p.(radius) p.(height)
                  p.(velocity).(y)) = false \/
  0.01 < p.(velocity).(y) ->
  let q := Controller.WalkMove p cs dt in
  q.(position) = WalkCandidate p cs dt /\
  q.(velocity) = p.(velocity) /\
  q.(isGrounded) = false.
Proof.
  intros Hc. rewrite WalkMove_eq. cbv zeta.
  destruct (FindGround _ _ _ _ _) as [found g].
  assert (found && (y (velocity p) <=? 0.01) = false) as ->.
  { destruct Hc as [Hc | Hc].
    - cbn in Hc. subst found. reflexivity.
    - apply le_false in Hc. rewrite Hc. apply andb_false_r. }
  cbn. repeat split.
Qed.

(** ** The centre cube *)

Lemma centerCube_bounds :
  let b := GetBoxBounds centerCube in
  b.(min).(x) == -1 /\ b.(max).(x) == 1 /\
  b.(min).(y) == 0 /\ b.(max).(y) == 2 /\
  b.(min).(z) == -1 /\ b.(max).(z) == 1.
Proof. cbv zeta. repeat split; reflexivity. Qed.

Ltac cube_consts :=
  let Hb := fresh "Hb" in
  pose proof centerCube_bounds as Hb; cbv zeta in Hb;
  destruct Hb as (? & ? & ? & ? & ? & ?);
  q_consts.

(** The push-outs of one box never change the height of the candidate. *)
Lemma HorizontalCollisions_y
    (cs : list CollisionBox) (r h : Q) (pos : Vector3) :
  (HorizontalCollisions cs r h pos).(y) = pos.(y).
Proof.
  unfold HorizontalCollisions. revert pos.
  induction cs as [| box cs IH]; intros pos; cbn [fold_left]; [reflexivity |].
  rewrite IH. destruct (ShouldApplyHorizontalCollision pos r h box);
    [| reflexivity].
  unfold ResolveCollision. cbv zeta.
  destruct (fabsf _ <? fabsf _); reflexivity.
Qed.

(** ** The per-frame updates *)

Section Properties.

Variables sqrtf cosf sinf : Q -> Q.
Variable DEG2RAD : Q.

Local Abbreviation WalkImpulses := (Controller.WalkImpulses sqrtf cosf sinf DEG2RAD).
Local Abbreviation UpdateWalkingMode := (Controller.UpdateWalkingMode sqrtf cosf sinf DEG2RAD).
Local Abbreviation UpdateNoclipMode := (Controller.UpdateNoclipMode sqrtf cosf sinf DEG2RAD).
Local Abbreviation UpdatePlayer := (Controller.UpdatePlayer sqrtf cosf sinf DEG2RAD).
Local Abbreviation WalkFrames := (Controller.WalkFrames sqrtf cosf sinf DEG2RAD).

(** What look, intent, gravity and jump leave alone, and what gravity
    and jump do to the vertical velocity and the grounded flag. *)
Lemma WalkImpulses_frame (p : Player) (ms sens : Q) (f : Frame) :
  let q := WalkImpulses p ms sens f in
  q.(position) = p.(position) /\
  q.(height) = p.(height) /\ q.(radius) = p.(radius) /\
  q.(pitch) = (UpdateCameraLook p sens f).(pitch) /\
  q.(noclipMode) = p.(noclipMode) /\
  q.(velocity).(y) =
    (if IsKeyPressed f KEY_SPACE && p.(isGrounded) then JUMP_FORCE
     else if p.(isGrounded) then p.(velocity).(y)
     else p.(velocity).(y) - GRAVITY * GetFrameTime f) /\
  q.(isGrounded) = negb (IsKeyPressed f KEY_SPACE) && p.(isGrounded).
Proof.
  destruct (UpdateCameraLook_frame p sens f)
    as (Hpos & Hvel & Hh & Hr & Hg & Hn & _).
  unfold Controller.WalkImpulses.
  set (pl := UpdateCameraLook p sens f) in *.
  rewrite <- Hpos, <- Hvel, <- Hh, <- Hr, <- Hg, <- Hn.
  clearbody pl. clear. destruct pl as [ps vl yw pt h r g n].
  cbn [position velocity yaw pitch height radius isGrounded noclipMode
       set_velocity set_isGrounded set_x set_y set_z x y z].
  destruct g, (IsKeyPressed f KEY_SPACE);
    cbn [position velocity yaw pitch height radius isGrounded noclipMode
         set_velocity set_isGrounded set_x set_y set_z x y z
         negb andb];
    repeat split.
Qed.

Lemma UpdateNoclipMode_frame (p : Player) (ms sens : Q) (f : Frame) :
  let q := UpdateNoclipMode p ms sens f in
  q.(velocity) = vec3 0 0 0 /\ q.(isGrounded) = false /\
  q.(pitch) = (UpdateCameraLook p sens f).(pitch) /\
  q.(noclipMode) = p.(noclipMode).
Proof.
  destruct (UpdateCameraLook_frame p sens f) as (_ & _ & _ & _ & _ & Hn & _).
  unfold Controller.UpdateNoclipMode. cbv zeta.
  cbn [velocity isGrounded pitch noclipMode
       set_position set_velocity set_isGrounded].
  auto.
Qed.

Lemma UpdateWalkingMode_frame
    (p : Player) (ms sens : Q) (cs : list CollisionBox) (f : Frame) :
  let q := UpdateWalkingMode p ms sens cs f in
  q.(height) = p.(height) /\ q.(radius) = p.(radius) /\
  q.(pitch) = (UpdateCameraLook p sens f).(pitch) /\
  q.(noclipMode) = p.(noclipMode).
Proof.
  unfold Controller.UpdateWalkingMode. cbv zeta.
  destruct (WalkImpulses_frame p ms sens f) as (_ & Hh & Hr & Hp & Hn & _).
  destruct (WalkMove_frame (WalkImpulses p ms sens f) cs (GetFrameTime f))
    as (Hh' & Hr' & _ & Hp' & Hn' & _).
  repeat split; congruence.
Qed.

(** ** Noclip *)

(** C5.  After every noclip update, whatever the input and the prior
    state, the velocity is the zero vector and the player is not
    grounded; in the game loop this is the state after every frame that
    ends in noclip mode. *)
Theorem noclip_zero_velocity_not_grounded
    (p : Player) (ms sens : Q) (f : Frame)
    (settings : GameSettings) (cs : list CollisionBox) :
  (let q := UpdateNoclipMode p ms sens f in
   q.(velocity) = vec3 0 0 0 /\ q.(isGrounded) = false) /\
  (let q := UpdatePlayer p settings cs f in
   q.(noclipMode) = true ->
   q.(velocity) = vec3 0 0 0 /\ q.(isGrounded) = false).
Proof.
  split.
  - destruct (UpdateNoclipMode_frame p ms sens f) as (Hv & Hg & _). auto.
  - cbv zeta. unfold Controller.UpdatePlayer.
    set (p' := if IsKeyPressed f KEY_V then _ else p).
    destruct (noclipMode p') eqn:Hmode.
    + intros _.
      destruct (UpdateNoclipMode_frame p' (moveSpeed settings * 1.5)
                  (mouseSensitivity settings) f) as (Hv & Hg & _). auto.
    + intros Hq.
      destruct (UpdateWalkingMode_frame p' (moveSpeed settings)
                  (mouseSensitivity settings) cs f) as (_ & _ & _ & Hn).
      congruence.
Qed.

(** ** Pitch clamp *)

(** C4.  For every pointer delta, sensitivity and prior pitch, the look
    update adds [dx * sensitivity] to the yaw and leaves the pitch in
    [-89, 89]; the walking update, the noclip update and the game-loop
    step all end with the pitch in that range. *)
Theorem pitch_clamped
    (p : Player) (ms sens : Q) (f : Frame)
    (settings : GameSettings) (cs : list CollisionBox) :
  (let q := UpdateCameraLook p sens f in
   q.(yaw) = p.(yaw) + x2 (GetMouseDelta f) * sens /\
   -89 <= q.(pitch) <= 89) /\
  -89 <= (UpdateWalkingMode p ms sens cs f).(pitch) <= 89 /\
  -89 <= (UpdateNoclipMode p ms sens f).(pitch) <= 89 /\
  -89 <= (UpdatePlayer p settings cs f).(pitch) <= 89.
Proof.
  assert (Hwalk : forall p ms sens,
             -89 <= (UpdateWalkingMode p ms sens cs f).(pitch) <= 89).
  { intros p0 ms0 sens0.
    destruct (UpdateWalkingMode_frame p0 ms0 sens0 cs f) as (_ & _ & Hp & _).
    rewrite Hp. apply UpdateCameraLook_pitch. }
  assert (Hfly : forall p ms sens,
             -89 <= (UpdateNoclipMode p ms sens f).(pitch) <= 89).
  { intros p0 ms0 sens0.
    destruct (UpdateNoclipMode_frame p0 ms0 sens0 f) as (_ & _ & Hp & _).
    rewrite Hp. apply UpdateCameraLook_pitch. }
  split; [| split; [| split]].
  - cbv zeta. split.
    + apply (UpdateCameraLook_frame p sens f).
    + apply UpdateCameraLook_pitch.
  - apply Hwalk.
  - apply Hfly.
  - unfold Controller.UpdatePlayer.
    match goal with |- context [if noclipMode ?q then _ else _] =>
      destruct (noclipMode q) end; [apply Hfly | apply Hwalk].
Qed.

(** ** Jump *)

(** C3.  In walking mode, from every state with [isGrounded = true], a
    frame on which the jump key is pressed ends with vertical velocity
    exactly 8 and [isGrounded = false], for every obstacle list and
    every other input. *)
Theorem jump_sets_velocity_and_clears_grounded
    (p : Player) (ms sens : Q) (cs : list CollisionBox) (f : Frame) :
  p.(isGrounded) = true ->
  IsKeyPressed f KEY_SPACE = true ->
  let q := UpdateWalkingMode p ms sens cs f in
  q.(velocity).(y) = 8 /\ q.(isGrounded) = false.
Proof.
  intros Hg Hj q. subst q. unfold Controller.UpdateWalkingMode.
  destruct (WalkImpulses_frame p ms sens f) as (_ & _ & _ & _ & _ & Hvy & _).
  rewrite Hg, Hj in Hvy. cbn [andb] in Hvy.
  destruct (WalkMove_airborne (WalkImpulses p ms sens f) cs (GetFrameTime f))
    as (_ & Hv & Hgr).
  - right. rewrite Hvy. unfold JUMP_FORCE. lra.
  - rewrite Hv, Hvy. auto.
Qed.

(** ** Grounding in the walking update *)

(** C9.  Grounding in the walking update.  With [newPos] the candidate
    position after the push-outs and the vertical move: when some
    surface qualifies (the plane, or a standable obstacle) and the
    vertical velocity is at most 0.01, the frame ends grounded, with
    zero vertical velocity, at [g + height] for a qualifying height [g]
    that no qualifying height exceeds; otherwise it ends not grounded,
    at [newPos].  In particular, over the centre cube (top at 2) as the
    highest standable obstacle the player lands at [2 + height]. *)
Theorem ground_detection_picks_highest_surface
    (p : Player) (ms sens : Q) (cs : list CollisionBox) (f : Frame) :
  let pA := WalkImpulses p ms sens f in
  let newPos := WalkCandidate pA cs (GetFrameTime f) in
  let q := UpdateWalkingMode p ms sens cs f in
  let qualifies := QualifyingSurface cs newPos pA.(radius) pA.(height) in
  ((exists s, qualifies s) /\ pA.(velocity).(y) <= 0.01 ->
   exists g,
     HighestQualifying cs newPos pA.(radius) pA.(height) g /\
     q.(position).(y) = g + q.(height) /\
     q.(velocity).(y) = 0 /\
     q.(isGrounded) = true) /\
  (~ ((exists s, qualifies s) /\ pA.(velocity).(y) <= 0.01) ->
   q.(isGrounded) = false /\
   q.(position) = newPos /\
   q.(velocity) = pA.(velocity)) /\
  (In centerCube cs ->
   Standable newPos pA.(radius) pA.(height) centerCube ->
   (forall box, In box cs -> Standable newPos pA.(radius) pA.(height) box ->
                (GetBoxBounds box).(max).(y) <= 2) ->
   pA.(velocity).(y) <= 0.01 ->
   q.(position).(y) == 2 + q.(height) /\ q.(isGrounded) = true).
Proof.
  intros pA newPos q qualifies.
  assert (Hq : q = Controller.WalkMove pA cs (GetFrameTime f)) by reflexivity.
  assert (Hh : q.(height) = pA.(height)).
  { rewrite Hq. apply WalkMove_frame. }
  assert (Hland : (exists s, qualifies s) -> pA.(velocity).(y) <= 0.01 ->
            exists g,
              HighestQualifying cs newPos pA.(radius) pA.(height) g /\
              q.(position).(y) = g + q.(height) /\
              q.(velocity).(y) = 0 /\ q.(isGrounded) = true).
  { intros Hs Hv.
    destruct (FindGround_highest cs newPos pA.(radius) pA.(height)
                pA.(velocity).(y) Hv) as (Hiff & Hhigh).
    destruct (FindGround cs newPos _ _ _) as [found g] eqn:Hfg.
    cbn [fst snd] in *. apply Hiff in Hs. subst found.
    exists g. split; [apply Hhigh; reflexivity |].
    rewrite Hh, Hq. apply WalkMove_landed; assumption. }
  splits.
  - intros (Hs & Hv). apply Hland; assumption.
  - intros Hnot. rewrite Hq.
    cut (position (Controller.WalkMove pA cs (GetFrameTime f)) = newPos /\
         velocity (Controller.WalkMove pA cs (GetFrameTime f)) = velocity pA /\
         isGrounded (Controller.WalkMove pA cs (GetFrameTime f)) = false);
      [tauto |].
    apply WalkMove_airborne.
    destruct (Qlt_le_dec 0.01 pA.(velocity).(y)) as [Hv | Hv];
      [right; exact Hv | left].
    destruct (FindGround_highest cs newPos pA.(radius) pA.(height)
                pA.(velocity).(y) Hv) as (Hiff & _).
    apply not_true_iff_false. intros Hfound. apply Hnot.
    split; [apply Hiff; exact Hfound | exact Hv].
  - intros Hin Hst Hmax Hv.
    destruct Hland as (g & (Hg & Hbest) & Hy & _ & Hgr); trivial.
    { eexists. right. exists centerCube. splits; eauto. }
    split; [| exact Hgr]. rewrite Hy.
    assert (Htop : (GetBoxBounds centerCube).(max).(y) == 2) by reflexivity.
    assert (Hle : (GetBoxBounds centerCube).(max).(y) <= g).
    { apply Hbest. right. exists centerCube. splits; auto. }
    assert (Hge : g <= 2).
    { destruct Hg as [(Hp & ->) | (b & Hb & Hsb & ->)].
      - unfold GROUND_LEVEL. lra.
      - apply Hmax; assumption. }
    lra.
Qed.

(** ** Free fall *)

(** One frame of an airborne player over the bare plane. *)
Lemma free_fall_frame (p : Player) (ms sens : Q) (f : Frame) :
  p.(isGrounded) = false ->
  p.(velocity).(y) <= 0 ->
  0 <= GetFrameTime f ->
  let dt := GetFrameTime f in
  let vy := p.(velocity).(y) - GRAVITY * dt in
  let feet := p.(position).(y) + vy * dt - p.(height) in
  let q := UpdateWalkingMode p ms sens [] f in
  q.(height) = p.(height) /\
  (GROUND_LEVEL + 0.05 < feet ->
   q.(isGrounded) = false /\ q.(velocity).(y) = vy /\
   q.(position).(y) = p.(position).(y) + vy * dt) /\
  (feet <= GROUND_LEVEL + 0.05 ->
   q.(isGrounded) = true /\ q.(velocity).(y) = 0 /\
   q.(position).(y) == p.(height)).
Proof.
  intros Hair Hvy Hdt dt vy feet q.
  destruct (WalkImpulses_frame p ms sens f)
    as (Hpos & Hh & Hr & _ & _ & HvyA & _).
  rewrite Hair, andb_false_r in HvyA. fold dt vy in HvyA.
  set (pA := WalkImpulses p ms sens f) in *.
  assert (Hq : q = Controller.WalkMove pA [] dt) by reflexivity.
  assert (Hcand : (WalkCandidate pA [] dt).(y) - pA.(height) = feet).
  { rewrite WalkCandidate_eq. cbn. rewrite Hpos, HvyA, Hh. reflexivity. }
  assert (Hfg : FindGround [] (WalkCandidate pA [] dt) pA.(radius) pA.(height)
                           pA.(velocity).(y)
                = if feet <=? GROUND_LEVEL + 0.05
                  then (true, GROUND_LEVEL) else (false, GROUND_LEVEL)).
  { unfold FindGround. cbv zeta. rewrite Hcand. reflexivity. }
  splits.
  - rewrite Hq, <- Hh. apply WalkMove_frame.
  - intros Hfeet. apply le_false in Hfeet. rewrite Hfeet in Hfg.
    destruct (WalkMove_airborne pA [] dt) as (Hp & Hv & Hg).
    { left. rewrite Hfg. reflexivity. }
    rewrite Hq, Hp, Hv, Hg, HvyA. splits; trivial.
    rewrite WalkCandidate_eq. cbn. rewrite Hpos, HvyA. reflexivity.
  - intros Hfeet. apply le_true in Hfeet. rewrite Hfeet in Hfg.
    destruct (WalkMove_landed pA [] dt GROUND_LEVEL Hfg) as (Hp & Hv & Hg).
    { rewrite HvyA. subst vy dt. q_consts. lra. }
    rewrite Hq, Hp, Hv, Hg, Hh. splits; trivial. unfold GROUND_LEVEL. lra.
Qed.

(** C2.  Walking over the bare plane, from an airborne state that is not
    rising and with frame times that are not negative: every frame
    before the landing lowers the vertical velocity by exactly
    [GRAVITY * dt] (20 times dt), and the landing frame, the first on
    which the feet come within the 0.05 tolerance of the plane at 0,
    ends grounded with vertical velocity 0 and position.y == height.
    From position.y == height the first frame is the landing frame. *)
Theorem free_fall_until_landing
    (ms sens : Q) (frames : list Frame) (p : Player) :
  p.(isGrounded) = false ->
  p.(velocity).(y) <= 0 ->
  Forall (fun f => 0 <= GetFrameTime f) frames ->
  FreeFallTrace sqrtf cosf sinf DEG2RAD ms sens p frames /\
  (p.(position).(y) == p.(height) ->
   forall f rest, frames = f :: rest ->
     let q := UpdateWalkingMode p ms sens [] f in
     q.(isGrounded) = true /\ q.(velocity).(y) = 0 /\
     q.(position).(y) == q.(height)).
Proof.
  intros Hair Hvy Hdts. split.
  - revert p Hair Hvy. induction Hdts as [| f rest Hdt _ IH]; intros p Hair Hvy.
    + exact I.
    + cbn [FreeFallTrace]. cbv zeta.
      destruct (free_fall_frame p ms sens f Hair Hvy Hdt) as (_ & Hup & Hdown).
      cbv zeta in Hup, Hdown.
      match goal with |- (?a < ?b /\ _) \/ _ =>
        destruct (Qlt_le_dec a b) as [Hfeet | Hfeet] end.
      * left. destruct (Hup Hfeet) as (Hg & Hv & Hp). splits; trivial.
        apply IH; [exact Hg |]. rewrite Hv. q_consts. lra.
      * right. destruct (Hdown Hfeet) as (Hg & Hv & Hp). splits; trivial.
  - intros Hy f rest ->. inversion Hdts as [| ? ? Hdt _]; subst.
    destruct (free_fall_frame p ms sens f Hair Hvy Hdt) as (Hh & _ & Hdown).
    cbv zeta in *. rewrite Hh. apply Hdown.
    assert (Hprod : (p.(velocity).(y) - GRAVITY * GetFrameTime f)
                    * GetFrameTime f <= 0).
    { q_consts. nra. }
    q_consts. lra.
Qed.

(** Free fall ends: with a constant positive frame time the player is
    grounded after finitely many frames. *)
Lemma free_fall_lands_within (ms sens : Q) (f : Frame) :
  0 < GetFrameTime f ->
  forall (n : nat) (p : Player),
    p.(isGrounded) = false ->
    p.(velocity).(y) <= 0 ->
    p.(position).(y) - p.(height)
      <= inject_Z (Z.of_nat n) * (GRAVITY * GetFrameTime f * GetFrameTime f)
         + 0.05 ->
    exists k : nat,
      (k <= S n)%nat /\
      (WalkFrames p ms sens [] (repeat f k)).(isGrounded) = true.
Proof.
  intros Hdt. set (dt := GetFrameTime f) in *.
  assert (Hdt0 : 0 <= dt) by lra.
  induction n as [| n IH]; intros p Hair Hvy Hhigh;
    destruct (free_fall_frame p ms sens f Hair Hvy Hdt0) as (Hh & Hup & Hdown);
    cbv zeta in Hup, Hdown; fold dt in Hup, Hdown;
    set (q := UpdateWalkingMode p ms sens [] f) in *;
    assert (Hfall : (p.(velocity).(y) - GRAVITY * dt) * dt
                    <= - (GRAVITY * dt * dt)) by (q_consts; nra).
  - exists 1%nat. split; [apply le_n |]. cbn [repeat Controller.WalkFrames].
    apply Hdown. change (inject_Z (Z.of_nat 0)) with 0 in Hhigh.
    assert (0 <= GRAVITY * dt * dt) by (q_consts; nra).
    q_consts. lra.
  - match type of Hdown with ?a <= ?b -> _ =>
      destruct (Qlt_le_dec b a) as [Hfeet | Hfeet] end.
    + destruct (Hup Hfeet) as (Hg & Hv & Hp).
      destruct (IH q) as (k & Hk & Hland).
      * exact Hg.
      * rewrite Hv. q_consts. lra.
      * rewrite Hp, Hh. rewrite Nat2Z.inj_succ, <- Z.add_1_r, inject_Z_plus in Hhigh.
        change (inject_Z 1) with 1 in Hhigh. q_consts. lra.
      * exists (S k). split; [apply le_n_S; exact Hk |].
        cbn [repeat Controller.WalkFrames]. exact Hland.
    + exists 1%nat. split; [apply le_n_S, Nat.le_0_l |].
      cbn [repeat Controller.WalkFrames]. apply Hdown. exact Hfeet.
Qed.

Lemma free_fall_lands (ms sens : Q) (f : Frame) (p : Player) :
  0 < GetFrameTime f ->
  p.(isGrounded) = false ->
  p.(velocity).(y) <= 0 ->
  exists k : nat,
    (WalkFrames p ms sens [] (repeat f k)).(isGrounded) = true.
Proof.
  intros Hdt Hair Hvy.
  set (c := GRAVITY * GetFrameTime f * GetFrameTime f).
  assert (Hc : 0 < c) by (subst c; q_consts; nra).
  set (drop := (p.(position).(y) - p.(height)) / c).
  destruct (free_fall_lands_within ms sens f Hdt
              (Z.to_nat (Qceiling drop)) p Hair Hvy) as (k & _ & Hk).
  - fold c.
    assert (Hn : drop <= inject_Z (Z.of_nat (Z.to_nat (Qceiling drop)))).
    { apply Qle_trans with (inject_Z (Qceiling drop)); [apply Qle_ceiling |].
      rewrite <- Zle_Qle. lia. }
    assert (Hd : p.(position).(y) - p.(height) == drop * c).
    { subst drop. field. lra. }
    rewrite Hd. nra.
  - exists k. exact Hk.
Qed.


End Properties.

(** * Worked instances *)

(** ** Jump (C3) *)

Lemma jump_from_rest_on_plane :
  Exact.standing.(isGrounded) = true /\
  IsKeyPressed (Exact.jumpKey (1 / 60)) KEY_SPACE = true /\
  (Exact.UpdateWalkingMode Exact.standing 7 0.1 [centerCube]
     (Exact.jumpKey (1 / 60))).(velocity).(y) = 8 /\
  (Exact.UpdateWalkingMode Exact.standing 7 0.1 [centerCube]
     (Exact.jumpKey (1 / 60))).(isGrounded) = false.
Proof.
  split; [reflexivity | split; [reflexivity |]].
  apply (jump_sets_velocity_and_clears_grounded
           Exact.sqrtf Exact.cosf Exact.sinf Exact.DEG2RAD
           Exact.standing 7 0.1 [centerCube] (Exact.jumpKey (1 / 60)));
    reflexivity.
Defined.

(** ** Exact contact (C10) *)

Lemma touching_plus_x_face :
  TouchesFace (vec3 1.3 1.8 0) 0.3 centerCube /\
  ~ OverlapsHorizontally (vec3 1.3 1.8 0) 0.3 centerCube /\
  ShouldApplyHorizontalCollision (vec3 1.3 1.8 0) 0.3 1.8 centerCube = false /\
  HorizontalCollisions [centerCube] 0.3 1.8 (vec3 1.3 1.8 0) = vec3 1.3 1.8 0.
Proof.
  assert (Ht : TouchesFace (vec3 1.3 1.8 0) 0.3 centerCube)
    by (left; reflexivity).
  split; [exact Ht |].
  exact (touching_face_is_no_collision (vec3 1.3 1.8 0) 0.3 1.8 centerCube Ht).
Defined.

(** ** The standing exception (C7) *)

Lemma standing_exception_at_1_9 :
  2 - 0.1 <= y (vec3 0.9 3.7 0) - 1.8 /\
  ShouldApplyHorizontalCollision (vec3 0.9 3.7 0) 0.3 1.8 centerCube = false /\
  HorizontalCollisions [centerCube] 0.3 1.8 (vec3 0.9 3.7 0) = vec3 0.9 3.7 0.
Proof.
  assert (Hfeet : 2 - 0.1 <= y (vec3 0.9 3.7 0) - 1.8) by (cbn; lra).
  split; [exact Hfeet |].
  exact (center_cube_standing_exception (vec3 0.9 3.7 0) 0.3 1.8 Hfeet).
Defined.

(** With the feet at 1.0, above the threshold [1 - 0.1] but
    below the top of the cube, the cube pushes the player out to its +x
    face: the exception does not hold at that threshold. *)
Lemma standing_exception_fails_at_0_9 : ~ StandingExceptionAt (1 - 0.1).
Proof.
  intros H. specialize (H (vec3 0.9 2.8 0) 0.3 1.8).
  assert (Hfeet : 1 - 0.1 <= y (vec3 0.9 2.8 0) - 1.8) by (cbn; lra).
  apply H in Hfeet. vm_compute in Hfeet. discriminate Hfeet.
Defined.

(** ** Free fall (C2) *)

(** The player of [main] starts airborne with the feet on the plane: the
    first frame is the landing frame. *)
Lemma initial_player_lands_on_first_frame :
  initialPlayer.(isGrounded) = false /\
  initialPlayer.(velocity).(y) <= 0 /\
  Forall (fun f => 0 <= GetFrameTime f)
         [Exact.idle (1 / 60); Exact.idle (1 / 60)] /\
  FreeFallTrace Exact.sqrtf Exact.cosf Exact.sinf Exact.DEG2RAD 7 0.1
    initialPlayer [Exact.idle (1 / 60); Exact.idle (1 / 60)] /\
  (Exact.UpdateWalkingMode initialPlayer 7 0.1 [] (Exact.idle (1 / 60)))
    .(isGrounded) = true /\
  (Exact.UpdateWalkingMode initialPlayer 7 0.1 [] (Exact.idle (1 / 60)))
    .(velocity).(y) = 0 /\
  (Exact.UpdateWalkingMode initialPlayer 7 0.1 [] (Exact.idle (1 / 60)))
    .(position).(y) == 1.8.
Proof.
  assert (Hair : initialPlayer.(isGrounded) = false) by reflexivity.
  assert (Hvy : initialPlayer.(velocity).(y) <= 0) by (cbn; lra).
  assert (Hdts : Forall (fun f => 0 <= GetFrameTime f)
                   [Exact.idle (1 / 60); Exact.idle (1 / 60)]).
  { repeat (apply Forall_cons; [vm_compute; discriminate |]).
    apply Forall_nil. }
  destruct (free_fall_until_landing
              Exact.sqrtf Exact.cosf Exact.sinf Exact.DEG2RAD 7 0.1
              [Exact.idle (1 / 60); Exact.idle (1 / 60)] initialPlayer
              Hair Hvy Hdts) as (Htrace & Hland).
  splits; trivial;
    apply (Hland (Qeq_refl _) (Exact.idle (1 / 60)) [Exact.idle (1 / 60)]
                 eq_refl).
Defined.

(** A drop from 1.2 above the plane with frames of a tenth of a second:
    the velocity goes -2, -4, then the third frame lands. *)
Example dropped_player_trace :
  let step p := Exact.UpdateWalkingMode p 7 0.1 [] (Exact.idle 0.1) in
  let p1 := step Exact.dropped in
  let p2 := step p1 in
  let p3 := step p2 in
  (p1.(isGrounded) = false /\ p1.(velocity).(y) == -2 /\ p1.(position).(y) == 2.8) /\
  (p2.(isGrounded) = false /\ p2.(velocity).(y) == -4 /\ p2.(position).(y) == 2.4) /\
  (p3.(isGrounded) = true /\ p3.(velocity).(y) == 0 /\ p3.(position).(y) == 1.8).
Proof. q_eval. Qed.

(** ** Approaching the +x face (C1), in exact arithmetic *)

Example approach_positions :
  let run n :=
    (Exact.WalkFrames Exact.approaching 7 0.1 [centerCube]
       (repeat (Exact.forwardKey 0.1) n)).(position).(x) in
  run 5%nat == 1.5 /\ run 6%nat == 1.3 /\ run 8%nat == 1.3.
Proof. q_eval. Qed.

(** A frame of a fifth of a second at speed 7 steps by 1.4: from the
    face the candidate lands beyond the centre plane of the cube, the
    -x side is the nearer one, and the push-out moves the player through
    the cube to x = -1.3. *)
Lemma long_frame_tunnels_through_cube :
  ~ ClampsOnContact Exact.sqrtf Exact.cosf Exact.sinf Exact.DEG2RAD 7 0.1.
Proof.
  intros H.
  specialize (H Exact.atFace (Exact.forwardKey 0.2)).
  assert (Hmid : AtMidHeight Exact.atFace) by q_eval.
  assert (Hfrom : faceX Exact.atFace <= Exact.atFace.(position).(x)) by q_eval.
  assert (Hdir : MovesTowardMinusX Exact.sqrtf Exact.cosf Exact.sinf
                   Exact.DEG2RAD 7 0.1 Exact.atFace (Exact.forwardKey 0.2))
    by q_eval.
  assert (Hcontact : Contact Exact.sqrtf Exact.cosf Exact.sinf
                       Exact.DEG2RAD 7 0.1 Exact.atFace (Exact.forwardKey 0.2))
    by q_eval.
  specialize (H Hmid Hfrom Hdir Hcontact).
  vm_compute in H. apply H. reflexivity.
Defined.

Example long_frame_position :
  (Exact.UpdateWalkingMode Exact.atFace 7 0.1 [centerCube]
     (Exact.forwardKey 0.2)).(position).(x) == -1.3.
Proof. q_eval. Qed.

(** Near a corner the shorter push is along z: at 60 frames per second a
    walker at z = 1.25 ends the contact frame beside the cube, with x
    inside the widened face. *)
Example corner_contact_pushes_along_z :
  let p := mkPlayer (vec3 1.35 1.8 1.25) (vec3 0 0 0) 180 0 1.8 0.3 true false in
  let q := Exact.UpdateWalkingMode p 7 0.1 [centerCube] (Exact.forwardKey (1 / 60)) in
  q.(position).(x) < 1.3 /\ q.(position).(z) == 1.3.
Proof. q_eval. Qed.

(** ** The collision test, the push-out and grounding on the centre cube *)

(** At mid-height inside the widened footprint the cube collides; with
    the feet at 1.9 it does not. *)
Example collision_test_on_cube :
  ShouldApplyHorizontalCollision (vec3 1.2 1.8 0) 0.3 1.8 centerCube = true /\
  ShouldApplyHorizontalCollision (vec3 1.2 3.7 0) 0.3 1.8 centerCube = false /\
  ShouldApplyHorizontalCollision (vec3 1.2 (-0.1) 0) 0.3 1.8 centerCube = false.
Proof. q_eval. Qed.

(** The X overlap 0.1 is smaller than the Z overlap 1.3: only x moves.
    At the centre both overlaps are 1.3: the tie moves z. *)
Example push_out_on_cube :
  let q := ResolveCollision (vec3 1.2 1.8 0) 0.3 1.8 centerCube in
  let t := ResolveCollision (vec3 0 1.8 0) 0.3 1.8 centerCube in
  (q.(x) == 1.3 /\ q.(y) == 1.8 /\ q.(z) == 0) /\
  (t.(x) == 0 /\ t.(y) == 1.8 /\ t.(z) == 1.3).
Proof. q_eval. Qed.

(** Falling onto the cube: the feet come within the band under its top
    at 2 and the player is put at 2 + 1.8; beside the cube the same fall
    continues. *)
Example landing_on_cube_top :
  let above := mkPlayer (vec3 0 3.9 0) (vec3 0 (-1) 0) (-90) 0 1.8 0.3 false false in
  let beside := mkPlayer (vec3 5 3.9 0) (vec3 0 (-1) 0) (-90) 0 1.8 0.3 false false in
  let q := Exact.UpdateWalkingMode above 7 0.1 [centerCube] (Exact.idle 0.1) in
  let t := Exact.UpdateWalkingMode beside 7 0.1 [centerCube] (Exact.idle 0.1) in
  (q.(isGrounded) = true /\ q.(position).(y) == 3.8 /\ q.(velocity).(y) == 0) /\
  (t.(isGrounded) = false /\ t.(position).(y) == 3.6 /\ t.(velocity).(y) == -3).
Proof. q_eval. Qed.

(** * Further properties of the controller *)

(** ** Velocity carried between frames *)

Lemma UpdateCameraLook_set_velocity
    (p : Player) (v : Vector3) (sens : Q) (f : Frame) :
  UpdateCameraLook (set_velocity p v) sens f
  = set_velocity (UpdateCameraLook p sens f) v.
Proof.
  destruct p as [ps vl yw pt hh rr g n].
  unfold UpdateCameraLook, set_velocity, set_pitch, set_yaw.
  cbn [position velocity yaw pitch height radius isGrounded noclipMode].
  destruct (_ >? 89);
    cbn [position velocity yaw pitch height radius isGrounded noclipMode];
    destruct (_ <? -89); reflexivity.
Qed.

Section MoreProperties.

Variables sqrtf cosf sinf : Q -> Q.
Variable DEG2RAD : Q.

Local Abbreviation WalkImpulses := (Controller.WalkImpulses sqrtf cosf sinf DEG2RAD).
Local Abbreviation UpdateWalkingMode := (Controller.UpdateWalkingMode sqrtf cosf sinf DEG2RAD).
Local Abbreviation UpdateNoclipMode := (Controller.UpdateNoclipMode sqrtf cosf sinf DEG2RAD).
Local Abbreviation UpdatePlayer := (Controller.UpdatePlayer sqrtf cosf sinf DEG2RAD).
Local Abbreviation PlayFrames := (PlayFrames sqrtf cosf sinf DEG2RAD).
Local Abbreviation Vector3Normalize := (Controller.Vector3Normalize sqrtf).
Local Abbreviation Vector3Length := (Controller.Vector3Length sqrtf).
Local Abbreviation WalkMoveDir := (Intent.WalkMoveDir sqrtf cosf sinf DEG2RAD).
Local Abbreviation WalkDirection := (Intent.WalkDirection sqrtf cosf sinf DEG2RAD).

(** [WalkImpulses] field by field. *)
Lemma WalkImpulses_eq (p : Player) (ms sens : Q) (f : Frame) :
  WalkImpulses p ms sens f =
  let pl := UpdateCameraLook p sens f in
  let d := WalkDirection p sens f in
  let s := Intent.WalkSpeed ms f in
  let jump := IsKeyPressed f KEY_SPACE && p.(isGrounded) in
  mkPlayer p.(position)
           (vec3 (d.(x) * s)
                 (if jump then JUMP_FORCE
                  else if p.(isGrounded) then p.(velocity).(y)
                  else p.(velocity).(y) - GRAVITY * GetFrameTime f)
                 (d.(z) * s))
           pl.(yaw) pl.(pitch) p.(height) p.(radius)
           (negb (IsKeyPressed f KEY_SPACE) && p.(isGrounded))
           p.(noclipMode).
Proof.
  destruct (UpdateCameraLook_frame p sens f)
    as (Hpos & Hvel & Hh & Hr & Hg & Hn & _).
  unfold Controller.WalkImpulses, Intent.WalkDirection, Intent.WalkMoveDir,
    Intent.WalkSpeed.
  cbv zeta.
  set (pl := UpdateCameraLook p sens f) in *.
  rewrite <- Hpos, <- Hvel, <- Hh, <- Hr, <- Hg, <- Hn.
  clearbody pl. clear. destruct pl as [ps vl yw pt h r g n].
  cbn [position velocity yaw pitch height radius isGrounded noclipMode
       set_velocity set_isGrounded set_x set_y set_z x y z].
  destruct g, (IsKeyPressed f KEY_SPACE);
    cbn [position velocity yaw pitch height radius isGrounded noclipMode
         set_velocity set_isGrounded set_x set_y set_z x y z
         negb andb];
    reflexivity.
Qed.

Lemma WalkDirection_set_velocity
    (p : Player) (v : Vector3) (sens : Q) (f : Frame) :
  WalkDirection (set_velocity p v) sens f = WalkDirection p sens f.
Proof.
  unfold Intent.WalkDirection, Intent.WalkMoveDir,
    Controller.GetFlatForwardDirection.
  rewrite UpdateCameraLook_set_velocity. reflexivity.
Qed.

(** The walking update reads the prior velocity only in its [y]. *)
Lemma WalkImpulses_reads_velocity_y
    (p : Player) (v : Vector3) (ms sens : Q) (f : Frame) :
  v.(y) = p.(velocity).(y) ->
  WalkImpulses (set_velocity p v) ms sens f = WalkImpulses p ms sens f.
Proof.
  intros Hy. rewrite !WalkImpulses_eq. cbv zeta.
  rewrite WalkDirection_set_velocity, UpdateCameraLook_set_velocity.
  cbn [set_velocity position velocity yaw pitch height radius isGrounded
       noclipMode].
  rewrite Hy. reflexivity.
Qed.

Lemma UpdateNoclipMode_ignores_velocity
    (p : Player) (v : Vector3) (ms sens : Q) (f : Frame) :
  UpdateNoclipMode (set_velocity p v) ms sens f = UpdateNoclipMode p ms sens f.
Proof.
  unfold Controller.UpdateNoclipMode.
  rewrite UpdateCameraLook_set_velocity.
  destruct (UpdateCameraLook p sens f) as [ps vl yw pt hh rr g n].
  reflexivity.
Qed.

(** X3.  Walking has no horizontal momentum: the horizontal velocity a
    player brings into a frame has no effect on the frame, for every
    obstacle list and input. *)
Theorem walking_has_no_horizontal_momentum
    (p : Player) (vx vz ms sens : Q) (cs : list CollisionBox) (f : Frame) :
  UpdateWalkingMode (WithHorizontalVelocity p vx vz) ms sens cs f
  = UpdateWalkingMode p ms sens cs f.
Proof.
  unfold Controller.UpdateWalkingMode, WithHorizontalVelocity.
  rewrite WalkImpulses_reads_velocity_y; reflexivity.
Qed.

(** X4.  A frame on which the mode key V is pressed does not depend on
    the velocity the player had: entering noclip discards it, leaving
    noclip zeroes the vertical part before the walking update overwrites
    the horizontal part. *)
Theorem mode_switch_discards_velocity
    (p : Player) (v : Vector3) (settings : GameSettings)
    (cs : list CollisionBox) (f : Frame) :
  IsKeyPressed f KEY_V = true ->
  UpdatePlayer (set_velocity p v) settings cs f = UpdatePlayer p settings cs f.
Proof.
  intros HV. unfold Controller.UpdatePlayer. rewrite HV.
  destruct p as [ps vl yw pt hh rr g n].
  unfold set_noclipMode, set_velocity.
  cbn [noclipMode velocity position yaw pitch height radius isGrounded].
  destruct n;
    cbn [negb noclipMode velocity position yaw pitch height radius isGrounded].
  - (* leaving noclip *)
    unfold Controller.UpdateWalkingMode. f_equal.
    rewrite <- (WalkImpulses_reads_velocity_y
                  (mkPlayer ps (set_y vl 0) yw pt hh rr g false) (set_y v 0));
      reflexivity.
  - (* entering noclip *)
    rewrite <- (UpdateNoclipMode_ignores_velocity
                  (mkPlayer ps vl yw pt hh rr g true) v).
    reflexivity.
Qed.

(** X5.  There is no jump in the air: for a player that is not grounded
    the walking update gives the same result whether or not the jump
    key is pressed on the frame. *)
Theorem airborne_jump_is_ignored
    (p : Player) (ms sens : Q) (cs : list CollisionBox) (f : Frame) :
  p.(isGrounded) = false ->
  UpdateWalkingMode p ms sens cs (WithJumpPressed f true)
  = UpdateWalkingMode p ms sens cs (WithJumpPressed f false).
Proof.
  intros Hair. unfold Controller.UpdateWalkingMode.
  rewrite !WalkImpulses_eq. cbv zeta. rewrite Hair, !andb_false_r.
  reflexivity.
Qed.

(** ** What a grounded frame guarantees *)

(** X6.  How a walking frame ends.  A frame ends grounded only when it
    was not rising (vertical velocity at most 0.01 after gravity and
    jump); it then ends with
    zero vertical velocity, the feet at or above the plane, and the eye
    at most 0.05 below the candidate position (snapping never drops the
    player by more than the tolerance); its horizontal position is the
    pushed candidate.  A frame that ends not grounded ends exactly at
    the candidate with the velocity of the impulses, and if it was not
    rising its feet are more than 0.05 above the plane. *)
Theorem walking_frame_outcome
    (p : Player) (ms sens : Q) (cs : list CollisionBox) (f : Frame) :
  let pA := WalkImpulses p ms sens f in
  let cand := WalkCandidate pA cs (GetFrameTime f) in
  let q := UpdateWalkingMode p ms sens cs f in
  (q.(isGrounded) = true ->
   pA.(velocity).(y) <= 0.01 /\
   q.(velocity).(y) = 0 /\
   GROUND_LEVEL <= q.(position).(y) - q.(height) /\
   cand.(y) - 0.05 <= q.(position).(y) /\
   q.(position).(x) = cand.(x) /\ q.(position).(z) = cand.(z)) /\
  (q.(isGrounded) = false ->
   q.(velocity) = pA.(velocity) /\
   q.(position) = cand /\
   (pA.(velocity).(y) <= 0.01 ->
    GROUND_LEVEL + 0.05 < q.(position).(y) - q.(height))).
Proof.
  intros pA cand q.
  assert (Hq : q = Controller.WalkMove pA cs (GetFrameTime f)) by reflexivity.
  destruct (WalkMove_frame pA cs (GetFrameTime f))
    as (Hh & _ & _ & _ & _ & Hx & Hz).
  rewrite <- Hq in Hh, Hx, Hz. fold cand in Hx, Hz.
  destruct (Qlt_le_dec 0.01 pA.(velocity).(y)) as [Hrise | Hfall].
  - (* rising: never grounded *)
    destruct (WalkMove_airborne pA cs (GetFrameTime f)) as (Hp & Hv & Hg);
      [right; exact Hrise |].
    rewrite <- Hq in Hp, Hv, Hg. fold cand in Hp.
    split; intros Hgr; [congruence |].
    splits; trivial. intros Hle. lra.
  - destruct (FindGround_highest cs cand pA.(radius) pA.(height)
                pA.(velocity).(y) Hfall) as (Hiff & Hbest).
    destruct (FindGround cs cand pA.(radius) pA.(height) pA.(velocity).(y))
      as [found g] eqn:Hfg.
    cbn [fst snd] in Hiff, Hbest. destruct found.
    + (* landing *)
      destruct (WalkMove_landed pA cs (GetFrameTime f) g Hfg Hfall)
        as (Hy & Hv & Hg).
      rewrite <- Hq in Hy, Hv, Hg.
      split; intros Hgr; [| congruence].
      destruct (Hbest eq_refl) as (Hqual & Hmax).
      assert (Hg0 : GROUND_LEVEL <= g /\ cand.(y) - pA.(height) <= g + 0.05).
      { destruct Hqual as [(Hplane & ->) | (b & Hin & (_ & Hlo & Hhi) & ->)].
        - unfold PlaneQualifies in Hplane. split; lra.
        - split; [| lra].
          destruct (Qlt_le_dec (GROUND_LEVEL + 0.05) (cand.(y) - pA.(height)))
            as [Hhigh | Hlow]; [q_consts; lra |].
          apply Hmax. left. split; [exact Hlow | reflexivity]. }
      rewrite Hy, Hh. splits; trivial; lra.
    + (* no ground found *)
      destruct (WalkMove_airborne pA cs (GetFrameTime f)) as (Hp & Hv & Hg).
      { left. fold cand. rewrite Hfg. reflexivity. }
      rewrite <- Hq in Hp, Hv, Hg. fold cand in Hp.
      split; intros Hgr; [congruence |].
      splits; trivial. intros _. rewrite Hp, Hh.
      apply Qnot_le_lt. intros Hplane.
      assert (Hfound : false = true); [| discriminate].
      apply Hiff. exists GROUND_LEVEL. left. split; [exact Hplane | reflexivity].
Qed.

(** ** What never changes, and how the mode changes *)

Lemma UpdateNoclipMode_size (p : Player) (ms sens : Q) (f : Frame) :
  let q := UpdateNoclipMode p ms sens f in
  q.(height) = p.(height) /\ q.(radius) = p.(radius).
Proof.
  destruct (UpdateCameraLook_frame p sens f) as (_ & _ & Hh & Hr & _).
  unfold Controller.UpdateNoclipMode. cbv zeta.
  cbn [height radius set_position set_velocity set_isGrounded]. auto.
Qed.

Lemma UpdatePlayer_frame
    (p : Player) (settings : GameSettings) (cs : list CollisionBox) (f : Frame) :
  let q := UpdatePlayer p settings cs f in
  q.(height) = p.(height) /\ q.(radius) = p.(radius) /\
  q.(noclipMode) = xorb p.(noclipMode) (IsKeyPressed f KEY_V).
Proof.
  cbv zeta. unfold Controller.UpdatePlayer.
  set (p' := if IsKeyPressed f KEY_V then _ else p).
  assert (Hp' : p'.(height) = p.(height) /\ p'.(radius) = p.(radius) /\
                p'.(noclipMode) = xorb p.(noclipMode) (IsKeyPressed f KEY_V)).
  { subst p'. destruct p as [ps vl yw pt hh rr g n].
    destruct (IsKeyPressed f KEY_V), n; cbn; auto. }
  destruct Hp' as (Hh & Hr & Hn). rewrite <- Hh, <- Hr, <- Hn.
  destruct (noclipMode p') eqn:Hmode.
  - destruct (UpdateNoclipMode_size p' (moveSpeed settings * 1.5)
                (mouseSensitivity settings) f) as (Hh' & Hr').
    destruct (UpdateNoclipMode_frame sqrtf cosf sinf DEG2RAD p'
                (moveSpeed settings * 1.5) (mouseSensitivity settings) f)
      as (_ & _ & _ & Hn').
    splits; congruence.
  - destruct (UpdateWalkingMode_frame sqrtf cosf sinf DEG2RAD p'
                (moveSpeed settings) (mouseSensitivity settings) cs f)
      as (Hh' & Hr' & _ & Hn').
    splits; congruence.
Qed.

(** X7.  Over any run of game-loop frames the player's height and radius
    never change, and the mode at the end is the mode at the start
    flipped once for every frame on which V was pressed. *)
Theorem size_is_constant_and_mode_counts_presses
    (settings : GameSettings) (cs : list CollisionBox)
    (frames : list Frame) (p : Player) :
  let q := PlayFrames p settings cs frames in
  q.(height) = p.(height) /\ q.(radius) = p.(radius) /\
  q.(noclipMode)
  = fold_left (fun mode f => xorb mode (IsKeyPressed f KEY_V))
              frames p.(noclipMode).
Proof.
  revert p. induction frames as [| f rest IH]; intros p.
  - cbn. auto.
  - cbn [PlayFrames fold_left].
    destruct (UpdatePlayer_frame p settings cs f) as (Hh & Hr & Hn).
    destruct (IH (UpdatePlayer p settings cs f)) as (Hh' & Hr' & Hn').
    cbv zeta in *. cbn [PlayFrames]. rewrite <- Hn, <- Hh, <- Hr. auto.
Qed.


(** ** The move intent *)

Lemma Vector3Normalize_zero_x (v : Vector3) :
  v.(x) == 0 -> (Vector3Normalize v).(x) == 0.
Proof.
  intros H. unfold Controller.Vector3Normalize. cbv zeta.
  destruct (_ !=? 0); cbn [x]; [nra | exact H].
Qed.

Lemma Vector3Normalize_zero_y (v : Vector3) :
  v.(y) == 0 -> (Vector3Normalize v).(y) == 0.
Proof.
  intros H. unfold Controller.Vector3Normalize. cbv zeta.
  destruct (_ !=? 0); cbn [y]; [nra | exact H].
Qed.

Lemma Vector3Normalize_zero_z (v : Vector3) :
  v.(z) == 0 -> (Vector3Normalize v).(z) == 0.
Proof.
  intros H. unfold Controller.Vector3Normalize. cbv zeta.
  destruct (_ !=? 0); cbn [z]; [nra | exact H].
Qed.

(** The raw intent is horizontal, and it vanishes when the keys cancel. *)
Lemma WalkMoveDir_components (p : Player) (sens : Q) (f : Frame) :
  let m := WalkMoveDir p sens f in
  m.(y) == 0 /\ (KeysCancel f -> m.(x) == 0 /\ m.(z) == 0).
Proof.
  cbv zeta. unfold Intent.WalkMoveDir. cbv zeta.
  set (forward := Controller.GetFlatForwardDirection _ _ _ _ _).
  assert (Hfy : forward.(y) == 0).
  { subst forward. unfold Controller.GetFlatForwardDirection.
    apply Vector3Normalize_zero_y. reflexivity. }
  set (right := Controller.Vector3Normalize _ _).
  assert (Hry : right.(y) == 0).
  { subst right. apply Vector3Normalize_zero_y.
    unfold Vector3CrossProduct. cbn [x y z]. ring. }
  clearbody forward right. unfold KeysCancel.
  destruct (IsKeyDown f KEY_W), (IsKeyDown f KEY_S),
           (IsKeyDown f KEY_A), (IsKeyDown f KEY_D);
    unfold Vector3Add, Vector3Subtract; cbn [x y z];
    (split; [lra | intros (H1 & H2); try discriminate; split; ring]).
Qed.

Lemma WalkDirection_zero (p : Player) (sens : Q) (f : Frame) :
  KeysCancel f ->
  (WalkDirection p sens f).(x) == 0 /\ (WalkDirection p sens f).(z) == 0.
Proof.
  intros Hk.
  destruct (WalkMoveDir_components p sens f) as (_ & Hm).
  destruct (Hm Hk) as (Hx & Hz).
  unfold Intent.WalkDirection. cbv zeta.
  destruct (_ >? 0); [| auto].
  split; [apply Vector3Normalize_zero_x | apply Vector3Normalize_zero_z];
    assumption.
Qed.

(** X8.  Opposite keys cancel: when W and S are both held or both
    released, and likewise A and D, the walking frame ends with zero
    horizontal velocity, and over a scene without obstacles the player
    does not move horizontally. *)
Theorem cancelling_keys_give_no_horizontal_motion
    (p : Player) (ms sens : Q) (cs : list CollisionBox) (f : Frame) :
  KeysCancel f ->
  let q := UpdateWalkingMode p ms sens cs f in
  let q0 := UpdateWalkingMode p ms sens [] f in
  q.(velocity).(x) == 0 /\ q.(velocity).(z) == 0 /\
  q0.(position).(x) == p.(position).(x) /\
  q0.(position).(z) == p.(position).(z).
Proof.
  intros Hk q q0.
  destruct (WalkDirection_zero p sens f Hk) as (Hdx & Hdz).
  assert (HA : (WalkImpulses p ms sens f).(velocity).(x) == 0 /\
               (WalkImpulses p ms sens f).(velocity).(z) == 0 /\
               (WalkImpulses p ms sens f).(position) = p.(position)).
  { rewrite WalkImpulses_eq. cbv zeta. cbn [velocity position x z].
    rewrite Hdx, Hdz. splits; try reflexivity; apply Qmult_0_l. }
  destruct HA as (Hvx & Hvz & Hpos).
  set (pA := WalkImpulses p ms sens f) in *.
  assert (Hvel : forall cs', (Controller.WalkMove pA cs' (GetFrameTime f)).(velocity).(x)
                             = pA.(velocity).(x) /\
                             (Controller.WalkMove pA cs' (GetFrameTime f)).(velocity).(z)
                             = pA.(velocity).(z)).
  { intros cs'. rewrite WalkMove_eq. cbv zeta.
    destruct (FindGround _ _ _ _ _) as [found g].
    destruct (found && _); cbn; auto. }
  destruct (Hvel cs) as (Hqx & Hqz).
  destruct (WalkMove_frame pA [] (GetFrameTime f))
    as (_ & _ & _ & _ & _ & Hx0 & Hz0).
  rewrite WalkCandidate_eq in Hx0, Hz0. cbv zeta in Hx0, Hz0.
  cbn [HorizontalCollisions fold_left WalkStart set_y x z] in Hx0, Hz0.
  unfold q, q0, Controller.UpdateWalkingMode. fold pA.
  rewrite Hqx, Hqz, Hx0, Hz0, Hpos, Hvx, Hvz. splits; try reflexivity; ring.
Qed.

(** X9.  Walking speed does not depend on how many keys are held.  When
    the square root is positive at the squared length of the raw intent
    and its square is within one part in 2^20 of that squared length,
    as the square of a single-precision square root is, the squared
    length of the horizontal velocity after the frame is within one
    part in 2^19 of [currentSpeed * currentSpeed], where the speed is
    [moveSpeed], doubled while Ctrl is held: a diagonal is no faster
    than a straight line.  The bound is proved in exact arithmetic and
    leaves room for the roundings of the products. *)
Theorem walking_speed_is_current_speed
    (p : Player) (ms sens : Q) (cs : list CollisionBox) (f : Frame) :
  let m := WalkMoveDir p sens f in
  let n := m.(x) * m.(x) + m.(y) * m.(y) + m.(z) * m.(z) in
  let len := sqrtf n in
  0 < len ->
  Qabs (len * len - n) <= (1 # 1048576) * n ->
  let q := UpdateWalkingMode p ms sens cs f in
  let s := Intent.WalkSpeed ms f in
  Qabs (q.(velocity).(x) * q.(velocity).(x)
        + q.(velocity).(z) * q.(velocity).(z) - s * s)
  <= (1 # 524288) * (s * s).
Proof.
  intros m n len Hpos Hsq q s.
  destruct (WalkMoveDir_components p sens f) as (Hmy & _). fold m in Hmy.
  assert (Hd : WalkDirection p sens f
               = vec3 (m.(x) * (1 / len)) (m.(y) * (1 / len)) (m.(z) * (1 / len))).
  { unfold Intent.WalkDirection, Controller.Vector3Length,
      Controller.Vector3Normalize. cbv zeta. fold m. fold n. fold len.
    assert ((len >? 0) = true) as -> by (apply gt_true; exact Hpos).
    assert ((len !=? 0) = true) as ->; [| reflexivity].
    unfold Cmp.ne. apply negb_true_iff, not_true_iff_false.
    rewrite Qeq_bool_iff. lra. }
  set (pA := WalkImpulses p ms sens f).
  assert (HA : pA.(velocity).(x) = m.(x) * (1 / len) * s /\
               pA.(velocity).(z) = m.(z) * (1 / len) * s).
  { subst pA. rewrite WalkImpulses_eq. cbv zeta. cbn [velocity x z].
    rewrite Hd. cbn [x z]. auto. }
  destruct HA as (Hvx & Hvz).
  assert (Hq : q.(velocity).(x) = pA.(velocity).(x) /\
               q.(velocity).(z) = pA.(velocity).(z)).
  { unfold q, Controller.UpdateWalkingMode. fold pA.
    rewrite WalkMove_eq. cbv zeta.
    destruct (FindGround _ _ _ _ _) as [found g].
    destruct (found && _); cbn; auto. }
  destruct Hq as (Hqx & Hqz). rewrite Hqx, Hqz, Hvx, Hvz.
  assert (Hn : n == m.(x) * m.(x) + m.(z) * m.(z)).
  { subst n. rewrite Hmy. ring. }
  assert (Hne : ~ len == 0) by lra.
  assert (HL : 0 < len * len) by nra.
  apply Qabs_Qle_condition in Hsq.
  set (L := len * len) in *.
  set (t := s * s).
  assert (Ht : 0 <= t) by (subst t; nra).
  assert (Hv : m.(x) * (1 / len) * s * (m.(x) * (1 / len) * s)
               + m.(z) * (1 / len) * s * (m.(z) * (1 / len) * s) - t
               == (n - L) / L * t).
  { rewrite Hn. subst L t. field. exact Hne. }
  rewrite Hv. clearbody L t. clear Hv.
  assert (Hw : - (1 # 524288) <= (n - L) / L <= 1 # 524288).
  { split; [apply Qle_shift_div_l | apply Qle_shift_div_r]; lra. }
  set (w := (n - L) / L) in *. clearbody w.
  apply Qabs_Qle_condition. split; nra.
Qed.


End MoreProperties.

(** * The performance monitor *)

Lemma lastn_short {A : Type} (n : nat) (l : list A) :
  (length l <= n)%nat -> Perf.lastn n l = l.
Proof.
  intros H. unfold Perf.lastn.
  replace (length l - n)%nat with 0%nat by lia. reflexivity.
Qed.

Lemma lastn_length {A : Type} (n : nat) (l : list A) :
  length (Perf.lastn n l) = Nat.min (length l) n.
Proof. unfold Perf.lastn. rewrite length_skipn. lia. Qed.

Lemma lastn_app_lastn {A : Type} (n : nat) (l l' : list A) :
  Perf.lastn n (Perf.lastn n l ++ l') = Perf.lastn n (l ++ l').
Proof.
  destruct (Nat.le_gt_cases (length l) n) as [Hle | Hgt].
  - rewrite (lastn_short n l Hle). reflexivity.
  - unfold Perf.lastn at 1 3. rewrite !length_app.
    fold (Perf.lastn n l). rewrite lastn_length.
    replace (Nat.min (length l) n) with n by lia.
    replace (length l + length l' - n)%nat
      with ((n + length l' - n) + (length l - n))%nat by lia.
    rewrite <- skipn_skipn. f_equal.
    rewrite skipn_app.
    replace (length l - n - length l)%nat with 0%nat by lia.
    reflexivity.
Qed.

Lemma Update_history (s : Perf.PerformanceStats) (dt : Q) :
  (Perf.Update s dt).(Perf.frameTimeHistory)
  = let pushed := s.(Perf.frameTimeHistory) ++ [dt * 1000] in
    if Nat.ltb Perf.HISTORY_SIZE (length pushed) then tl pushed else pushed.
Proof.
  unfold Perf.Update. cbv zeta.
  destruct (if Nat.ltb _ _ then _ else _) as [| ft rest]; [reflexivity |].
  destruct (fold_left Perf.Accumulate _ _) as [[sum mn] mx]. reflexivity.
Qed.

Lemma Update_history_window (s : Perf.PerformanceStats) (dt : Q) :
  (length s.(Perf.frameTimeHistory) <= Perf.HISTORY_SIZE)%nat ->
  (Perf.Update s dt).(Perf.frameTimeHistory)
  = Perf.lastn Perf.HISTORY_SIZE (s.(Perf.frameTimeHistory) ++ [dt * 1000]).
Proof.
  intros Hlen. rewrite Update_history. cbv zeta.
  set (pushed := _ ++ [_]).
  assert (Hp : length pushed = S (length s.(Perf.frameTimeHistory))).
  { subst pushed. rewrite length_app. cbn. lia. }
  destruct (Nat.ltb _ _) eqn:Hfull.
  - apply Nat.ltb_lt in Hfull. unfold Perf.lastn.
    replace (length pushed - Perf.HISTORY_SIZE)%nat with 1%nat by lia.
    destruct pushed; reflexivity.
  - apply Nat.ltb_ge in Hfull. symmetry. apply lastn_short. exact Hfull.
Qed.

(** X10.  The frame-time history is a sliding window: starting from a
    history of at most 120 entries, after any number of updates it holds
    exactly the last 120 of the old entries followed by the new frame
    times in milliseconds, oldest first; it never grows beyond 120
    entries, and it is empty only before the first update. *)
Theorem history_is_sliding_window
    (dts : list Q) (s : Perf.PerformanceStats) :
  (length s.(Perf.frameTimeHistory) <= Perf.HISTORY_SIZE)%nat ->
  let s' := Perf.UpdateAll s dts in
  s'.(Perf.frameTimeHistory)
  = Perf.lastn Perf.HISTORY_SIZE
      (s.(Perf.frameTimeHistory) ++ map (fun dt => dt * 1000) dts) /\
  (length s'.(Perf.frameTimeHistory) <= Perf.HISTORY_SIZE)%nat /\
  (dts <> [] -> s'.(Perf.frameTimeHistory) <> []).
Proof.
  intros Hlen s'.
  assert (Hwin : s'.(Perf.frameTimeHistory)
                 = Perf.lastn Perf.HISTORY_SIZE
                     (s.(Perf.frameTimeHistory) ++ map (fun dt => dt * 1000) dts)).
  { subst s'. revert s Hlen. unfold Perf.UpdateAll.
    induction dts as [| dt rest IH]; intros s Hlen; cbn [fold_left map].
    - rewrite app_nil_r. symmetry. apply lastn_short. exact Hlen.
    - rewrite IH.
      + rewrite Update_history_window by exact Hlen.
        rewrite lastn_app_lastn, <- app_assoc. reflexivity.
      + rewrite Update_history_window by exact Hlen.
        rewrite lastn_length. lia. }
  splits; trivial.
  - rewrite Hwin, lastn_length. lia.
  - intros Hne Hnil. apply (f_equal (@length Q)) in Hnil.
    rewrite Hwin, lastn_length, length_app, length_map in Hnil.
    destruct dts; [contradiction |]. cbn in Hnil. unfold Perf.HISTORY_SIZE in Hnil.
    lia.
Qed.

(** The loop over the history, from any starting triple. *)
Lemma Accumulate_fold (l : list Q) :
  forall sum0 mn0 mx0 : Q,
  let '(sum, mn, mx) := fold_left Perf.Accumulate l (sum0, mn0, mx0) in
  mn <= mn0 /\ mx0 <= mx /\
  (forall ft, In ft l -> mn <= ft <= mx) /\
  (mn == mn0 \/ exists ft, In ft l /\ mn == ft) /\
  (mx == mx0 \/ exists ft, In ft l /\ mx == ft) /\
  sum0 + inject_Z (Z.of_nat (length l)) * mn <= sum /\
  sum <= sum0 + inject_Z (Z.of_nat (length l)) * mx.
Proof.
  induction l as [| ft rest IH]; intros sum0 mn0 mx0.
  - cbn [fold_left length In]. change (inject_Z (Z.of_nat 0)) with 0.
    splits; try lra; try (left; reflexivity). intros ft [].
  - cbn [fold_left Perf.Accumulate]. cbv zeta.
    set (mn1 := if ft <? mn0 then ft else mn0).
    set (mx1 := if ft >? mx0 then ft else mx0).
    assert (Hmn1 : mn1 <= mn0 /\ mn1 <= ft /\ (mn1 = mn0 \/ mn1 = ft))
      by (subst mn1; destruct (ft <? mn0) eqn:E; cmp_props; splits; auto; lra).
    assert (Hmx1 : mx0 <= mx1 /\ ft <= mx1 /\ (mx1 = mx0 \/ mx1 = ft))
      by (subst mx1; destruct (ft >? mx0) eqn:E; cmp_props; splits; auto; lra).
    clearbody mn1 mx1.
    specialize (IH (sum0 + ft) mn1 mx1).
    destruct (fold_left Perf.Accumulate rest (sum0 + ft, mn1, mx1))
      as [[sum mn] mx].
    destruct IH as (Hmn & Hmx & Hall & Hwmn & Hwmx & Hlo & Hhi).
    destruct Hmn1 as (Hmn1 & Hmn1' & Hmn1w).
    destruct Hmx1 as (Hmx1 & Hmx1' & Hmx1w).
    cbn [length In]. rewrite Nat2Z.inj_succ, <- Z.add_1_r, inject_Z_plus.
    change (inject_Z 1) with 1.
    splits; try lra.
    + intros ft' [<- | Hin]; [lra | apply Hall; exact Hin].
    + destruct Hwmn as [Hw | (ft' & Hin & Hw)].
      * destruct Hmn1w as [E | E]; [left; rewrite <- E; exact Hw |].
        right. exists ft. split; [left; reflexivity |].
        rewrite <- E. exact Hw.
      * right. exists ft'. split; [right; exact Hin | exact Hw].
    + destruct Hwmx as [Hw | (ft' & Hin & Hw)].
      * destruct Hmx1w as [E | E]; [left; rewrite <- E; exact Hw |].
        right. exists ft. split; [left; reflexivity |].
        rewrite <- E. exact Hw.
      * right. exists ft'. split; [right; exact Hin | exact Hw].
Qed.

(** Every field of the updated record, from the new history. *)
Lemma Update_fields (s : Perf.PerformanceStats) (dt : Q) :
  exists (ft : Q) (rest : list Q) (sum mn mx : Q),
    (Perf.Update s dt).(Perf.frameTimeHistory) = ft :: rest /\
    In (dt * 1000) (ft :: rest) /\
    incl (ft :: rest) (s.(Perf.frameTimeHistory) ++ [dt * 1000]) /\
    fold_left Perf.Accumulate (ft :: rest) (0, 9999, 0) = (sum, mn, mx) /\
    let avg := sum / inject_Z (Z.of_nat (length (ft :: rest))) in
    Perf.Update s dt =
    Perf.mkStats (ft :: rest)
      (if dt >? 0 then 1 / dt else 0)
      (if avg >? 0 then 1000 / avg else 0)
      (if mx >? 0 then 1000 / mx else 0)
      (if mn >? 0 then 1000 / mn else 0)
      (dt * 1000) avg mn mx
      (s.(Perf.frameCount) + 1) (s.(Perf.totalTime) + dt)
      s.(Perf.drawCalls) s.(Perf.collisionChecks).
Proof.
  pose proof (Update_history s dt) as Hh. cbv zeta in Hh.
  unfold Perf.Update in *. cbv zeta in *.
  set (pushed := s.(Perf.frameTimeHistory) ++ [dt * 1000]) in *.
  set (hist := if Nat.ltb _ _ then tl pushed else pushed) in *.
  assert (Hin : In (dt * 1000) hist /\ incl hist pushed).
  { subst hist. destruct (Nat.ltb _ _) eqn:Hfull.
    - apply Nat.ltb_lt in Hfull. subst pushed.
      destruct (Perf.frameTimeHistory s) as [| a l].
      + cbn in Hfull. unfold Perf.HISTORY_SIZE in Hfull. lia.
      + cbn [app tl]. split; [apply in_or_app; right; left; reflexivity |].
        intros e He. right. exact He.
    - split; [subst pushed; apply in_or_app; right; left; reflexivity |].
      apply incl_refl. }
  destruct Hin as (Hin & Hincl). clearbody hist.
  destruct hist as [| ft rest]; [destruct Hin |].
  destruct (fold_left Perf.Accumulate (ft :: rest) (0, 9999, 0))
    as [[sum mn] mx] eqn:Hfold.
  exists ft, rest, sum, mn, mx. splits; trivial.
Qed.

Lemma count_positive (A : Type) (a : A) (l : list A) :
  0 < inject_Z (Z.of_nat (length (a :: l))).
Proof.
  change 0 with (inject_Z 0). rewrite <- Zlt_Qlt. cbn [length]. lia.
Qed.

(** X11.  After every update the minimum and the maximum frame time
    bracket every entry of the history; the frame time of this update
    is in the history; the minimum is at most its start value 9999 and
    the maximum at least its start value 0; and when every entry lies
    between 0 and 9999 ms both are entries of the history.  (The
    average is a rounded sum divided by the count and is not claimed to
    lie between the two.) *)
Theorem frame_time_stats_bracket_history
    (s : Perf.PerformanceStats) (dt : Q) :
  let s' := Perf.Update s dt in
  let h := s'.(Perf.frameTimeHistory) in
  In (dt * 1000) h /\
  (forall ft, In ft h ->
     s'.(Perf.minFrameTime) <= ft <= s'.(Perf.maxFrameTime)) /\
  s'.(Perf.minFrameTime) <= 9999 /\ 0 <= s'.(Perf.maxFrameTime) /\
  (Forall (fun ft => 0 <= ft <= 9999) h ->
   (exists ft, In ft h /\ s'.(Perf.minFrameTime) == ft) /\
   (exists ft, In ft h /\ s'.(Perf.maxFrameTime) == ft)).
Proof.
  cbv zeta.
  destruct (Update_fields s dt)
    as (ft & rest & sum & mn & mx & Hh & Hin & _ & Hfold & Hrec).
  cbv zeta in Hrec. rewrite Hrec.
  cbn [Perf.frameTimeHistory Perf.minFrameTime Perf.maxFrameTime].
  pose proof (Accumulate_fold (ft :: rest) 0 9999 0) as Hacc.
  rewrite Hfold in Hacc.
  destruct Hacc as (Hmn & Hmx & Hall & Hwmn & Hwmx & Hlo & Hhi).
  splits; trivial.
  - intros Hrange.
    assert (Hft : 0 <= ft <= 9999)
      by (apply (proj1 (Forall_forall _ _) Hrange); left; reflexivity).
    pose proof (Hall ft (or_introl eq_refl)) as Hb.
    split.
    + destruct Hwmn as [Hw | Hw]; [| exact Hw].
      exists ft. split; [left; reflexivity | lra].
    + destruct Hwmx as [Hw | Hw]; [| exact Hw].
      exists ft. split; [left; reflexivity | lra].
Qed.

Lemma inverse_order (a b : Q) : 0 < a -> a <= b -> 1000 / b <= 1000 / a.
Proof.
  intros Ha Hab. apply Qle_shift_div_r; [lra |].
  assert (H : 1000 / a * b == 1000 + 1000 * (b - a) / a) by (field; lra).
  rewrite H.
  assert (0 <= 1000 * (b - a) / a) by (apply Qle_shift_div_l; lra).
  lra.
Qed.

(** X12.  With positive frame times throughout the window the reported
    rates are positive, the lowest rate is at most the highest, each is
    1000 over the other end of the frame times, and the current rate is
    the inverse of the frame time.  (The average rate comes from a
    rounded sum and is not claimed to lie between the two.) *)
Theorem frame_rates_are_ordered
    (s : Perf.PerformanceStats) (dt : Q) :
  Forall (fun ft => 0 < ft) s.(Perf.frameTimeHistory) ->
  0 < dt ->
  let s' := Perf.Update s dt in
  0 < s'.(Perf.minFPS) /\ 0 < s'.(Perf.avgFPS) /\
  s'.(Perf.minFPS) <= s'.(Perf.maxFPS) /\
  s'.(Perf.minFPS) = 1000 / s'.(Perf.maxFrameTime) /\
  s'.(Perf.maxFPS) = 1000 / s'.(Perf.minFrameTime) /\
  s'.(Perf.currentFPS) = 1 / dt.
Proof.
  intros Hpos Hdt. cbv zeta.
  destruct (Update_fields s dt)
    as (ft & rest & sum & mn & mx & Hh & Hin & Hincl & Hfold & Hrec).
  cbv zeta in Hrec. rewrite Hrec.
  cbn [Perf.minFPS Perf.avgFPS Perf.maxFPS Perf.currentFPS
       Perf.minFrameTime Perf.maxFrameTime].
  pose proof (Accumulate_fold (ft :: rest) 0 9999 0) as Hacc.
  rewrite Hfold in Hacc.
  destruct Hacc as (Hmn & Hmx & Hall & Hwmn & Hwmx & Hlo & Hhi).
  pose proof (count_positive Q ft rest) as Hn.
  set (n := inject_Z (Z.of_nat (length (ft :: rest)))) in *.
  assert (Hallpos : forall e, In e (ft :: rest) -> 0 < e).
  { intros e He. apply Hincl in He. apply in_app_or in He.
    destruct He as [He | [<- | []]]; [| lra].
    apply (proj1 (Forall_forall _ _) Hpos). exact He. }
  assert (Hmnpos : 0 < mn).
  { destruct Hwmn as [Hw | (e & He & Hw)]; [lra |].
    specialize (Hallpos e He). lra. }
  assert (Havg : mn <= sum / n <= mx).
  { split; [apply Qle_shift_div_l | apply Qle_shift_div_r]; lra. }
  assert (Hmxpos : 0 < mx) by lra.
  assert ((sum / n >? 0) = true) as -> by (apply gt_true; lra).
  assert ((mx >? 0) = true) as -> by (apply gt_true; lra).
  assert ((mn >? 0) = true) as -> by (apply gt_true; lra).
  assert ((dt >? 0) = true) as -> by (apply gt_true; lra).
  splits; trivial.
  - apply Qlt_shift_div_l; lra.
  - apply Qlt_shift_div_l; lra.
  - apply inverse_order; lra.
Qed.

(** X13.  The guards on the divisions: an update with a frame time of
    zero (or below) reports a current rate of 0, a minimum frame time
    that is not positive, and therefore a maximum rate of 0. *)
Theorem zero_frame_time_reports_zero_rates
    (s : Perf.PerformanceStats) (dt : Q) :
  dt <= 0 ->
  let s' := Perf.Update s dt in
  s'.(Perf.currentFPS) = 0 /\
  s'.(Perf.minFrameTime) <= 0 /\
  s'.(Perf.maxFPS) = 0.
Proof.
  intros Hdt. cbv zeta.
  destruct (Update_fields s dt)
    as (ft & rest & sum & mn & mx & Hh & Hin & Hincl & Hfold & Hrec).
  cbv zeta in Hrec. rewrite Hrec.
  cbn [Perf.minFrameTime Perf.maxFPS Perf.currentFPS].
  pose proof (Accumulate_fold (ft :: rest) 0 9999 0) as Hacc.
  rewrite Hfold in Hacc.
  destruct Hacc as (_ & _ & Hall & _).
  specialize (Hall _ Hin).
  assert ((dt >? 0) = false) as -> by (apply gt_false; exact Hdt).
  assert (Hmn : mn <= 0) by lra.
  assert ((mn >? 0) = false) as -> by (apply gt_false; exact Hmn).
  auto.
Qed.

(** X14.  The monitor of [shader_test.cpp] is the same computation: on
    the fields the two structures share, its [Update] gives what the
    [Update] of [main.cpp] gives. *)
Theorem shader_test_monitor_agrees
    (s : Perf.PerformanceStats) (dt : Q) :
  ShaderPerf.Update (ShaderPerf.ofMain s) dt
  = ShaderPerf.ofMain (Perf.Update s dt).
Proof.
  destruct (Update_fields s dt)
    as (ft & rest & sum & mn & mx & Hh & _ & _ & Hfold & Hrec).
  cbv zeta in Hrec. rewrite Hrec.
  pose proof (Update_history s dt) as Hh'. cbv zeta in Hh'.
  rewrite Hh in Hh'.
  unfold ShaderPerf.Update, ShaderPerf.ofMain. cbv zeta.
  cbn [ShaderPerf.history ShaderPerf.avgMs ShaderPerf.minMs ShaderPerf.maxMs
       ShaderPerf.avgFps ShaderPerf.minFps ShaderPerf.maxFps ShaderPerf.frames
       Perf.frameTimeHistory Perf.currentFPS Perf.avgFPS Perf.minFPS
       Perf.maxFPS Perf.currentFrameTime Perf.avgFrameTime Perf.minFrameTime
       Perf.maxFrameTime Perf.frameCount].
  change ShaderPerf.SIZE with Perf.HISTORY_SIZE. rewrite <- Hh'.
  change ShaderPerf.Accumulate with Perf.Accumulate. rewrite Hfold.
  reflexivity.
Qed.

(** * The frame-time graph *)

Lemma float_to_int_floor (q : Q) : 0 <= q -> Graph.float_to_int q = Qfloor q.
Proof.
  destruct q as [n d]. unfold Qle, Graph.float_to_int, Qfloor. cbn.
  intros H. apply Z.quot_div_nonneg; lia.
Qed.

Lemma float_to_int_bounds (q : Q) (lo hi : Z) :
  0 <= q -> inject_Z lo <= q -> q < inject_Z (hi + 1) ->
  (lo <= Graph.float_to_int q <= hi)%Z.
Proof.
  intros H0 Hlo Hhi. rewrite float_to_int_floor by exact H0.
  split.
  - rewrite <- (Qfloor_Z lo). apply Qfloor_resp_le. exact Hlo.
  - pose proof (Qfloor_le q) as Hfl.
    assert (Hlt : inject_Z (Qfloor q) < inject_Z (hi + 1)) by lra.
    rewrite <- Zlt_Qlt in Hlt. lia.
Qed.

(** The clamped height of a bar, before the cast. *)
Lemma bar_height_range (ft : Q) :
  0 <= ft ->
  let raw := (ft / 33.33) * inject_Z Graph.graphHeight in
  let nh := if raw >? inject_Z Graph.graphHeight
            then inject_Z Graph.graphHeight else raw in
  0 <= nh <= 50 /\ (33.33 <= ft -> nh == 50) /\ (ft < 33.33 -> nh < 50).
Proof.
  intros Hft. cbv zeta. unfold Graph.graphHeight.
  change (inject_Z 50) with 50.
  unfold Qdiv. change (/ 33.33) with (100 # 3333).
  destruct (_ >? 50) eqn:Hc; cmp_props;
    (split; [split; lra | split; intros H; lra]).
Qed.

Lemma bar_inside (debugX debugY i : Z) (ft : Q) :
  (0 <= i < 120)%Z -> 0 <= ft ->
  Graph.InsideGraph debugX debugY (Graph.Bar debugX debugY i ft).
Proof.
  intros Hi Hft. unfold Graph.InsideGraph, Graph.Bar. cbv zeta.
  cbn [Graph.posX Graph.posY Graph.width Graph.height].
  destruct (bar_height_range ft Hft) as ((Hnh0 & Hnh1) & _). cbv zeta in *.
  set (nh := if _ >? inject_Z Graph.graphHeight then _ else _) in *.
  clearbody nh.
  set (barWidth := inject_Z Graph.graphWidth / _).
  assert (Hbw : barWidth == 7 # 3) by reflexivity.
  assert (Hw : Graph.float_to_int barWidth = 2%Z) by reflexivity.
  assert (Hx : (0 <= Graph.float_to_int (inject_Z i * barWidth) <= 277)%Z).
  { assert (Hi0 : inject_Z 0 <= inject_Z i) by (rewrite <- Zle_Qle; lia).
    assert (Hi1 : inject_Z i <= inject_Z 119) by (rewrite <- Zle_Qle; lia).
    change (inject_Z 0) with 0 in Hi0. change (inject_Z 119) with 119 in Hi1.
    set (qi := inject_Z i) in *. clearbody qi barWidth.
    apply float_to_int_bounds; rewrite Hbw;
      [| change (inject_Z 0) with 0 | change (inject_Z (277 + 1)) with 278]; lra. }
  assert (Hh : (0 <= Graph.float_to_int nh <= 50)%Z).
  { apply float_to_int_bounds;
      [| change (inject_Z 0) with 0 | change (inject_Z (50 + 1)) with 51]; lra. }
  rewrite Hw. unfold Graph.graphWidth, Graph.graphHeight. lia.
Qed.

(** X15.  For a history of at most 120 frame times, none negative, the
    overlay draws one bar per entry and every bar lies inside the
    280 x 50 graph rectangle, standing on its lower edge. *)
Theorem graph_bars_stay_inside_graph
    (debugX debugY : Z) (history : list Q) :
  (length history <= Perf.HISTORY_SIZE)%nat ->
  Forall (fun ft => 0 <= ft) history ->
  length (Graph.Bars debugX debugY history) = length history /\
  Forall (Graph.InsideGraph debugX debugY) (Graph.Bars debugX debugY history).
Proof.
  intros Hlen Hpos.
  assert (Hfrom : forall (l : list Q) (i : Z),
             (0 <= i)%Z -> (i + Z.of_nat (length l) <= 120)%Z ->
             Forall (fun ft => 0 <= ft) l ->
             length (Graph.BarsFrom debugX debugY i l) = length l /\
             Forall (Graph.InsideGraph debugX debugY)
                    (Graph.BarsFrom debugX debugY i l)).
  { induction l as [| ft rest IH]; intros i Hi Hn Hl; cbn [Graph.BarsFrom].
    - split; [reflexivity | constructor].
    - inversion Hl as [| ? ? Hft Hrest]; subst.
      cbn [length] in Hn.
      destruct (IH (i + 1)%Z) as (Hlen' & Hall'); trivial; try lia.
      split; [cbn [length]; rewrite Hlen'; reflexivity |].
      constructor; [apply bar_inside; [lia | exact Hft] | exact Hall']. }
  unfold Graph.Bars. destruct history as [| ft rest].
  - split; [reflexivity | constructor].
  - apply Hfrom; trivial; [lia |].
    unfold Perf.HISTORY_SIZE in Hlen. lia.
Qed.

(** X16.  Colour and height of a bar agree: a bar is red exactly when
    its frame time is above 33.33 ms and green exactly when it is at
    most 16.67 ms; from 33.33 ms on a bar has the full height 50, and
    for a frame time from 0 up to 33.33 ms it is lower. *)
Theorem bar_colour_matches_height
    (debugX debugY i : Z) (ft : Q) :
  let b := Graph.Bar debugX debugY i ft in
  (b.(Graph.color) = Graph.RED <-> 33.33 < ft) /\
  (b.(Graph.color) = Graph.GREEN <-> ft <= 16.67) /\
  (33.33 <= ft -> b.(Graph.height) = 50%Z) /\
  (0 <= ft -> ft < 33.33 -> (0 <= b.(Graph.height) < 50)%Z).
Proof.
  cbv zeta. unfold Graph.Bar. cbv zeta.
  cbn [Graph.color Graph.height].
  splits.
  - destruct (ft >? 33.33) eqn:H1; destruct (ft >? 16.67) eqn:H2; cmp_props;
      split; intros H; try discriminate; try reflexivity; lra.
  - destruct (ft >? 33.33) eqn:H1; destruct (ft >? 16.67) eqn:H2; cmp_props;
      split; intros H; try discriminate; try reflexivity; lra.
  - intros Hft.
    assert (H0 : 0 <= ft) by lra.
    destruct (bar_height_range ft H0) as ((Hnh0 & Hnh1) & Hfull & _).
    cbv zeta in *. specialize (Hfull Hft).
    set (nh := if _ >? inject_Z Graph.graphHeight then _ else _) in *.
    assert (Hb : (50 <= Graph.float_to_int nh <= 50)%Z).
    { apply float_to_int_bounds;
        [| change (inject_Z 50) with 50 | change (inject_Z (50 + 1)) with 51];
        lra. }
    lia.
  - intros H0 Hft.
    destruct (bar_height_range ft H0) as ((Hnh0 & Hnh1) & _ & Hlow).
    cbv zeta in *. specialize (Hlow Hft).
    set (nh := if _ >? inject_Z Graph.graphHeight then _ else _) in *.
    rewrite float_to_int_floor by exact Hnh0.
    split.
    + rewrite <- (Qfloor_Z 0). apply Qfloor_resp_le.
      change (inject_Z 0) with 0. exact Hnh0.
    + pose proof (Qfloor_le nh) as Hfl.
      assert (Hlt : inject_Z (Qfloor nh) < inject_Z 50)
        by (change (inject_Z 50) with 50; lra).
      rewrite <- Zlt_Qlt in Hlt. exact Hlt.
Qed.

(** * Window modes *)

Ltac window_calls :=
  cbv beta iota zeta delta
    [Window.SetWindowPosition Window.SetWindowSize Window.SetWindowState
     Window.ClearWindowState Window.WriteFlag Window.ToggleFullscreen
     Window.IsWindowFullscreen Window.fullscreen Window.undecorated
     Window.topmost Window.resizable Window.width Window.height
     Window.posX Window.posY negb].

Lemma ApplyWindowMode_shows
    (w : Window.State) (mw mh mode dw dh : Z) :
  Window.Shows (Window.ApplyWindowMode w mw mh mode dw dh) mode.
Proof.
  unfold Window.Shows, Window.ApplyWindowMode. cbv zeta.
  unfold Window.WINDOW_MODE_WINDOWED, Window.WINDOW_MODE_BORDERLESS,
    Window.WINDOW_MODE_EXCLUSIVE.
  destruct w as [fs ud tm rs wd ht px py].
  destruct (Z.eqb_spec mode 0) as [-> | H0];
    [destruct fs; cbn; auto |].
  destruct (Z.eqb_spec mode 1) as [-> | H1];
    [destruct fs; cbn; auto |].
  destruct (Z.eqb_spec mode 2) as [-> | H2];
    destruct fs; cbn; auto.
Qed.

(** X17.  After [ApplyWindowMode] the window shows the requested mode
    whatever it showed before: fullscreen exactly for exclusive,
    undecorated and topmost exactly for borderless, resizable for every
    other mode.  An unknown mode gives what windowed gives, and applying
    a mode a second time changes nothing. *)
Theorem apply_window_mode_shows_mode
    (w : Window.State) (mw mh mode dw dh : Z) :
  let w' := Window.ApplyWindowMode w mw mh mode dw dh in
  Window.Shows w' mode /\
  (mode <> Window.WINDOW_MODE_BORDERLESS ->
   mode <> Window.WINDOW_MODE_EXCLUSIVE ->
   w' = Window.ApplyWindowMode w mw mh Window.WINDOW_MODE_WINDOWED dw dh) /\
  Window.ApplyWindowMode w' mw mh mode dw dh = w'.
Proof.
  cbv zeta. split; [apply ApplyWindowMode_shows |].
  unfold Window.ApplyWindowMode. cbv zeta.
  unfold Window.WINDOW_MODE_WINDOWED, Window.WINDOW_MODE_BORDERLESS,
    Window.WINDOW_MODE_EXCLUSIVE.
  destruct w as [fs ud tm rs wd ht px py].
  destruct (Z.eqb_spec mode 0) as [-> | H0];
    [destruct fs; cbn; auto |].
  destruct (Z.eqb_spec mode 1) as [-> | H1];
    [destruct fs; cbn; split; auto; intros; contradiction |].
  destruct (Z.eqb_spec mode 2) as [-> | H2];
    [destruct fs; cbn; split; auto; intros; contradiction |].
  destruct fs; cbn; auto.
Qed.

(** X18.  The geometry [ApplyWindowMode] leaves: windowed (and every
    unknown mode) has the default size and is centred on the monitor to
    within one pixel on each axis; borderless covers the monitor from
    its origin; exclusive keeps the size and position it found. *)
Theorem apply_window_mode_geometry
    (w : Window.State) (mw mh mode dw dh : Z) :
  let w' := Window.ApplyWindowMode w mw mh mode dw dh in
  (mode <> Window.WINDOW_MODE_BORDERLESS ->
   mode <> Window.WINDOW_MODE_EXCLUSIVE ->
   w'.(Window.width) = dw /\ w'.(Window.height) = dh /\
   (Z.abs (2 * w'.(Window.posX) + dw - mw) <= 1)%Z /\
   (Z.abs (2 * w'.(Window.posY) + dh - mh) <= 1)%Z) /\
  (mode = Window.WINDOW_MODE_BORDERLESS ->
   w'.(Window.width) = mw /\ w'.(Window.height) = mh /\
   w'.(Window.posX) = 0%Z /\ w'.(Window.posY) = 0%Z) /\
  (mode = Window.WINDOW_MODE_EXCLUSIVE ->
   w'.(Window.width) = w.(Window.width) /\
   w'.(Window.height) = w.(Window.height) /\
   w'.(Window.posX) = w.(Window.posX) /\ w'.(Window.posY) = w.(Window.posY)).
Proof.
  cbv zeta.
  assert (Hhalf : forall a : Z, (Z.abs (2 * Z.quot a 2 - a) <= 1)%Z).
  { intros a. pose proof (Z.quot_rem' a 2) as Hq.
    pose proof (Z.rem_bound_abs a 2) as Hr.
    assert (2 <> 0)%Z as H2 by lia. specialize (Hr H2). lia. }
  unfold Window.ApplyWindowMode. cbv zeta.
  unfold Window.WINDOW_MODE_WINDOWED, Window.WINDOW_MODE_BORDERLESS,
    Window.WINDOW_MODE_EXCLUSIVE.
  destruct w as [fs ud tm rs wd ht px py].
  pose proof (Hhalf (mw - dw)%Z) as Hx. pose proof (Hhalf (mh - dh)%Z) as Hy.
  destruct (Z.eqb_spec mode 0) as [-> | H0];
    [| destruct (Z.eqb_spec mode 1) as [-> | H1];
       [| destruct (Z.eqb_spec mode 2) as [-> | H2]]];
    destruct fs; window_calls;
    (split; [intros ? ? | split; intros ?]); try lia;
    splits; try reflexivity; lia.
Qed.

(** X19.  The window part of the game loop keeps the window in step with
    the selection.  If the window shows the applied mode before the
    step, then after it the applied mode is the selected mode and the
    window shows it, also when the selection was changed elsewhere since
    the last step.  F11 selects windowed or borderless, never exclusive,
    and a step without F11 and without a pending change leaves
    everything as it is. *)
Theorem window_loop_shows_selected_mode
    (st : Window.Loop) (f11 : bool) (mw mh dw dh : Z) :
  Window.Shows st.(Window.window) st.(Window.appliedWindowMode) ->
  let st' := Window.Step st f11 mw mh dw dh in
  st'.(Window.appliedWindowMode) = st'.(Window.windowMode) /\
  Window.Shows st'.(Window.window) st'.(Window.windowMode) /\
  (f11 = true ->
   st'.(Window.windowMode) = Window.WINDOW_MODE_WINDOWED \/
   st'.(Window.windowMode) = Window.WINDOW_MODE_BORDERLESS) /\
  (f11 = false ->
   st.(Window.windowMode) = st.(Window.appliedWindowMode) -> st' = st).
Proof.
  intros Hshow. cbv zeta. unfold Window.Step. cbv zeta.
  set (sel := if f11 then _ else Window.windowMode st).
  assert (Hsel : f11 = true ->
                 sel = Window.WINDOW_MODE_WINDOWED \/
                 sel = Window.WINDOW_MODE_BORDERLESS).
  { intros ->. subst sel. destruct (_ =? _)%Z; auto. }
  assert (Hsel' : f11 = false -> sel = Window.windowMode st)
    by (intros ->; reflexivity).
  clearbody sel.
  destruct (Z.eqb_spec sel (Window.appliedWindowMode st)) as [Heq | Hne];
    cbn [negb Window.appliedWindowMode Window.windowMode Window.window].
  - splits; trivial.
    + auto.
    + rewrite Heq. exact Hshow.
    + intros Hf Hm. destruct st as [m a w]. cbn in *.
      rewrite (Hsel' Hf). subst. reflexivity.
  - splits; trivial.
    + apply ApplyWindowMode_shows.
    + intros Hf Hm. exfalso. apply Hne. rewrite (Hsel' Hf). exact Hm.
Qed.

(** * The game loop and the free camera of shader_test *)

Section LoopProperties.

Variables sqrtf cosf sinf : Q -> Q.
Variable DEG2RAD : Q.

Local Abbreviation UpdateNoclipMode := (Controller.UpdateNoclipMode sqrtf cosf sinf DEG2RAD).
Local Abbreviation UpdatePlayer := (Controller.UpdatePlayer sqrtf cosf sinf DEG2RAD).
Local Abbreviation GameUpdate := (Game.Update sqrtf cosf sinf DEG2RAD).
Local Abbreviation Move := (ShaderTest.Move sqrtf cosf sinf DEG2RAD).
Local Abbreviation Vector3Normalize := (Controller.Vector3Normalize sqrtf).

(** X20.  The settings menu pauses the game.  In the update part of an
    iteration Escape flips the menu and the camera's field of view is
    set to the setting, menu open or not.  When the update ends with the
    menu open it has changed neither the player nor the camera's
    position and target; when it ends with the menu closed it has run
    the player update and put the camera at the player's position.  The
    menu part changes neither player nor camera, never opens the menu,
    and closes it exactly when "Resume" is clicked while the dropdown
    is closed.  The invariant (paused exactly while the menu is open,
    cursor visible while it is open) holds before the first iteration
    and is kept by both parts. *)
Theorem menu_pauses_the_game
    (st : Game.State) (settings : GameSettings) (fov : Q)
    (cs : list CollisionBox) (input : Game.Input) (gui : Game.Gui) :
  let st' := GameUpdate st settings fov cs input in
  st'.(Game.showSettingsMenu)
  = xorb st.(Game.showSettingsMenu)
         (Game.IsUiKeyPressed input Game.KEY_ESCAPE) /\
  st'.(Game.camera).(Game.cam_fovy) = fov /\
  (st'.(Game.showSettingsMenu) = true ->
   st'.(Game.player) = st.(Game.player) /\
   st'.(Game.camera).(Game.cam_position)
   = st.(Game.camera).(Game.cam_position) /\
   st'.(Game.camera).(Game.cam_target)
   = st.(Game.camera).(Game.cam_target)) /\
  (st'.(Game.showSettingsMenu) = false ->
   st'.(Game.player)
   = UpdatePlayer st.(Game.player) settings cs (Game.frame input) /\
   st'.(Game.camera).(Game.cam_position) = st'.(Game.player).(position)) /\
  (forall st'', Game.Menu st' gui = Some st'' ->
     st''.(Game.player) = st'.(Game.player) /\
     st''.(Game.camera) = st'.(Game.camera) /\
     st''.(Game.showSettingsMenu)
     = st'.(Game.showSettingsMenu)
       && negb (negb st'.(Game.windowModeDropdownOpen)
                && Game.GuiButtonResume gui)) /\
  Game.MenuInvariant Game.initial /\
  (Game.MenuInvariant st ->
   Game.MenuInvariant st' /\
   forall st'', Game.Menu st' gui = Some st'' -> Game.MenuInvariant st'').
Proof.
  cbv zeta.
  assert (Hmenu : forall s s' : Game.State, Game.Menu s gui = Some s' ->
            (s'.(Game.player) = s.(Game.player) /\
             s'.(Game.camera) = s.(Game.camera) /\
             s'.(Game.showSettingsMenu)
             = s.(Game.showSettingsMenu)
               && negb (negb s.(Game.windowModeDropdownOpen)
                        && Game.GuiButtonResume gui)) /\
            (Game.MenuInvariant s -> Game.MenuInvariant s')).
  { intros s s'. unfold Game.Menu, Game.MenuInvariant.
    destruct s as [pl cam show paused hidden open].
    cbn [Game.player Game.camera Game.showSettingsMenu Game.gameWasPaused
         Game.cursorHidden Game.windowModeDropdownOpen].
    destruct show, open, (Game.GuiButtonResume gui), (Game.GuiButtonExit gui),
      (Game.GuiDropdownBox gui); cbn; intros H;
      try discriminate H; injection H as <-; cbn;
      intuition (try discriminate; try congruence). }
  assert (Hupd :
    let st' := GameUpdate st settings fov cs input in
    st'.(Game.showSettingsMenu)
    = xorb st.(Game.showSettingsMenu)
           (Game.IsUiKeyPressed input Game.KEY_ESCAPE) /\
    st'.(Game.camera).(Game.cam_fovy) = fov /\
    (st'.(Game.showSettingsMenu) = true ->
     st'.(Game.player) = st.(Game.player) /\
     st'.(Game.camera).(Game.cam_position)
     = st.(Game.camera).(Game.cam_position) /\
     st'.(Game.camera).(Game.cam_target)
     = st.(Game.camera).(Game.cam_target)) /\
    (st'.(Game.showSettingsMenu) = false ->
     st'.(Game.player)
     = UpdatePlayer st.(Game.player) settings cs (Game.frame input) /\
     st'.(Game.camera).(Game.cam_position) = st'.(Game.player).(position)) /\
    (Game.MenuInvariant st -> Game.MenuInvariant st')).
  { cbv zeta. unfold Game.Update, Game.MenuInvariant. cbv zeta.
    destruct st as [pl cam show paused hidden open].
    cbn [Game.player Game.camera Game.showSettingsMenu Game.gameWasPaused
         Game.cursorHidden Game.windowModeDropdownOpen].
    destruct (Game.IsUiKeyPressed input Game.KEY_ESCAPE), show;
      cbn [negb xorb Game.player Game.camera Game.showSettingsMenu
           Game.gameWasPaused Game.cursorHidden Game.windowModeDropdownOpen
           Game.UpdateCameraFromPlayer Game.cam_position Game.cam_target
           Game.cam_fovy];
      splits; try reflexivity; try discriminate;
      try (intros _; splits; reflexivity);
      try (intros (H1 & H2); split;
           [exact H1 || reflexivity | intros; discriminate]);
      try (intros (H1 & H2); split;
           [exact H1 || reflexivity | intros _; auto]). }
  cbv zeta in Hupd. destruct Hupd as (H1 & H2 & H3 & H4 & H5).
  splits; trivial.
  - intros st'' Hm. exact (proj1 (Hmenu _ _ Hm)).
  - split; [reflexivity | discriminate].
  - intros Hinv. split; [exact (H5 Hinv) |].
    intros st'' Hm. exact (proj2 (Hmenu _ _ Hm) (H5 Hinv)).
Qed.

(** X21.  The free camera of [shader_test.cpp].  While its menu is shown
    nothing moves.  Otherwise yaw and pitch are those of the look update
    of [main.cpp], so the pitch ends in [-89, 89]; the camera sits at
    the position; and with no movement key held the position stays. *)
Theorem shader_test_camera
    (v : ShaderTest.View) (showMenu : bool) (ms sens dt : Q)
    (mouse : Vector2) (keys : ShaderTest.KeyboardKey -> bool) :
  let v' := Move v showMenu ms sens dt mouse keys in
  let look :=
    UpdateCameraLook (ShaderTest.asPlayer v) sens
      (mkFrame dt mouse (fun _ => false) (fun _ => false)) in
  (showMenu = true -> v' = v) /\
  (showMenu = false ->
   v'.(ShaderTest.yaw) = look.(yaw) /\
   v'.(ShaderTest.pitch) = look.(pitch) /\
   -89 <= v'.(ShaderTest.pitch) <= 89 /\
   v'.(ShaderTest.camera_position) = v'.(ShaderTest.position) /\
   ((forall k, keys k = false) ->
    SamePoint v'.(ShaderTest.position) v.(ShaderTest.position))).
Proof.
  intros v' look. split; intros ->; [reflexivity |].
  assert (Hangles : v'.(ShaderTest.yaw) = look.(yaw) /\
                    v'.(ShaderTest.pitch) = look.(pitch)).
  { subst v' look. unfold ShaderTest.Move, UpdateCameraLook, ShaderTest.asPlayer.
    cbv zeta.
    cbn [negb ShaderTest.yaw ShaderTest.pitch GetMouseDelta
         yaw pitch set_yaw set_pitch].
    destruct (_ >? 89); cbn [yaw pitch set_yaw set_pitch];
      destruct (_ <? -89); cbn [yaw pitch set_yaw set_pitch]; auto. }
  destruct Hangles as (Hyaw & Hpitch).
  split; [exact Hyaw | split; [exact Hpitch | split; [| split]]].
  - rewrite Hpitch. apply UpdateCameraLook_pitch.
  - reflexivity.
  - intros Hnone. subst v'. unfold ShaderTest.Move. cbv zeta.
    cbn [negb ShaderTest.position].
    rewrite !Hnone.
    destruct (_ >? 0); [| repeat split; reflexivity].
    unfold SamePoint, Vector3Add, Vector3Scale. cbn [x y z].
    set (c := _ * dt). clearbody c.
    pose proof (Vector3Normalize_zero_x sqrtf (vec3 0 0 0) (Qeq_refl _)) as Hx.
    pose proof (Vector3Normalize_zero_y sqrtf (vec3 0 0 0) (Qeq_refl _)) as Hy.
    pose proof (Vector3Normalize_zero_z sqrtf (vec3 0 0 0) (Qeq_refl _)) as Hz.
    splits; nra.
Qed.

(** X22.  In noclip, keys that cancel hold the position: with W and S
    both held or both released, likewise A and D, and likewise Space and
    Shift, the update leaves the player where it was. *)
Theorem noclip_cancelling_keys_hold_position
    (p : Player) (ms sens : Q) (f : Frame) :
  KeysCancel f ->
  IsKeyDown f KEY_SPACE = IsKeyDown f KEY_LEFT_SHIFT ->
  SamePoint (UpdateNoclipMode p ms sens f).(position) p.(position).
Proof.
  intros (Hws & Had) Hud.
  destruct (UpdateCameraLook_frame p sens f) as (Hpos & _).
  unfold Controller.UpdateNoclipMode. cbv zeta.
  cbn [position set_position set_velocity set_isGrounded].
  rewrite Hpos.
  set (forward := Controller.GetForwardDirection _ _ _ _ _).
  set (right := Controller.Vector3Normalize _ (Vector3CrossProduct _ _)).
  clearbody forward right.
  set (c := _ * GetFrameTime f). clearbody c.
  rewrite Hws, Had, Hud.
  set (moveDir := if IsKeyDown f KEY_LEFT_SHIFT then _ else _).
  assert (Hm : moveDir.(x) == 0 /\ moveDir.(y) == 0 /\ moveDir.(z) == 0).
  { subst moveDir.
    destruct (IsKeyDown f KEY_S), (IsKeyDown f KEY_D),
             (IsKeyDown f KEY_LEFT_SHIFT);
      unfold Vector3Add, Vector3Subtract; cbn [x y z]; splits; ring. }
  destruct Hm as (Hx & Hy & Hz). clearbody moveDir.
  pose proof (Vector3Normalize_zero_x sqrtf moveDir Hx) as Hnx.
  pose proof (Vector3Normalize_zero_y sqrtf moveDir Hy) as Hny.
  pose proof (Vector3Normalize_zero_z sqrtf moveDir Hz) as Hnz.
  unfold SamePoint.
  destruct (_ >? 0); unfold Vector3Add, Vector3Scale; cbn [x y z];
    splits; nra.
Qed.


End LoopProperties.

(** * Worked instances of the further properties *)

(** V pressed while walking with some velocity. *)
Lemma mode_switch_instance :
  IsKeyPressed
    (mkFrame (1 / 60) (vec2 0 0) (fun _ => false)
             (fun k => match k with KEY_V => true | _ => false end))
    KEY_V = true /\
  Controller.UpdatePlayer Exact.sqrtf Exact.cosf Exact.sinf Exact.DEG2RAD
    (set_velocity Exact.standing (vec3 3 (-4) 5)) defaultSettings [centerCube]
    (mkFrame (1 / 60) (vec2 0 0) (fun _ => false)
             (fun k => match k with KEY_V => true | _ => false end))
  = Controller.UpdatePlayer Exact.sqrtf Exact.cosf Exact.sinf Exact.DEG2RAD
      Exact.standing defaultSettings [centerCube]
      (mkFrame (1 / 60) (vec2 0 0) (fun _ => false)
               (fun k => match k with KEY_V => true | _ => false end)).
Proof.
  split; [reflexivity |].
  apply (mode_switch_discards_velocity
           Exact.sqrtf Exact.cosf Exact.sinf Exact.DEG2RAD).
  reflexivity.
Defined.

(** The player of [main] starts in the air. *)
Lemma airborne_jump_instance :
  initialPlayer.(isGrounded) = false /\
  Exact.UpdateWalkingMode initialPlayer 7 0.1 [centerCube]
    (WithJumpPressed (Exact.idle (1 / 60)) true)
  = Exact.UpdateWalkingMode initialPlayer 7 0.1 [centerCube]
      (WithJumpPressed (Exact.idle (1 / 60)) false).
Proof.
  split; [reflexivity |].
  apply (airborne_jump_is_ignored
           Exact.sqrtf Exact.cosf Exact.sinf Exact.DEG2RAD).
  reflexivity.
Defined.

(** No key held. *)
Lemma cancelling_keys_instance :
  KeysCancel (Exact.idle (1 / 60)) /\
  (Exact.UpdateWalkingMode Exact.standing 7 0.1 [centerCube]
     (Exact.idle (1 / 60))).(velocity).(x) == 0 /\
  (Exact.UpdateWalkingMode Exact.standing 7 0.1 [centerCube]
     (Exact.idle (1 / 60))).(velocity).(z) == 0 /\
  (Exact.UpdateWalkingMode Exact.standing 7 0.1 []
     (Exact.idle (1 / 60))).(position).(x) == Exact.standing.(position).(x) /\
  (Exact.UpdateWalkingMode Exact.standing 7 0.1 []
     (Exact.idle (1 / 60))).(position).(z) == Exact.standing.(position).(z).
Proof.
  assert (Hk : KeysCancel (Exact.idle (1 / 60))) by (split; reflexivity).
  split; [exact Hk |].
  exact (cancelling_keys_give_no_horizontal_motion
           Exact.sqrtf Exact.cosf Exact.sinf Exact.DEG2RAD
           Exact.standing 7 0.1 [centerCube] (Exact.idle (1 / 60)) Hk).
Defined.

(** Walking on the diagonal, W and D held, Ctrl released: speed 7. *)
Lemma walking_speed_instance :
  0 < Approx.sqrtf 2 /\
  Qabs (Approx.sqrtf 2 * Approx.sqrtf 2 - 2) <= (1 # 1048576) * 2 /\
  Qabs
    ((Controller.UpdateWalkingMode Approx.sqrtf Exact.cosf Exact.sinf
        Exact.DEG2RAD Exact.approaching 7 0.1 [centerCube]
        (Approx.diagonalKeys 0.1)).(velocity).(x)
     * (Controller.UpdateWalkingMode Approx.sqrtf Exact.cosf Exact.sinf
          Exact.DEG2RAD Exact.approaching 7 0.1 [centerCube]
          (Approx.diagonalKeys 0.1)).(velocity).(x)
     + (Controller.UpdateWalkingMode Approx.sqrtf Exact.cosf Exact.sinf
          Exact.DEG2RAD Exact.approaching 7 0.1 [centerCube]
          (Approx.diagonalKeys 0.1)).(velocity).(z)
       * (Controller.UpdateWalkingMode Approx.sqrtf Exact.cosf Exact.sinf
            Exact.DEG2RAD Exact.approaching 7 0.1 [centerCube]
            (Approx.diagonalKeys 0.1)).(velocity).(z)
     - 7 * 7)
  <= (1 # 524288) * (7 * 7).
Proof.
  split; [reflexivity | split; [vm_compute; discriminate |]].
  apply (walking_speed_is_current_speed
           Approx.sqrtf Exact.cosf Exact.sinf Exact.DEG2RAD
           Exact.approaching 7 0.1 [centerCube] (Approx.diagonalKeys 0.1));
    vm_compute; (reflexivity || discriminate).
Defined.

(** No key held in noclip. *)
Lemma noclip_hold_instance :
  KeysCancel (Exact.idle (1 / 60)) /\
  IsKeyDown (Exact.idle (1 / 60)) KEY_SPACE
  = IsKeyDown (Exact.idle (1 / 60)) KEY_LEFT_SHIFT /\
  SamePoint
    (Exact.UpdateNoclipMode Exact.standing 7 0.1 (Exact.idle (1 / 60)))
      .(position)
    Exact.standing.(position).
Proof.
  assert (Hk : KeysCancel (Exact.idle (1 / 60))) by (split; reflexivity).
  split; [exact Hk | split; [reflexivity |]].
  exact (noclip_cancelling_keys_hold_position
           Exact.sqrtf Exact.cosf Exact.sinf Exact.DEG2RAD
           Exact.standing 7 0.1 (Exact.idle (1 / 60)) Hk eq_refl).
Defined.

(** Two frames into an empty history. *)
Lemma sliding_window_instance :
  (length Perf.zero.(Perf.frameTimeHistory) <= Perf.HISTORY_SIZE)%nat /\
  (Perf.UpdateAll Perf.zero [1 # 60; 1 # 30]).(Perf.frameTimeHistory)
  = Perf.lastn Perf.HISTORY_SIZE
      (Perf.zero.(Perf.frameTimeHistory)
       ++ map (fun dt => dt * 1000) [1 # 60; 1 # 30]) /\
  (length (Perf.UpdateAll Perf.zero [1 # 60; 1 # 30]).(Perf.frameTimeHistory)
   <= Perf.HISTORY_SIZE)%nat /\
  ([1 # 60; 1 # 30] <> [] ->
   (Perf.UpdateAll Perf.zero [1 # 60; 1 # 30]).(Perf.frameTimeHistory) <> []).
Proof.
  assert (Hlen : (length Perf.zero.(Perf.frameTimeHistory)
                  <= Perf.HISTORY_SIZE)%nat)
    by (cbn; unfold Perf.HISTORY_SIZE; lia).
  split; [exact Hlen |].
  exact (history_is_sliding_window [1 # 60; 1 # 30] Perf.zero Hlen).
Defined.

(** A frame at 30 frames per second after one at 60. *)
Lemma frame_rates_instance :
  Forall (fun ft => 0 < ft)
         (Perf.Update Perf.zero (1 # 60)).(Perf.frameTimeHistory) /\
  0 < 1 # 30 /\
  0 < (Perf.Update (Perf.Update Perf.zero (1 # 60)) (1 # 30)).(Perf.minFPS) /\
  0 < (Perf.Update (Perf.Update Perf.zero (1 # 60)) (1 # 30)).(Perf.avgFPS) /\
  (Perf.Update (Perf.Update Perf.zero (1 # 60)) (1 # 30)).(Perf.minFPS)
  <= (Perf.Update (Perf.Update Perf.zero (1 # 60)) (1 # 30)).(Perf.maxFPS) /\
  (Perf.Update (Perf.Update Perf.zero (1 # 60)) (1 # 30)).(Perf.minFPS)
  = 1000 / (Perf.Update (Perf.Update Perf.zero (1 # 60)) (1 # 30))
             .(Perf.maxFrameTime) /\
  (Perf.Update (Perf.Update Perf.zero (1 # 60)) (1 # 30)).(Perf.maxFPS)
  = 1000 / (Perf.Update (Perf.Update Perf.zero (1 # 60)) (1 # 30))
             .(Perf.minFrameTime) /\
  (Perf.Update (Perf.Update Perf.zero (1 # 60)) (1 # 30)).(Perf.currentFPS)
  = 1 / (1 # 30).
Proof.
  assert (Hh : Forall (fun ft => 0 < ft)
                 (Perf.Update Perf.zero (1 # 60)).(Perf.frameTimeHistory)).
  { vm_compute. apply Forall_cons; [reflexivity | apply Forall_nil]. }
  assert (Hdt : 0 < 1 # 30) by reflexivity.
  split; [exact Hh | split; [exact Hdt |]].
  exact (frame_rates_are_ordered (Perf.Update Perf.zero (1 # 60)) (1 # 30)
           Hh Hdt).
Defined.

(** A frame time of zero, as on the first frame. *)
Lemma zero_frame_instance :
  0 <= 0 /\
  (Perf.Update Perf.zero 0).(Perf.currentFPS) = 0 /\
  (Perf.Update Perf.zero 0).(Perf.minFrameTime) <= 0 /\
  (Perf.Update Perf.zero 0).(Perf.maxFPS) = 0.
Proof.
  assert (H0 : 0 <= 0) by apply Qle_refl.
  split; [exact H0 |].
  exact (zero_frame_time_reports_zero_rates Perf.zero 0 H0).
Defined.

(** A fast frame and a slow frame. *)
Lemma graph_bars_instance :
  (length [16; 40] <= Perf.HISTORY_SIZE)%nat /\
  Forall (fun ft => 0 <= ft) [16; 40] /\
  length (Graph.Bars 960 100 [16; 40]) = length [16; 40] /\
  Forall (Graph.InsideGraph 960 100) (Graph.Bars 960 100 [16; 40]).
Proof.
  assert (Hlen : (length [16; 40] <= Perf.HISTORY_SIZE)%nat)
    by (cbn; unfold Perf.HISTORY_SIZE; lia).
  assert (Hpos : Forall (fun ft => 0 <= ft) [16; 40])
    by (repeat (apply Forall_cons; [vm_compute; discriminate |]);
        apply Forall_nil).
  split; [exact Hlen | split; [exact Hpos |]].
  exact (graph_bars_stay_inside_graph 960 100 [16; 40] Hlen Hpos).
Defined.

Example graph_bars_values :
  Graph.Bars 960 100 [16; 40]
  = [Graph.mkRectangle 960 126 3 24 Graph.GREEN;
     Graph.mkRectangle 962 100 3 50 Graph.RED].
Proof. reflexivity. Qed.

(** F11 on a windowed window. *)
Lemma window_loop_instance :
  Window.Shows (Window.mkState false false false true 1280 720 320 180) 0 /\
  (Window.Step
     (Window.mkLoop 0 0 (Window.mkState false false false true 1280 720 320 180))
     true 1920 1080 1280 720).(Window.appliedWindowMode)
  = (Window.Step
       (Window.mkLoop 0 0 (Window.mkState false false false true 1280 720 320 180))
       true 1920 1080 1280 720).(Window.windowMode) /\
  Window.Shows
    (Window.Step
       (Window.mkLoop 0 0 (Window.mkState false false false true 1280 720 320 180))
       true 1920 1080 1280 720).(Window.window)
    (Window.Step
       (Window.mkLoop 0 0 (Window.mkState false false false true 1280 720 320 180))
       true 1920 1080 1280 720).(Window.windowMode).
Proof.
  assert (Hs : Window.Shows
                 (Window.mkState false false false true 1280 720 320 180) 0)
    by (repeat split).
  split; [exact Hs |].
  destruct (window_loop_shows_selected_mode
              (Window.mkLoop 0 0
                 (Window.mkState false false false true 1280 720 320 180))
              true 1920 1080 1280 720 Hs) as (Ha & Hb & _).
  split; [exact Ha | exact Hb].
Defined.

(** * The scene and the push-out loop *)

Lemma HorizontalCollisions_none
    (cs : list CollisionBox) (r h : Q) (pos : Vector3) :
  (forall box, In box cs -> ShouldApplyHorizontalCollision pos r h box = false) ->
  HorizontalCollisions cs r h pos = pos.
Proof.
  unfold HorizontalCollisions. induction cs as [| c cs IH]; intros Hnone.
  - reflexivity.
  - cbn [fold_left]. rewrite (Hnone c (or_introl eq_refl)).
    apply IH. intros box Hin. apply Hnone. right. exact Hin.
Qed.

Lemma overlap_reaches (pos : Vector3) (r : Q) (box : CollisionBox) :
  OverlapsHorizontally pos r box -> Reaches pos r box.
Proof.
  unfold OverlapsHorizontally, Reaches. cbv zeta.
  intros (H1 & H2 & H3 & H4). splits; lra.
Qed.

(** The push leaves the player touching the box it was pushed out of. *)
Lemma ResolveCollision_reaches
    (pos : Vector3) (r h : Q) (box : CollisionBox) :
  OverlapsHorizontally pos r box ->
  Reaches (ResolveCollision pos r h box) r box.
Proof.
  unfold OverlapsHorizontally, Reaches, ResolveCollision. cbv zeta.
  intros (Hx1 & Hx2 & Hz1 & Hz2).
  repeat cmp_split; unfold set_x, set_z; cbn [x y z]; splits; q_arith.
Qed.

Lemma not_overlap_no_collision
    (pos : Vector3) (r h : Q) (box : CollisionBox) :
  ~ OverlapsHorizontally pos r box ->
  ShouldApplyHorizontalCollision pos r h box = false.
Proof.
  intros Hno. apply not_true_iff_false. rewrite ShouldApply_spec.
  intros (Ho & _). contradiction.
Qed.

Lemma collision_overlaps
    (pos : Vector3) (r h : Q) (box : CollisionBox) :
  ShouldApplyHorizontalCollision pos r h box = true ->
  OverlapsHorizontally pos r box.
Proof. rewrite ShouldApply_spec. intros (Ho & _). exact Ho. Qed.

Lemma filter_none {A : Type} (f : A -> bool) (l : list A) :
  (forall a, In a l -> f a = false) -> filter f l = [].
Proof.
  induction l as [| a l IH]; intros Hnone; [reflexivity |].
  cbn [filter]. rewrite (Hnone a (or_introl eq_refl)).
  apply IH. intros b Hb. apply Hnone. right. exact Hb.
Qed.

(** Among boxes that are pairwise apart at most one collides, and the
    loop pushes out of that one only. *)
Lemma apart_boxes_push_once
    (cs : list CollisionBox) (r h : Q) :
  ForallOrdPairs (Apart r) cs ->
  forall pos : Vector3,
    (length (filter (ShouldApplyHorizontalCollision pos r h) cs) <= 1)%nat /\
    (forall box, In box cs ->
       ShouldApplyHorizontalCollision pos r h box = true ->
       HorizontalCollisions cs r h pos = ResolveCollision pos r h box).
Proof.
  induction 1 as [| a cs Ha Hcs IH]; intros pos.
  - split; [cbn; lia | intros box []].
  - rewrite Forall_forall in Ha.
    destruct (IH pos) as [IHlen IHpush]. split.
    + cbn [filter].
      destruct (ShouldApplyHorizontalCollision pos r h a) eqn:Hta;
        [| exact IHlen].
      assert (Hnil : filter (ShouldApplyHorizontalCollision pos r h) cs = []).
      { apply filter_none. intros b Hb.
        apply not_overlap_no_collision.
        apply (proj1 (Ha b Hb pos)), overlap_reaches.
        exact (collision_overlaps _ _ _ _ Hta). }
      rewrite Hnil. cbn. lia.
    + intros box [Heq | Hin] Hbox.
      * subst a.
        change (HorizontalCollisions (box :: cs) r h pos)
          with (HorizontalCollisions cs r h
                  (if ShouldApplyHorizontalCollision pos r h box
                   then ResolveCollision pos r h box else pos)).
        rewrite Hbox. apply HorizontalCollisions_none.
        intros b Hb. apply not_overlap_no_collision.
        apply (proj1 (Ha b Hb _)), ResolveCollision_reaches.
        exact (collision_overlaps _ _ _ _ Hbox).
      * change (HorizontalCollisions (a :: cs) r h pos)
          with (HorizontalCollisions cs r h
                  (if ShouldApplyHorizontalCollision pos r h a
                   then ResolveCollision pos r h a else pos)).
        rewrite (not_overlap_no_collision pos r h a).
        -- apply IHpush; assumption.
        -- apply (proj2 (Ha box Hin pos)), overlap_reaches.
           exact (collision_overlaps _ _ _ _ Hbox).
Qed.

Lemma Pillar_bounds (i j : Z) :
  let b := GetBoxBounds (Scene.Pillar i j) in
  b.(min).(x) == inject_Z i * 3 - 0.25 /\
  b.(max).(x) == inject_Z i * 3 + 0.25 /\
  b.(min).(z) == inject_Z j * 3 - 0.25 /\
  b.(max).(z) == inject_Z j * 3 + 0.25.
Proof.
  cbv zeta. unfold GetBoxBounds, Scene.Pillar.
  cbn [min max x y z box_position box_size].
  generalize (inject_Z i), (inject_Z j). intros a b. splits; field.
Qed.

Lemma apart_integers (i i' : Z) :
  i <> i' -> inject_Z i + 1 <= inject_Z i' \/ inject_Z i' + 1 <= inject_Z i.
Proof.
  intros Hne. destruct (Z_lt_le_dec i i') as [Hlt | Hge].
  - left. change 1 with (inject_Z 1). rewrite <- inject_Z_plus.
    rewrite <- Zle_Qle. lia.
  - right. change 1 with (inject_Z 1). rewrite <- inject_Z_plus.
    rewrite <- Zle_Qle. lia.
Qed.

Lemma pillars_apart (r : Q) (i j i' j' : Z) :
  r <= 0.875 -> (i, j) <> (i', j') ->
  Apart r (Scene.Pillar i j) (Scene.Pillar i' j').
Proof.
  intros Hr Hne pos. unfold Reaches, OverlapsHorizontally. cbv zeta.
  destruct (Pillar_bounds i j) as (E1 & E2 & E3 & E4).
  destruct (Pillar_bounds i' j') as (F1 & F2 & F3 & F4).
  cbv zeta in E1, E2, E3, E4, F1, F2, F3, F4.
  rewrite E1, E2, E3, E4, F1, F2, F3, F4.
  assert (Hd : i <> i' \/ j <> j').
  { destruct (Z.eq_dec i i') as [-> |]; [| now left].
    right. intros ->. apply Hne. reflexivity. }
  destruct Hd as [Hd | Hd]; apply apart_integers in Hd;
    split; intros (A1 & A2 & A3 & A4) (B1 & B2 & B3 & B4);
    destruct Hd; q_consts; lra.
Qed.

Lemma pillar_apart_from_cube (r : Q) (i j : Z) :
  r <= 0.875 -> (i, j) <> (0, 0)%Z ->
  Apart r centerCube (Scene.Pillar i j).
Proof.
  intros Hr Hne pos. unfold Reaches, OverlapsHorizontally. cbv zeta.
  destruct (Pillar_bounds i j) as (E1 & E2 & E3 & E4).
  cbv zeta in E1, E2, E3, E4. rewrite E1, E2, E3, E4.
  cube_consts.
  assert (Hd : i <> 0%Z \/ j <> 0%Z).
  { destruct (Z.eq_dec i 0) as [-> |]; [| now left].
    right. intros ->. apply Hne. reflexivity. }
  destruct Hd as [Hd | Hd]; apply apart_integers in Hd;
    change (inject_Z 0) with 0 in Hd;
    split; intros (A1 & A2 & A3 & A4) (B1 & B2 & B3 & B4);
    destruct Hd; q_consts; lra.
Qed.

(** The loops push one pillar for every pair of the grid: the test
    [i == 0 && j == 0] never fires, since both indices stay odd. *)
Lemma Colliders_eq :
  Scene.Colliders =
  centerCube :: map (fun ij => Scene.Pillar (fst ij) (snd ij)) Scene.Grid.
Proof. vm_compute. reflexivity. Qed.

Lemma Grid_NoDup : NoDup Scene.Grid.
Proof.
  unfold Scene.Grid. cbv zeta. cbn [list_prod map app].
  repeat (apply NoDup_cons;
          [ intros Hin; cbn [In] in Hin;
            repeat (destruct Hin as [Hin | Hin]; [discriminate Hin |]);
            exact Hin
          | ]).
  apply NoDup_nil.
Qed.

Lemma Grid_off_centre : Forall (fun ij => ij <> (0, 0)%Z) Scene.Grid.
Proof.
  unfold Scene.Grid. cbv zeta. cbn [list_prod map app].
  repeat (apply Forall_cons; [discriminate |]). apply Forall_nil.
Qed.

Lemma Colliders_apart (r : Q) :
  r <= 0.875 -> ForallOrdPairs (Apart r) Scene.Colliders.
Proof.
  intros Hr. rewrite Colliders_eq. apply FOP_cons.
  - apply Forall_forall. intros box Hin.
    apply in_map_iff in Hin. destruct Hin as ([i j] & <- & Hin).
    apply pillar_apart_from_cube; [exact Hr |].
    exact (proj1 (Forall_forall _ _) Grid_off_centre _ Hin).
  - generalize Grid_NoDup. generalize Scene.Grid.
    induction 1 as [| [i j] l Hnotin Hnd IH]; cbn [map].
    + apply FOP_nil.
    + apply FOP_cons; [| exact IH].
      apply Forall_forall. intros box Hin.
      apply in_map_iff in Hin. destruct Hin as ([i' j'] & <- & Hin).
      apply pillars_apart; [exact Hr |].
      intros Heq. cbn [fst snd] in Heq. apply Hnotin. rewrite Heq. exact Hin.
Qed.

(** X23.  In the scene built by [main], for a player of radius at most
    0.875 (the player's is 0.3): at every candidate position at most one
    obstacle is a horizontal collision, and when one is, the whole
    push-out loop over the scene amounts to the single push out of that
    obstacle; when none is, the loop leaves the position unchanged.  The
    order of the obstacles in the list therefore has no effect. *)
Theorem scene_pushes_out_of_one_obstacle
    (pos : Vector3) (r h : Q) :
  r <= 0.875 ->
  (length (filter (ShouldApplyHorizontalCollision pos r h) Scene.Colliders)
     <= 1)%nat /\
  (forall box, In box Scene.Colliders ->
     ShouldApplyHorizontalCollision pos r h box = true ->
     HorizontalCollisions Scene.Colliders r h pos
     = ResolveCollision pos r h box) /\
  ((forall box, In box Scene.Colliders ->
      ShouldApplyHorizontalCollision pos r h box = false) ->
   HorizontalCollisions Scene.Colliders r h pos = pos).
Proof.
  intros Hr.
  destruct (apart_boxes_push_once Scene.Colliders r h
              (Colliders_apart r Hr) pos) as [Hlen Hpush].
  splits; [exact Hlen | exact Hpush | apply HorizontalCollisions_none].
Qed.

Lemma Pillar_shape (i j : Z) :
  let box := Scene.Pillar i j in
  Scene.WellFormed box /\
  (GetBoxBounds box).(min).(y) == GROUND_LEVEL /\
  1 <= (GetBoxBounds box).(max).(y) <= 3.
Proof.
  cbv zeta. unfold Scene.WellFormed, GetBoxBounds, Scene.Pillar, GROUND_LEVEL.
  cbn [min max x y z box_position box_size].
  assert (Hrem : (0 <= Z.rem (Z.abs (i + j)) 3 < 3)%Z)
    by (apply Z.rem_bound_pos; lia).
  assert (H0 : 0 <= inject_Z (Z.rem (Z.abs (i + j)) 3)).
  { change 0 with (inject_Z 0). rewrite <- Zle_Qle. lia. }
  assert (H2 : inject_Z (Z.rem (Z.abs (i + j)) 3) <= 2).
  { change 2 with (inject_Z 2). rewrite <- Zle_Qle. lia. }
  revert H0 H2. generalize (inject_Z (Z.rem (Z.abs (i + j)) 3)).
  intros t H0 H2.
  assert (E1 : (1 + t) / 2 - (1 + t) / 2 == 0) by field.
  assert (E2 : (1 + t) / 2 + (1 + t) / 2 == 1 + t) by field.
  rewrite E1, E2. splits; q_consts; lra.
Qed.

(** X24.  The scene has 37 obstacles, the centre cube and one pillar for
    each of the 36 grid pairs.  Every obstacle has positive extents on
    all three axes, rests on the ground plane and has its top between 1
    and 3 above it. *)
Theorem scene_obstacles_are_well_formed :
  length Scene.Colliders = 37%nat /\
  Forall (fun box =>
            Scene.WellFormed box /\
            (GetBoxBounds box).(min).(y) == GROUND_LEVEL /\
            1 <= (GetBoxBounds box).(max).(y) <= 3)
         Scene.Colliders.
Proof.
  split; [vm_compute; reflexivity |].
  rewrite Colliders_eq. apply Forall_cons.
  - unfold Scene.WellFormed. cube_consts. unfold GROUND_LEVEL.
    cbn [box_size centerCube x y z]. splits; q_consts; lra.
  - apply Forall_forall. intros box Hin.
    apply in_map_iff in Hin. destruct Hin as ([i j] & <- & _).
    apply Pillar_shape.
Qed.

(** At (0.9, 2.8, 0) only the centre cube collides, and the loop over
    the whole scene pushes the player to its face at x = 1.3. *)
Lemma scene_push_instance :
  0.3 <= 0.875 /\
  HorizontalCollisions Scene.Colliders 0.3 1.8 (vec3 0.9 2.8 0)
  = ResolveCollision (vec3 0.9 2.8 0) 0.3 1.8 centerCube.
Proof.
  split; [vm_compute; discriminate |].
  refine (proj1 (proj2 (scene_pushes_out_of_one_obstacle
                          (vec3 0.9 2.8 0) 0.3 1.8 _)) centerCube _ _).
  - vm_compute. discriminate.
  - rewrite Colliders_eq. left. reflexivity.
  - vm_compute. reflexivity.
Defined.

(** * Rounded arithmetic: the push-out and the approach to a face *)

(** ** The rounding to binary32 *)

Lemma rne_near (q : Q) : Qabs (inject_Z (F32.rne q) - q) <= 1 # 2.
Proof.
  unfold F32.rne. cbv zeta.
  pose proof (Qfloor_le q) as Hlo. pose proof (Qlt_floor q) as Hhi.
  rewrite inject_Z_plus in Hhi. change (inject_Z 1) with 1 in Hhi.
  apply Qabs_Qle_condition.
  destruct (Qcompare (q - inject_Z (Qfloor q)) (1 # 2)) eqn:Hc.
  - apply Qeq_alt in Hc. destruct (Z.even _);
      [| rewrite inject_Z_plus; change (inject_Z 1) with 1]; split; lra.
  - apply Qlt_alt in Hc. split; lra.
  - apply Qgt_alt in Hc. rewrite inject_Z_plus. change (inject_Z 1) with 1.
    split; lra.
Qed.

Lemma pow2_pos (e : Z) : 0 < 2 ^ e.
Proof. apply Qpower_0_lt. reflexivity. Qed.

Lemma two_nonzero : ~ 2 == 0.
Proof. discriminate. Qed.

Lemma ilog2_le (q : Q) : 0 < q -> 2 ^ F32.ilog2 q <= q.
Proof.
  intros Hq. unfold F32.ilog2. cbv zeta.
  destruct (Qle_bool _ q) eqn:Ht; [apply Qle_bool_iff; exact Ht |].
  destruct q as [n d]. cbn [Qnum Qden] in *.
  assert (Hn : (0 < n)%Z).
  { unfold Qlt in Hq. cbn in Hq. lia. }
  pose proof (Z.log2_spec n Hn) as [Hn1 _].
  pose proof (Z.log2_spec (Z.pos d) (Pos2Z.is_pos d)) as [_ Hd2].
  pose proof (Z.log2_nonneg n) as Ha. pose proof (Z.log2_nonneg (Z.pos d)) as Hb.
  set (a := Z.log2 n) in *. set (b := Z.log2 (Z.pos d)) in *.
  replace (a - b - 1)%Z with (a - (b + 1))%Z by lia.
  rewrite Qpower_minus by exact two_nonzero.
  change 2 with (inject_Z 2).
  rewrite <- !Zpower_Qpower by lia.
  replace (Z.succ b) with (b + 1)%Z in Hd2 by lia.
  assert (Hp : (0 < 2 ^ (b + 1))%Z) by (apply Z.pow_pos_nonneg; lia).
  apply Qle_shift_div_r; [change 0 with (inject_Z 0); rewrite <- Zlt_Qlt; exact Hp |].
  unfold Qle. cbn [Qnum Qden Qmult inject_Z].
  rewrite Pos.mul_1_r, Z.mul_1_r.
  transitivity (n * Z.pos d)%Z; [apply Z.mul_le_mono_nonneg; lia |].
  apply Z.mul_le_mono_nonneg_l; lia.
Qed.

Lemma ilog2_lt (q : Q) : 0 < q -> q < 2 ^ (F32.ilog2 q + 1).
Proof.
  intros Hq. unfold F32.ilog2. cbv zeta.
  destruct (Qle_bool _ q) eqn:Ht.
  - destruct q as [n d]. cbn [Qnum Qden] in *.
    assert (Hn : (0 < n)%Z).
    { unfold Qlt in Hq. cbn in Hq. lia. }
    pose proof (Z.log2_spec n Hn) as [_ Hn2].
    pose proof (Z.log2_spec (Z.pos d) (Pos2Z.is_pos d)) as [Hd1 _].
    pose proof (Z.log2_nonneg n) as Ha.
    pose proof (Z.log2_nonneg (Z.pos d)) as Hb.
    set (a := Z.log2 n) in *. set (b := Z.log2 (Z.pos d)) in *.
    replace (a - b + 1)%Z with (a + 1 - b)%Z by lia.
    rewrite Qpower_minus by exact two_nonzero.
    change 2 with (inject_Z 2).
    rewrite <- !Zpower_Qpower by lia.
    replace (Z.succ a) with (a + 1)%Z in Hn2 by lia.
    assert (Hp : (0 < 2 ^ b)%Z) by (apply Z.pow_pos_nonneg; lia).
    apply Qlt_shift_div_l;
      [change 0 with (inject_Z 0); rewrite <- Zlt_Qlt; exact Hp |].
    unfold Qlt. cbn [Qnum Qden Qmult inject_Z].
    rewrite Pos.mul_1_r, Z.mul_1_r.
    apply Z.le_lt_trans with (n * Z.pos d)%Z;
      [apply Z.mul_le_mono_nonneg_l; lia |].
    apply Z.mul_lt_mono_pos_r; lia.
  - replace (Z.log2 (Qnum q) - Z.log2 (Z.pos (Qden q)) - 1 + 1)%Z
      with (Z.log2 (Qnum q) - Z.log2 (Z.pos (Qden q)))%Z by lia.
    apply Qnot_le_lt. intros Hle. apply Qle_bool_iff in Hle.
    rewrite Hle in Ht. discriminate Ht.
Qed.

(** The relative error of one rounding is at most the unit roundoff. *)
Lemma binary32_error (a : Q) :
  Qabs (F32.binary32 a - a) <= F32.unit_roundoff * Qabs a.
Proof.
  assert (H : Qabs (F32.binary32 a - Qred a)
              <= F32.unit_roundoff * Qabs (Qred a)).
  { unfold F32.binary32. cbv zeta.
    set (q := Qred a). clearbody q.
    destruct (Qeq_bool q 0) eqn:Hz.
    - apply Qeq_bool_iff in Hz. rewrite Hz. vm_compute. discriminate.
    - apply Qeq_bool_neq in Hz. rewrite Qred_correct.
      assert (Hpos : 0 < Qabs q).
      { apply Qabs_case; intros Hs.
        - apply Qle_lteq in Hs. destruct Hs as [Hs | Hs]; [exact Hs |].
          exfalso. apply Hz. symmetry. exact Hs.
        - apply Qle_lteq in Hs. destruct Hs as [Hs | Hs]; [lra |].
          exfalso. apply Hz. exact Hs. }
      pose proof (ilog2_le (Qabs q) Hpos) as He.
      set (e := F32.ilog2 (Qabs q)) in *. clearbody e.
      assert (Hulp : 2 ^ (e - 23) == 2 ^ e * (1 # 8388608)).
      { rewrite Qpower_minus by exact two_nonzero. reflexivity. }
      pose proof (pow2_pos (e - 23)) as Hup.
      set (ulp := 2 ^ (e - 23)) in *. clearbody ulp.
      pose proof (rne_near (q / ulp)) as Hr.
      set (n := inject_Z (F32.rne (q / ulp))) in *. clearbody n.
      assert (Hd : n * ulp - q == (n - q / ulp) * ulp) by (field; lra).
      rewrite Hd, Qabs_Qmult, (Qabs_pos ulp) by lra.
      unfold F32.unit_roundoff.
      apply Qle_trans with ((1 # 2) * ulp).
      + apply Qmult_le_compat_r; [exact Hr | lra].
      + rewrite Hulp. lra. }
  rewrite (Qred_correct a) in H. exact H.
Qed.

Example binary32_values :
  F32.binary32 0.3 == (5033165 # 16777216) /\
  F32.binary32 1 == 1 /\ F32.binary32 (-1) == -1 /\ F32.binary32 2 == 2 /\
  F32.binary32 (F32.binary32 1.3 - F32.binary32 0.3) == (16777215 # 16777216) /\
  F32.binary32 1.3 == (10905190 # 8388608).
Proof. vm_compute. repeat split. Qed.


Lemma unit_roundoff_small : 0 <= F32.unit_roundoff <= 1 # 64.
Proof. split; vm_compute; discriminate. Qed.

Lemma binary32_cube : Rounded.CubeIsExact F32.binary32.
Proof. vm_compute. repeat split. Qed.

(** ** The identity as rounding gives the exact controller *)

Lemma exact_collisions :
  Rounded.GetBoxBounds (fun q => q) = GetBoxBounds /\
  Rounded.ShouldApplyHorizontalCollision (fun q => q)
  = ShouldApplyHorizontalCollision /\
  Rounded.ResolveCollision (fun q => q) = ResolveCollision /\
  Rounded.HorizontalCollisions (fun q => q) = HorizontalCollisions /\
  Rounded.FindGround (fun q => q) = FindGround.
Proof. repeat split. Qed.

Lemma exact_arithmetic
    (sqrtf cosf sinf : Q -> Q) (DEG2RAD : Q) :
  Rounded.UpdateWalkingMode (fun q => q) sqrtf cosf sinf DEG2RAD
  = Controller.UpdateWalkingMode sqrtf cosf sinf DEG2RAD.
Proof.
  assert (E1 : Rounded.Vector3Normalize (fun q => q) sqrtf
               = Controller.Vector3Normalize sqrtf) by reflexivity.
  assert (E2 : Rounded.Vector3Length (fun q => q) sqrtf
               = Controller.Vector3Length sqrtf) by reflexivity.
  assert (E3 : Rounded.Vector3Add (fun q => q) = Vector3Add) by reflexivity.
  assert (E4 : Rounded.Vector3Subtract (fun q => q) = Vector3Subtract)
    by reflexivity.
  assert (E5 : Rounded.Vector3CrossProduct (fun q => q) = Vector3CrossProduct)
    by reflexivity.
  assert (E6 : Rounded.UpdateCameraLook (fun q => q) = UpdateCameraLook)
    by reflexivity.
  assert (E7 : Rounded.GetFlatForwardDirection (fun q => q) sqrtf cosf sinf DEG2RAD
               = Controller.GetFlatForwardDirection sqrtf cosf sinf DEG2RAD).
  { unfold Rounded.GetFlatForwardDirection, Controller.GetFlatForwardDirection.
    rewrite E1. reflexivity. }
  assert (E8 : Rounded.WalkImpulses (fun q => q) sqrtf cosf sinf DEG2RAD
               = Controller.WalkImpulses sqrtf cosf sinf DEG2RAD).
  { unfold Rounded.WalkImpulses, Controller.WalkImpulses.
    rewrite E1, E2, E3, E4, E5, E6, E7. reflexivity. }
  assert (E9 : Rounded.WalkMove (fun q => q) = Controller.WalkMove)
    by reflexivity.
  unfold Rounded.UpdateWalkingMode, Controller.UpdateWalkingMode.
  rewrite E8, E9. reflexivity.
Qed.

(** ** What the rounded frame leaves alone *)

Lemma ShouldApply_rounded_overlaps
    (fl : Q -> Q) (pos : Vector3) (r h : Q) (box : CollisionBox) :
  Rounded.ShouldApplyHorizontalCollision fl pos r h box = true ->
  Rounded.OverlapsHorizontally fl pos r box.
Proof.
  unfold Rounded.ShouldApplyHorizontalCollision, Rounded.OverlapsHorizontally. cbv zeta.
  destruct (_ && _ && _ && _) eqn:Ho; cbn [negb]; [| discriminate].
  intros _. rewrite !andb_true_iff in Ho.
  destruct Ho as (((H1 & H2) & H3) & H4). cmp_props. tauto.
Qed.

Section RoundedFrames.

Variable fl : Q -> Q.
Variables sqrtf cosf sinf : Q -> Q.
Variable DEG2RAD : Q.

Lemma Rounded_UpdateCameraLook_frame (p : Player) (sens : Q) (f : Frame) :
  let q := Rounded.UpdateCameraLook fl p sens f in
  q.(position) = p.(position) /\ q.(velocity) = p.(velocity) /\
  q.(height) = p.(height) /\ q.(radius) = p.(radius) /\
  q.(isGrounded) = p.(isGrounded) /\ q.(noclipMode) = p.(noclipMode).
Proof.
  unfold Rounded.UpdateCameraLook. cbv zeta.
  destruct p as [ps vl yw pt h r g n].
  unfold set_yaw, set_pitch.
  cbn [position velocity yaw pitch height radius isGrounded noclipMode].
  destruct (_ >? 89);
    cbn [position velocity yaw pitch height radius isGrounded noclipMode];
    destruct (_ <? -89); cbn; repeat split.
Qed.

Lemma Rounded_WalkImpulses_frame (p : Player) (ms sens : Q) (f : Frame) :
  let q := Rounded.WalkImpulses fl sqrtf cosf sinf DEG2RAD p ms sens f in
  q.(position) = p.(position) /\
  q.(height) = p.(height) /\ q.(radius) = p.(radius).
Proof.
  destruct (Rounded_UpdateCameraLook_frame p sens f)
    as (Hpos & Hvel & Hh & Hr & Hg & Hn).
  unfold Rounded.WalkImpulses.
  set (pl := Rounded.UpdateCameraLook fl p sens f) in *.
  rewrite <- Hpos, <- Hh, <- Hr.
  clearbody pl. clear. destruct pl as [ps vl yw pt h r g n].
  cbn [position velocity yaw pitch height radius isGrounded noclipMode
       set_velocity set_isGrounded set_x set_y set_z x y z].
  destruct g, (IsKeyPressed f KEY_SPACE);
    cbn [position velocity yaw pitch height radius isGrounded noclipMode
         set_velocity set_isGrounded set_x set_y set_z x y z
         negb andb];
    repeat split.
Qed.

Lemma Rounded_WalkMove_frame (p : Player) (cs : list CollisionBox) (dt : Q) :
  let q := Rounded.WalkMove fl p cs dt in
  let pushed :=
    Rounded.HorizontalCollisions fl cs p.(radius) p.(height)
      (Rounded.WalkStart fl p dt) in
  q.(height) = p.(height) /\ q.(radius) = p.(radius) /\
  q.(position).(x) = pushed.(x) /\ q.(position).(z) = pushed.(z).
Proof.
  unfold Rounded.WalkMove, Rounded.WalkStart. cbv zeta.
  destruct (Rounded.FindGround _ _ _ _ _ _) as [found g].
  destruct (found && _); cbn; repeat split.
Qed.


End RoundedFrames.

(** ** Error bounds of the push-out *)

Section RoundingError.

Variable fl : Q -> Q.
Variable u : Q.
Hypothesis fl_error : forall a, Qabs (fl a - a) <= u * Qabs a.
Hypothesis u_small : 0 <= u <= 1 # 64.

Lemma fl_within (a B : Q) :
  - B <= a <= B -> - (u * B) <= fl a - a <= u * B.
Proof.
  intros Ha. pose proof (fl_error a) as He.
  assert (Hab : Qabs a <= B) by (apply Qabs_Qle_condition; exact Ha).
  assert (Hu : u * Qabs a <= u * B).
  { rewrite !(Qmult_comm u). apply Qmult_le_compat_r; lra. }
  apply Qabs_Qle_condition. lra.
Qed.

Lemma fl_ratio_pos (a : Q) :
  0 <= a -> (63 # 64) * a <= fl a <= (65 # 64) * a.
Proof.
  intros Ha. pose proof (fl_error a) as He.
  rewrite (Qabs_pos a) in He by exact Ha.
  apply Qabs_Qle_condition in He.
  assert (Hu : u * a <= (1 # 64) * a) by (apply Qmult_le_compat_r; lra).
  lra.
Qed.

Lemma fl_ratio_neg (a : Q) :
  a <= 0 -> (65 # 64) * a <= fl a <= (63 # 64) * a.
Proof.
  intros Ha. pose proof (fl_error a) as He.
  rewrite (Qabs_neg a) in He by exact Ha.
  apply Qabs_Qle_condition in He.
  assert (Hu : u * - a <= (1 # 64) * - a) by (apply Qmult_le_compat_r; lra).
  lra.
Qed.

Lemma fl_zero : fl 0 == 0.
Proof.
  pose proof (fl_ratio_pos 0). pose proof (fl_ratio_neg 0). lra.
Qed.

(** A rounded value of at least 1 comes from a value of at least 1 - u. *)
Lemma fl_ge_one (a : Q) : 1 <= fl a -> 1 - u <= a.
Proof.
  intros H1.
  destruct (Qlt_le_dec a 0) as [Hn | Hp].
  - pose proof (fl_ratio_neg a). lra.
  - destruct (Qlt_le_dec a 1) as [Hl | Hg]; [| lra].
    pose proof (fl_error a) as He.
    rewrite (Qabs_pos a) in He by exact Hp.
    apply Qabs_Qle_condition in He.
    assert (Hu : u * a <= u * 1).
    { rewrite !(Qmult_comm u). apply Qmult_le_compat_r; lra. }
    lra.
Qed.

Lemma fl_le_minus_one (a : Q) : fl a <= -1 -> a <= - (1 - u).
Proof.
  intros H1.
  destruct (Qlt_le_dec 0 a) as [Hp | Hn].
  - pose proof (fl_ratio_pos a). lra.
  - destruct (Qlt_le_dec (-1) a) as [Hl | Hg]; [| lra].
    pose proof (fl_error a) as He.
    rewrite (Qabs_neg a) in He by exact Hn.
    apply Qabs_Qle_condition in He.
    assert (Hu : u * - a <= u * 1).
    { rewrite !(Qmult_comm u). apply Qmult_le_compat_r; lra. }
    lra.
Qed.

(** The push-out on one axis.  [lo] and [hi] are the bounds of the box,
    [c] the player's coordinate: when the code's overlap test holds, the
    two computed overlaps are within [6 u S] of the exact ones, and the
    coordinate after either push is within [12 u S] of the face pushed
    to, where [S = |lo| + |hi| + r] is the size of the numbers involved. *)
Lemma push_out_on_one_axis (lo hi c r : Q) :
  0 <= r ->
  lo < fl (c + r) -> fl (c - r) < hi ->
  let near := fl (fl (c + r) - lo) in
  let far := fl (hi - fl (c - r)) in
  let S := Qabs lo + Qabs hi + r in
  0 <= near /\ 0 <= far /\
  Qabs (near - (c + r - lo)) <= 6 * u * S /\
  Qabs (far - (hi - (c - r))) <= 6 * u * S /\
  Qabs (fl (c + - near) + r - lo) <= 12 * u * S /\
  Qabs (fl (c + far) - r - hi) <= 12 * u * S /\
  Qabs (fl (c + - near) - c) <= near + 6 * u * S /\
  Qabs (fl (c + far) - c) <= far + 6 * u * S.
Proof.
  intros Hr Hlo Hhi near far S.
  pose proof (Qabs_nonneg lo) as Hl0. pose proof (Qle_Qabs lo) as Hl1.
  pose proof (Qle_Qabs (- lo)) as Hl2. rewrite Qabs_opp in Hl2.
  pose proof (Qabs_nonneg hi) as Hh0. pose proof (Qle_Qabs hi) as Hh1.
  pose proof (Qle_Qabs (- hi)) as Hh2. rewrite Qabs_opp in Hh2.
  subst near far S.
  set (L := Qabs lo) in *. set (H := Qabs hi) in *. clearbody L H.
  set (S := L + H + r).
  assert (HS : S == L + H + r) by reflexivity. clearbody S.
  (* the coordinate is of the size of the box *)
  assert (Hc : (- (2 * S) <= c + r <= 2 * S) /\ (- (2 * S) <= c - r <= 2 * S)).
  { destruct (Qlt_le_dec (c + r) 0) as [Hn | Hp];
      [pose proof (fl_ratio_neg (c + r)) | pose proof (fl_ratio_pos (c + r))];
      (destruct (Qlt_le_dec (c - r) 0) as [Hn' | Hp'];
        [pose proof (fl_ratio_neg (c - r)) | pose proof (fl_ratio_pos (c - r))]);
      split; split; lra. }
  destruct Hc as [Hc1 Hc2].
  pose proof (fl_within (c + r) (2 * S) Hc1) as EA.
  pose proof (fl_within (c - r) (2 * S) Hc2) as EB.
  assert (HuS : 0 <= u * S) by (apply Qmult_le_0_compat; lra).
  assert (HuS' : u * S <= (1 # 64) * S) by (apply Qmult_le_compat_r; lra).
  set (A := fl (c + r)) in *. set (B := fl (c - r)) in *. clearbody A B.
  assert (Hn : - (4 * S) <= A - lo <= 4 * S) by lra.
  assert (Hf : - (4 * S) <= hi - B <= 4 * S) by lra.
  pose proof (fl_within _ _ Hn) as En.
  pose proof (fl_within _ _ Hf) as Ef.
  assert (Hnear : 0 <= fl (A - lo)).
  { pose proof (fl_ratio_pos (A - lo)). lra. }
  assert (Hfar : 0 <= fl (hi - B)).
  { pose proof (fl_ratio_pos (hi - B)). lra. }
  set (near := fl (A - lo)) in *. set (far := fl (hi - B)) in *.
  clearbody near far.
  assert (Hpn : - (6 * S) <= c + - near <= 6 * S) by lra.
  assert (Hpf : - (6 * S) <= c + far <= 6 * S) by lra.
  pose proof (fl_within _ _ Hpn) as Epn.
  pose proof (fl_within _ _ Hpf) as Epf.
  splits; trivial; apply Qabs_Qle_condition; lra.
Qed.


Lemma ResolveCollision_rounded
    (pos : Vector3) (r h : Q) (box : CollisionBox) :
  0 <= r -> Rounded.OverlapsHorizontally fl pos r box ->
  let b := Rounded.GetBoxBounds fl box in
  let q := Rounded.ResolveCollision fl pos r h box in
  let sx := Rounded.Slack u b.(min).(x) b.(max).(x) r in
  let sz := Rounded.Slack u b.(min).(z) b.(max).(z) r in
  q.(y) = pos.(y) /\
  ((q.(z) = pos.(z) /\
    (Qabs (q.(x) + r - b.(min).(x)) <= sx \/
     Qabs (q.(x) - r - b.(max).(x)) <= sx)) \/
   (q.(x) = pos.(x) /\
    (Qabs (q.(z) + r - b.(min).(z)) <= sz \/
     Qabs (q.(z) - r - b.(max).(z)) <= sz))) /\
  (let moved := Qabs (q.(x) - pos.(x)) + Qabs (q.(z) - pos.(z)) in
   moved <= (pos.(x) + r) - b.(min).(x) + (sx + sz) /\
   moved <= b.(max).(x) - (pos.(x) - r) + (sx + sz) /\
   moved <= (pos.(z) + r) - b.(min).(z) + (sx + sz) /\
   moved <= b.(max).(z) - (pos.(z) - r) + (sx + sz)).
Proof.
  intros Hr (Hx1 & Hx2 & Hz1 & Hz2) b q sx sz.
  pose proof (push_out_on_one_axis _ _ _ _ Hr Hx1 Hx2) as PX.
  pose proof (push_out_on_one_axis _ _ _ _ Hr Hz1 Hz2) as PZ.
  cbv zeta in PX, PZ.
  subst q sx sz. unfold Rounded.Slack, Rounded.ResolveCollision. cbv zeta.
  fold b in PX, PZ |- *.
  set (Sx := Qabs (x (min b)) + Qabs (x (max b)) + r) in *.
  set (Sz := Qabs (z (min b)) + Qabs (z (max b)) + r) in *.
  assert (HSx : 0 <= u * Sx).
  { apply Qmult_le_0_compat; [lra |]. subst Sx.
    pose proof (Qabs_nonneg (x (min b))). pose proof (Qabs_nonneg (x (max b))).
    lra. }
  assert (HSz : 0 <= u * Sz).
  { apply Qmult_le_0_compat; [lra |]. subst Sz.
    pose proof (Qabs_nonneg (z (min b))). pose proof (Qabs_nonneg (z (max b))).
    lra. }
  clearbody Sx Sz.
  set (X1 := fl (fl (x pos + r) - x (min b))) in *.
  set (X2 := fl (x (max b) - fl (x pos - r))) in *.
  set (Z1 := fl (fl (z pos + r) - z (min b))) in *.
  set (Z2 := fl (z (max b) - fl (z pos - r))) in *.
  destruct PX as (HX1 & HX2 & EX1 & EX2 & PX1 & PX2 & MX1 & MX2).
  destruct PZ as (HZ1 & HZ2 & EZ1 & EZ2 & PZ1 & PZ2 & MZ1 & MZ2).
  apply Qabs_Qle_condition in EX1, EX2, EZ1, EZ2.
  unfold fabsf.
  destruct (X1 <? X2) eqn:CX; destruct (Z1 <? Z2) eqn:CZ; cmp_props;
    match goal with |- context [?a <? ?c] => destruct (a <? c) eqn:CA end;
    cmp_props; rewrite ?Qabs_opp in CA;
    try rewrite (Qabs_pos X1) in CA by assumption;
    try rewrite (Qabs_pos X2) in CA by assumption;
    try rewrite (Qabs_pos Z1) in CA by assumption;
    try rewrite (Qabs_pos Z2) in CA by assumption;
    unfold set_x, set_z; cbn [x y z];
    (split; [reflexivity |]); (split; [tauto |]);
    repeat match goal with
    | |- context [Qabs (?a - ?a)] =>
        setoid_replace (Qabs (a - a)) with 0
          by (setoid_replace (a - a) with 0 by ring; reflexivity)
    end;
    splits; lra.
Qed.



Lemma approach_push (cand : Vector3) (r h : Q) :
  Rounded.CubeIsExact fl -> 0 <= r ->
  Rounded.AtMidHeight fl cand h centerCube ->
  let slack := 12 * u * (2 + r) in
  Qabs cand.(z) + slack < cand.(x) ->
  let q := Rounded.HorizontalCollisions fl [centerCube] r h cand in
  1 + r - slack <= q.(x) /\
  (Rounded.ShouldApplyHorizontalCollision fl cand r h centerCube = true ->
   Qabs (q.(x) - (1 + r)) <= slack /\ q.(z) = cand.(z)).
Proof.
  intros (Bx1 & Bx2 & Bz1 & Bz2) Hr (Hfeet & Hhead) slack Hhead' q.
  cbv zeta in Bx1, Bx2, Bz1, Bz2.
  pose proof (Qabs_nonneg (z cand)) as Hz0. pose proof (Qle_Qabs (z cand)) as Hz1.
  pose proof (Qle_Qabs (- z cand)) as Hz2. rewrite Qabs_opp in Hz2.
  set (az := Qabs (z cand)) in *. clearbody az.
  assert (Hu2 : 0 <= u * (2 + r)) by (apply Qmult_le_0_compat; lra).
  assert (Hu1 : u <= u * (2 + r)).
  { setoid_replace u with (u * 1) at 1 by ring.
    rewrite !(Qmult_comm u). apply Qmult_le_compat_r; lra. }
  subst q. unfold Rounded.HorizontalCollisions. cbn [fold_left].
  destruct (Rounded.ShouldApplyHorizontalCollision fl cand r h centerCube)
    eqn:Hc.
  - apply ShouldApply_rounded_overlaps in Hc.
    destruct Hc as (Hx1 & Hx2 & Hz1' & Hz2').
    pose proof (push_out_on_one_axis _ _ _ _ Hr Hx1 Hx2) as PX.
    pose proof (push_out_on_one_axis _ _ _ _ Hr Hz1' Hz2') as PZ.
    cbv zeta in PX, PZ.
    unfold Rounded.ResolveCollision. cbv zeta.
    set (b := Rounded.GetBoxBounds fl centerCube) in *.
    assert (ESx : Qabs (x (min b)) + Qabs (x (max b)) + r == 2 + r)
      by (rewrite Bx1, Bx2; reflexivity).
    assert (ESz : Qabs (z (min b)) + Qabs (z (max b)) + r == 2 + r)
      by (rewrite Bz1, Bz2; reflexivity).
    set (X1 := fl (fl (x cand + r) - x (min b))) in *.
    set (X2 := fl (x (max b) - fl (x cand - r))) in *.
    set (Z1 := fl (fl (z cand + r) - z (min b))) in *.
    set (Z2 := fl (z (max b) - fl (z cand - r))) in *.
    destruct PX as (HX1 & HX2 & EX1 & EX2 & PX1 & PX2 & _).
    destruct PZ as (HZ1 & HZ2 & EZ1 & EZ2 & _).
    rewrite ESx in EX1, EX2, PX1, PX2. rewrite ESz in EZ1, EZ2.
    apply Qabs_Qle_condition in EX1, EX2, EZ1, EZ2, PX2.
    unfold fabsf. subst slack.
    destruct (X1 <? X2) eqn:CX; destruct (Z1 <? Z2) eqn:CZ; cmp_props;
      match goal with |- context [?a <? ?c] => destruct (a <? c) eqn:CA end;
      cmp_props; rewrite ?Qabs_opp in CA;
      try rewrite (Qabs_pos X1) in CA by assumption;
      try rewrite (Qabs_pos X2) in CA by assumption;
      try rewrite (Qabs_pos Z1) in CA by assumption;
      try rewrite (Qabs_pos Z2) in CA by assumption;
      try (exfalso; lra);
      unfold set_x; cbn [x y z];
      (split; [| intros _; split; [apply Qabs_Qle_condition |]]);
      try reflexivity; lra.
  - split; [| discriminate].
    unfold Rounded.ShouldApplyHorizontalCollision in Hc. cbv zeta in Hc.
    fold (Rounded.GetBoxBounds fl centerCube) in Hfeet, Hhead.
    cbv zeta in Hfeet, Hhead. rewrite Hfeet, Hhead in Hc.
    destruct (_ && _ && _ && _) eqn:Ho; cbn [negb] in Hc; [discriminate |].
    clear Hc. rewrite !andb_false_iff in Ho. subst slack.
    destruct Ho as [[[Ho | Ho] | Ho] | Ho]; cmp_props.
    + rewrite Bx1 in Ho. apply fl_le_minus_one in Ho. lra.
    + rewrite Bx2 in Ho. apply fl_ge_one in Ho. lra.
    + rewrite Bz1 in Ho. apply fl_le_minus_one in Ho. lra.
    + rewrite Bz2 in Ho. apply fl_ge_one in Ho. lra.
Qed.

Lemma ResolveCollision_on_face
    (pos : Vector3) (r h : Q) (box : CollisionBox) :
  0 <= r ->
  Rounded.ShouldApplyHorizontalCollision fl pos r h box = true ->
  Rounded.OnFace fl u (Rounded.ResolveCollision fl pos r h box) r box.
Proof.
  intros Hr Hc. apply ShouldApply_rounded_overlaps in Hc.
  destruct (ResolveCollision_rounded pos r h box Hr Hc)
    as (_ & Hface & _).
  unfold Rounded.OnFace. cbv zeta. tauto.
Qed.

Lemma last_box_rounded
    (cs : list CollisionBox) (b : CollisionBox) (r h : Q) (pos : Vector3) :
  0 <= r ->
  let q := Rounded.HorizontalCollisions fl (cs ++ [b]) r h pos in
  Rounded.ShouldApplyHorizontalCollision fl q r h b = false \/
  Rounded.OnFace fl u q r b.
Proof.
  intros Hr q. subst q. unfold Rounded.HorizontalCollisions.
  rewrite fold_left_app. cbn [fold_left].
  match goal with |- context [if ?c then _ else _] => destruct c eqn:Hc end.
  - right. apply ResolveCollision_on_face; assumption.
  - left. exact Hc.
Qed.

End RoundingError.

(** ** The approach, frame by frame *)

Lemma approach_slack (u : Q) (p : Player) :
  Approach.Slack u p == Rounded.Slack u (-1) 1 p.(radius).
Proof.
  unfold Approach.Slack, Rounded.Slack.
  change (Qabs (-1)) with 1. change (Qabs 1) with 1. ring.
Qed.

Section ApproachProperties.

Variable fl : Q -> Q.
Variable u : Q.
Hypothesis fl_error : forall a, Qabs (fl a - a) <= u * Qabs a.
Hypothesis u_small : 0 <= u <= 1 # 64.
Hypothesis cube_exact : Rounded.CubeIsExact fl.

Variables sqrtf cosf sinf : Q -> Q.
Variable DEG2RAD : Q.

Lemma approach_frame_rounded (ms sens : Q) (p : Player) (f : Frame) :
  0 <= p.(radius) ->
  Approach.MidHeight fl sqrtf cosf sinf DEG2RAD ms sens p f ->
  Approach.HeadsForFace fl u sqrtf cosf sinf DEG2RAD ms sens p f ->
  let next :=
    Rounded.UpdateWalkingMode fl sqrtf cosf sinf DEG2RAD p ms sens
      [centerCube] f in
  Approach.FaceX fl p - Approach.Slack u p <= next.(position).(x) /\
  (Approach.Contact fl sqrtf cosf sinf DEG2RAD ms sens p f ->
   Qabs (next.(position).(x) - Approach.FaceX fl p) <= Approach.Slack u p).
Proof.
  intros Hr Hmid Hhead next.
  unfold Approach.MidHeight, Approach.HeadsForFace, Approach.Contact,
    Approach.FaceX, Approach.Slack in *.
  cbv zeta in Hhead.
  destruct (Rounded_WalkImpulses_frame fl sqrtf cosf sinf DEG2RAD p ms sens f)
    as (_ & HhA & HrA).
  set (cand := Approach.Candidate fl sqrtf cosf sinf DEG2RAD ms sens p f) in *.
  destruct (Rounded_WalkMove_frame fl
              (Rounded.WalkImpulses fl sqrtf cosf sinf DEG2RAD p ms sens f)
              [centerCube] (GetFrameTime f)) as (_ & _ & Hx & _).
  cbv zeta in Hx. rewrite HhA, HrA in Hx. fold cand in Hx.
  change (Rounded.WalkMove fl
            (Rounded.WalkImpulses fl sqrtf cosf sinf DEG2RAD p ms sens f)
            [centerCube] (GetFrameTime f)) with next in Hx.
  rewrite Hx.
  destruct (approach_push fl u fl_error u_small cand p.(radius) p.(height)
              cube_exact Hr Hmid Hhead) as (Hlo & Hc).
  destruct cube_exact as (_ & Bx2 & _). cbv zeta in Bx2.
  rewrite Bx2. split; [exact Hlo |].
  intros Hcontact. apply Hc. exact Hcontact.
Qed.

Lemma approach_clamped_rounded (ms sens : Q) (frames : list Frame) (p : Player) :
  Approach.Run fl u sqrtf cosf sinf DEG2RAD ms sens p frames ->
  Approach.Clamped fl u sqrtf cosf sinf DEG2RAD ms sens p frames.
Proof.
  revert p. induction frames as [| f rest IH]; intros p Hrun; [exact I |].
  destruct Hrun as (Hr & Hmid & Hhead & Hrest).
  destruct (approach_frame_rounded ms sens p f Hr Hmid Hhead) as (Hlo & Hc).
  cbn [Approach.Clamped]. cbv zeta. splits; trivial.
  apply IH. exact Hrest.
Qed.

End ApproachProperties.

(** ** The push-out in single precision *)

(** X1.  In single precision the push-out puts the player on a face of
    the box, up to rounding.  When the overlap test of the code holds,
    [ResolveCollision] moves one horizontal coordinate only, and
    afterwards the side of the player's AABB on that axis is within the
    slack of the face pushed to, where the slack is twelve roundings of
    the numbers involved.  The push is the shortest of the four ways
    out, up to the slack: the distance moved is at most the distance to
    each of the four vertical faces plus the slack of both axes. *)
Theorem push_out_lands_on_a_face
    (pos : Vector3) (r h : Q) (box : CollisionBox) :
  0 <= r ->
  Rounded.OverlapsHorizontally F32.binary32 pos r box ->
  let b := Rounded.GetBoxBounds F32.binary32 box in
  let q := Rounded.ResolveCollision F32.binary32 pos r h box in
  let sx := Rounded.Slack F32.unit_roundoff b.(min).(x) b.(max).(x) r in
  let sz := Rounded.Slack F32.unit_roundoff b.(min).(z) b.(max).(z) r in
  q.(y) = pos.(y) /\
  ((q.(z) = pos.(z) /\
    (Qabs (q.(x) + r - b.(min).(x)) <= sx \/
     Qabs (q.(x) - r - b.(max).(x)) <= sx)) \/
   (q.(x) = pos.(x) /\
    (Qabs (q.(z) + r - b.(min).(z)) <= sz \/
     Qabs (q.(z) - r - b.(max).(z)) <= sz))) /\
  (let moved := Qabs (q.(x) - pos.(x)) + Qabs (q.(z) - pos.(z)) in
   moved <= (pos.(x) + r) - b.(min).(x) + (sx + sz) /\
   moved <= b.(max).(x) - (pos.(x) - r) + (sx + sz) /\
   moved <= (pos.(z) + r) - b.(min).(z) + (sx + sz) /\
   moved <= b.(max).(z) - (pos.(z) - r) + (sx + sz)).
Proof.
  apply ResolveCollision_rounded;
    [exact binary32_error | exact unit_roundoff_small].
Qed.

(** X2.  The push-outs run in list order and the last box has the last
    word: whatever the earlier boxes did, after the loop the last box of
    the list is either no horizontal collision or the player is on one
    of its faces up to the slack.  (In single precision the test can
    still hold after the push: see [push_out_values] below.) *)
Theorem last_box_collides_only_at_a_face
    (cs : list CollisionBox) (b : CollisionBox) (r h : Q) (pos : Vector3) :
  0 <= r ->
  let q := Rounded.HorizontalCollisions F32.binary32 (cs ++ [b]) r h pos in
  Rounded.ShouldApplyHorizontalCollision F32.binary32 q r h b = false \/
  Rounded.OnFace F32.binary32 F32.unit_roundoff q r b.
Proof.
  apply last_box_rounded;
    [exact binary32_error | exact unit_roundoff_small].
Qed.

(** ** The approach to the +x face in single precision *)

(** C1, with the conditions the push-out needs and the slack rounding
    takes.  For the cube centred at (0,1,0) with size (2,2,2) and a
    radius that is not negative: on every frame of a walking run whose
    candidate position, as the code computes it, is at mid-height of the
    cube and lies nearer the +x face than either z face by more than
    the slack [s = 12 * 2^-24 * (2 + radius)], that is
    [|candidate.z| + s < candidate.x], the frame ends with
    [position.x >= boxMaxX + radius - s], and with [position.x] within
    [s] of [boxMaxX + radius] when the frame made contact. *)
Theorem approach_is_clamped_at_plus_x_face
    (sqrtf cosf sinf : Q -> Q) (DEG2RAD ms sens : Q)
    (frames : list Frame) (p : Player) :
  Approach.Run F32.binary32 F32.unit_roundoff sqrtf cosf sinf DEG2RAD
    ms sens p frames ->
  Approach.Clamped F32.binary32 F32.unit_roundoff sqrtf cosf sinf DEG2RAD
    ms sens p frames.
Proof.
  apply approach_clamped_rounded.
  - exact binary32_error.
  - exact unit_roundoff_small.
  - exact binary32_cube.
Qed.

(** * Worked instances in single precision *)

(** Eight frames of 0.1f seconds at speed 7 from x = 5: the sixth frame
    makes contact and every later frame is clamped. *)
Lemma approach_from_x_5 :
  Approach.Run F32.binary32 F32.unit_roundoff
    Exact.sqrtf Exact.cosf Exact.sinf Exact.DEG2RAD 7 (F32.binary32 0.1)
    Single.approaching (Single.forwardFrames 8) /\
  Approach.Clamped F32.binary32 F32.unit_roundoff
    Exact.sqrtf Exact.cosf Exact.sinf Exact.DEG2RAD 7 (F32.binary32 0.1)
    Single.approaching (Single.forwardFrames 8).
Proof.
  assert (Hrun : Approach.Run F32.binary32 F32.unit_roundoff
    Exact.sqrtf Exact.cosf Exact.sinf Exact.DEG2RAD 7 (F32.binary32 0.1)
    Single.approaching (Single.forwardFrames 8)) by q_eval.
  split; [exact Hrun |].
  exact (approach_is_clamped_at_plus_x_face
           Exact.sqrtf Exact.cosf Exact.sinf Exact.DEG2RAD 7 (F32.binary32 0.1)
           (Single.forwardFrames 8) Single.approaching Hrun).
Defined.

(** The same run, by evaluation: after the sixth frame the player is at
    1.3f = 5452595 / 2^22, which is below 1 + 0.3f, and stays there. *)
Example approach_positions_single :
  let run n :=
    (fold_left
       (fun p f =>
          Rounded.UpdateWalkingMode F32.binary32
            Exact.sqrtf Exact.cosf Exact.sinf Exact.DEG2RAD p 7
            (F32.binary32 0.1) [centerCube] f)
       (Single.forwardFrames n) Single.approaching).(position).(x) in
  run 5%nat == 1.5 /\
  run 6%nat == (5452595 # 4194304) /\ run 8%nat == (5452595 # 4194304) /\
  run 6%nat < 1 + Single.approaching.(radius).
Proof. q_eval. Qed.

(** The long frame in single precision: from the face, a frame of 0.2f
    seconds at speed 7 ends on the other side of the cube. *)
Example long_frame_position_single :
  (Rounded.UpdateWalkingMode F32.binary32
     Exact.sqrtf Exact.cosf Exact.sinf Exact.DEG2RAD
     (mkPlayer (vec3 (F32.binary32 1.3) (F32.binary32 1.8) 0) (vec3 0 0 0)
               180 0 (F32.binary32 1.8) (F32.binary32 0.3) true false)
     7 (F32.binary32 0.1) [centerCube]
     (Exact.forwardKey (F32.binary32 0.2))).(position).(x)
  < -1.
Proof. q_eval. Qed.

(** A player inside the widened footprint of the cube. *)
Lemma push_out_instance :
  0 <= Single.approaching.(radius) /\
  Rounded.OverlapsHorizontally F32.binary32 Single.inside
    Single.approaching.(radius) centerCube /\
  Rounded.OnFace F32.binary32 F32.unit_roundoff
    (Rounded.ResolveCollision F32.binary32 Single.inside
       Single.approaching.(radius) Single.approaching.(height) centerCube)
    Single.approaching.(radius) centerCube.
Proof.
  assert (Hr : 0 <= Single.approaching.(radius)) by (vm_compute; discriminate).
  assert (Ho : Rounded.OverlapsHorizontally F32.binary32 Single.inside
                 Single.approaching.(radius) centerCube) by q_eval.
  split; [exact Hr | split; [exact Ho |]].
  destruct (push_out_lands_on_a_face Single.inside
              Single.approaching.(radius) Single.approaching.(height)
              centerCube Hr Ho) as (_ & Hface & _).
  unfold Rounded.OnFace. cbv zeta. tauto.
Defined.

(** The push leaves the player at x = 1.3f, where 1.3f - 0.3f is below 1:
    the collision test of the code still holds after the push. *)
Example push_out_values :
  let r := Single.approaching.(radius) in
  let h := Single.approaching.(height) in
  let q := Rounded.ResolveCollision F32.binary32 Single.inside r h centerCube in
  q.(x) == (5452595 # 4194304) /\ q.(x) < 1 + r /\
  Rounded.ShouldApplyHorizontalCollision F32.binary32 q r h centerCube = true.
Proof. q_eval. Qed.

Lemma last_box_instance :
  0 <= Single.approaching.(radius) /\
  (Rounded.ShouldApplyHorizontalCollision F32.binary32
     (Rounded.HorizontalCollisions F32.binary32 ([] ++ [centerCube])
        Single.approaching.(radius) Single.approaching.(height) Single.inside)
     Single.approaching.(radius) Single.approaching.(height) centerCube
   = false \/
   Rounded.OnFace F32.binary32 F32.unit_roundoff
     (Rounded.HorizontalCollisions F32.binary32 ([] ++ [centerCube])
        Single.approaching.(radius) Single.approaching.(height) Single.inside)
     Single.approaching.(radius) centerCube).
Proof.
  assert (Hr : 0 <= Single.approaching.(radius)) by (vm_compute; discriminate).
  split; [exact Hr |].
  exact (last_box_collides_only_at_a_face [] centerCube
           Single.approaching.(radius) Single.approaching.(height)
           Single.inside Hr).
Defined.
